(** * QWBP: a shallow embedding of the packet codec, the fingerprint
      utilities, candidate-line synthesis and the connection manager.

    Typed arrays ([Uint8Array]) are lists of integers, array offsets and
    lengths are natural numbers, JavaScript strings are [string]s whose
    characters stand for the code units U+0000..U+00FF, and an exception
    is the [Throw] branch of [result]. *)

From Stdlib Require Import ZArith List String Ascii Bool Lia Arith.
Import ListNotations.
Open Scope string_scope.
Open Scope list_scope.
Open Scope Z_scope.

Infix "+++" := String.append (at level 60, right associativity).

(* ------------------------------------------------------------------ *)
(** ** errors.ts *)

Inductive ConnectionState :=
| Idle | Gathering | Displaying | ScannedOne
| Connecting | Connected | Failed | Closed.

(** The text of a state, as the enum has it. *)
Definition stateName (s : ConnectionState) : string :=
  match s with
  | Idle => "idle"
  | Gathering => "gathering"
  | Displaying => "displaying"
  | ScannedOne => "scanned-one"
  | Connecting => "connecting"
  | Connected => "connected"
  | Failed => "failed"
  | Closed => "closed"
  end.

Inductive Error :=
| QWBPEncodeError (message : string)
| QWBPDecodeError (message : string)
| QWBPConnectionError (message : string) (state : ConnectionState)
| QWBPSelfConnectionError
| PlainError (message : string)
| RangeError
(* A typed-array read outside [0, length). JavaScript yields [undefined]
   there; the model flags it so that in-bounds access can be stated. *)
| IndexOutOfRange
(* The loop budget of a [while] ran out. *)
| OutOfFuel.

Inductive result (A : Type) :=
| Ok (a : A)
| Throw (e : Error).
Arguments Ok {A} a.
Arguments Throw {A} e.

Definition bind {A B} (r : result A) (k : A -> result B) : result B :=
  match r with
  | Ok a => k a
  | Throw e => Throw e
  end.

Notation "'let*' x ':=' r 'in' k" := (bind r (fun x => k))
  (at level 10, x pattern, r at level 100, k at level 200).

Fixpoint mapM {A B} (f : A -> result B) (l : list A) : result (list B) :=
  match l with
  | [] => Ok []
  | a :: l' =>
      let* b := f a in
      let* bs := mapM f l' in
      Ok (b :: bs)
  end.

(* ------------------------------------------------------------------ *)
(** ** The JavaScript built-ins the sources call *)

Module JS.

Definition Uint8Array := list Z.

(** [arr[i]] on a typed array, flagged when out of range. *)
Definition get (arr : Uint8Array) (i : nat) : result Z :=
  match nth_error arr i with
  | Some v => Ok v
  | None => Throw IndexOutOfRange
  end.

(** [arr.slice(a, b)] with [a <= b]: both ends are clamped to the length. *)
Definition slice (arr : Uint8Array) (a b : nat) : Uint8Array :=
  firstn (b - a) (skipn a arr).

(** [new Uint8Array(n)]. *)
Definition zeros (n : nat) : Uint8Array := repeat 0 n.

(** [arr[i] = v]: ignored when [i] is out of range. *)
Fixpoint put (arr : Uint8Array) (i : nat) (v : Z) : Uint8Array :=
  match arr, i with
  | [], _ => []
  | _ :: t, O => v :: t
  | h :: t, S j => h :: put t j v
  end.

(** [arr.set(src, off)]: a RangeError when [src] does not fit. *)
Definition set (arr src : Uint8Array) (off : nat) : result Uint8Array :=
  if (off + List.length src <=? List.length arr)%nat
  then Ok (firstn off arr ++ src ++ skipn (off + List.length src) arr)
  else Throw RangeError.

(** The conversion applied when a number is stored into a [Uint8Array];
    [None] is NaN. *)
Definition toUint8 (v : option Z) : Z :=
  match v with
  | Some n => n mod 256
  | None => 0
  end.

(** *** Strings *)

Definition drop (n : nat) (s : string) : string :=
  substring n (String.length s - n) s.

Definition startsWith (s pre : string) : bool := prefix pre s.

Definition endsWith (s suf : string) : bool :=
  let n := String.length s in
  let m := String.length suf in
  (m <=? n)%nat && String.eqb (substring (n - m) m s) suf.

Fixpoint includes (s sub : string) : bool :=
  prefix sub s ||
  match s with
  | EmptyString => false
  | String _ s' => includes s' sub
  end.

(** [s.replace(pat, rep)] with a string pattern: the first occurrence only. *)
Fixpoint replaceFirst (s pat rep : string) : string :=
  if prefix pat s then rep +++ drop (String.length pat) s
  else match s with
       | EmptyString => EmptyString
       | String c s' => String c (replaceFirst s' pat rep)
       end.

(** [s.replace(/c/g, '')] for a one-character pattern. *)
Fixpoint removeAll (c : ascii) (s : string) : string :=
  match s with
  | EmptyString => EmptyString
  | String d s' => if Ascii.eqb c d then removeAll c s' else String d (removeAll c s')
  end.

(** [s.split(sep)] for a non-empty separator; [skip] counts the characters
    of a separator still to be passed over, [cur] is the piece being read. *)
Fixpoint splitGo (sep : string) (skip : nat) (cur : string) (s : string)
  : list string :=
  match s with
  | EmptyString => [cur]
  | String c s' =>
      match skip with
      | S k => splitGo sep k cur s'
      | O =>
          if prefix sep s
          then cur :: splitGo sep (String.length sep - 1) EmptyString s'
          else splitGo sep O (cur +++ String c EmptyString) s'
      end
  end.

Definition split (s sep : string) : list string := splitGo sep O EmptyString s.

(** [parts.join(sep)]. *)
Definition join (sep : string) (parts : list string) : string :=
  String.concat sep parts.

(** [s.padStart(n, '0')]. *)
Definition padStart0 (n : nat) (s : string) : string :=
  string_of_list_ascii (repeat "0"%char (n - String.length s)) +++ s.

Definition isDigit (c : ascii) : bool :=
  let n := nat_of_ascii c in (48 <=? n)%nat && (n <=? 57)%nat.

Definition toLower (c : ascii) : ascii :=
  let n := nat_of_ascii c in
  if (65 <=? n)%nat && (n <=? 90)%nat then ascii_of_nat (n + 32) else c.

Definition toUpper (c : ascii) : ascii :=
  let n := nat_of_ascii c in
  if (97 <=? n)%nat && (n <=? 122)%nat then ascii_of_nat (n - 32) else c.

Fixpoint mapString (f : ascii -> ascii) (s : string) : string :=
  match s with
  | EmptyString => EmptyString
  | String c s' => String (f c) (mapString f s')
  end.

Fixpoint allChars (p : ascii -> bool) (s : string) : bool :=
  match s with
  | EmptyString => true
  | String c s' => p c && allChars p s'
  end.

(** *** Numbers *)

(** The value of a character as a digit, letters counting from ten. *)
Definition digitValue (c : ascii) : option Z :=
  let n := nat_of_ascii c in
  if (48 <=? n)%nat && (n <=? 57)%nat then Some (Z.of_nat (n - 48))
  else if (97 <=? n)%nat && (n <=? 122)%nat then Some (Z.of_nat (n - 87))
  else if (65 <=? n)%nat && (n <=? 90)%nat then Some (Z.of_nat (n - 55))
  else None.

(** White space skipped by [parseInt], within U+0000..U+00FF. *)
Definition isWhiteSpace (c : ascii) : bool :=
  let n := nat_of_ascii c in
  ((9 <=? n)%nat && (n <=? 13)%nat) || (n =? 32)%nat || (n =? 160)%nat.

Fixpoint trimStart (s : string) : string :=
  match s with
  | String c s' => if isWhiteSpace c then trimStart s' else s
  | EmptyString => EmptyString
  end.

(** The longest prefix of digits below [radix], read as a number; [acc] is
    [None] until a digit has been read. *)
Fixpoint parseDigits (radix : Z) (acc : option Z) (s : string) : option Z :=
  match s with
  | EmptyString => acc
  | String c s' =>
      match digitValue c with
      | Some d =>
          if d <? radix
          then parseDigits radix
                 (Some (match acc with Some a => a * radix + d | None => d end)) s'
          else acc
      | None => acc
      end
  end.

(** [parseInt(s, radix)] for radix 10 or 16; [None] is NaN. *)
Definition parseInt (s : string) (radix : Z) : option Z :=
  let s1 := trimStart s in
  let '(sign, s2) :=
    match s1 with
    | String "-" r => (-1, r)
    | String "+" r => (1, r)
    | _ => (1, s1)
    end in
  let s3 :=
    if radix =? 16 then
      match s2 with
      | String "0" (String "x" r) => r
      | String "0" (String "X" r) => r
      | _ => s2
      end
    else s2 in
  option_map (Z.mul sign) (parseDigits radix None s3).

Definition digitChar (d : Z) : ascii :=
  if d <? 10 then ascii_of_nat (Z.to_nat d + 48) else ascii_of_nat (Z.to_nat d + 87).

Fixpoint digitsGo (radix : Z) (fuel : nat) (n : Z) (acc : string) : string :=
  match fuel with
  | O => acc
  | S f =>
      let acc' := String (digitChar (n mod radix)) acc in
      if n / radix =? 0 then acc' else digitsGo radix f (n / radix) acc'
  end.

(** [n.toString(radix)] for an integer [n]: a minus sign before the
    digits of a negative number. *)
Definition toString (n : Z) (radix : Z) : string :=
  if n <? 0
  then String "-" (digitsGo radix (S (Z.to_nat (Z.log2 (- n)))) (- n) EmptyString)
  else digitsGo radix (S (Z.to_nat (Z.log2 n))) n EmptyString.

(** *** Patterns *)

(** The longest prefix of characters in a class, and what follows it. *)
Fixpoint span (p : ascii -> bool) (s : string) : string * string :=
  match s with
  | String c s' =>
      if p c then let (run, rest) := span p s' in (String c run, rest)
      else (EmptyString, s)
  | EmptyString => (EmptyString, EmptyString)
  end.

(** [\w]. *)
Definition isWordChar (c : ascii) : bool :=
  let n := nat_of_ascii c in
  ((48 <=? n)%nat && (n <=? 57)%nat)
  || ((65 <=? n)%nat && (n <=? 90)%nat)
  || ((97 <=? n)%nat && (n <=? 122)%nat)
  || (n =? 95)%nat.

(** [\S]. *)
Definition isNonSpace (c : ascii) : bool := negb (isWhiteSpace c).

(** [/key\S+/] tried at the start of [s]: the matched text. *)
Definition matchLineAt (key s : string) : option string :=
  if prefix key s then
    match fst (span isNonSpace (drop (String.length key) s)) with
    | EmptyString => None
    | String c r => Some (key +++ String c r)
    end
  else None.

(** The text before and after the first occurrence of a pattern. *)
Fixpoint cutAt (pat s : string) : option (string * string) :=
  if prefix pat s then Some (EmptyString, drop (String.length pat) s)
  else match s with
       | EmptyString => None
       | String c s' =>
           match cutAt pat s' with
           | Some (before, after) => Some (String c before, after)
           | None => None
           end
       end.

(** The expansion of a replacement text for a match without capture
    groups: [$$], [$&], [$`] and [$'] are replaced, any other [$] stays. *)
Fixpoint getSubstitution (matched before after replacement : string) : string :=
  match replacement with
  | String "$" (String "$" r) =>
      String "$" (getSubstitution matched before after r)
  | String "$" (String "&" r) =>
      matched +++ getSubstitution matched before after r
  | String "$" (String "`" r) =>
      before +++ getSubstitution matched before after r
  | String "$" (String "'" r) =>
      after +++ getSubstitution matched before after r
  | String c r => String c (getSubstitution matched before after r)
  | EmptyString => EmptyString
  end.

(** [s.replace(pat, rep)] with a string pattern and a replacement text that
    may hold [$] patterns: the first occurrence only. *)
Definition replaceString (s pat rep : string) : string :=
  match cutAt pat s with
  | Some (before, after) => before +++ getSubstitution pat before after rep +++ after
  | None => s
  end.

(** [s.replace(/key\S+/g, rep)]: [skip] counts the characters of a match
    still to be passed over, [before] is the text already passed. *)
Fixpoint replaceLinesGo (key rep : string) (skip : nat) (before s : string)
  : string :=
  match s with
  | EmptyString => EmptyString
  | String c s' =>
      match skip with
      | S k => replaceLinesGo key rep k (before +++ String c EmptyString) s'
      | O =>
          match matchLineAt key s with
          | Some matched =>
              getSubstitution matched before (drop (String.length matched) s) rep
              +++ replaceLinesGo key rep (String.length matched - 1)
                    (before +++ String c EmptyString) s'
          | None =>
              String c (replaceLinesGo key rep O (before +++ String c EmptyString) s')
          end
      end
  end.

Definition replaceLines (s key rep : string) : string :=
  replaceLinesGo key rep O EmptyString s.

(** A literal pattern under the flag [i], within U+0000..U+00FF. *)
Definition includesCI (s pat : string) : bool :=
  includes (mapString toLower s) (mapString toLower pat).

Definition startsWithCI (s pat : string) : bool :=
  prefix (mapString toLower pat) (mapString toLower s).

End JS.

(* ------------------------------------------------------------------ *)
(** ** constants.ts *)

Definition MAGIC_BYTE : Z := 0x51.
Definition PROTOCOL_VERSION : Z := 0.
Definition FINGERPRINT_SIZE : nat := 32.
Definition HEADER_SIZE : nat := 2.
Definition MIN_PACKET_SIZE : nat := HEADER_SIZE + FINGERPRINT_SIZE + 7.
Definition HKDF_INFO_UFRAG : string := "QWBP-ICE-UFRAG-v1".
Definition HKDF_INFO_PWD : string := "QWBP-ICE-PWD-v1".
Definition HKDF_UFRAG_LENGTH : nat := 4.
Definition HKDF_PWD_LENGTH : nat := 18.
Definition DEFAULT_MAX_CANDIDATES : Z := 4.
Definition HOST_UDP : Z := 2122260223.
Definition HOST_TCP : Z := 2105524223.
Definition SRFLX : Z := 1686052607.

(* ------------------------------------------------------------------ *)
(** ** types.ts *)

Inductive CandidateType := host | srflx.
Inductive Protocol := udp | tcp.
Inductive TcpType := passive | active | so.
Inductive Role := Offerer | Answerer.

Record QWBPCandidate := mkCandidate {
  ip : string;
  port : Z;
  type : CandidateType;
  protocol : Protocol;
  tcpType : option TcpType
}.

Record QWBPPacket := mkPacket {
  version : Z;
  fingerprint : JS.Uint8Array;
  candidates : list QWBPCandidate
}.

Record IceCredentials := mkCredentials {
  ufrag : string;
  pwd : string
}.

Record PeerInfo := mkPeerInfo {
  peerFingerprint : JS.Uint8Array;
  peerCandidates : list QWBPCandidate;
  peerCredentials : IceCredentials
}.

(* ------------------------------------------------------------------ *)
(** ** encoder.ts *)

Module Encoder.
Import JS.

Definition nonEmpty (s : string) : bool :=
  match s with
  | EmptyString => false
  | String _ _ => true
  end.

Definition isMdns (ip : string) : bool := endsWith ip ".local".

Definition isIPv6 (ip : string) : bool := includes ip ":".

Definition getCandidateSize (candidate : QWBPCandidate) : nat :=
  if isMdns (ip candidate) then 19
  else if isIPv6 (ip candidate) then 19
  else 7.

Definition invalidIPv4 (ip : string) : Error :=
  QWBPEncodeError ("Invalid IPv4 address: " +++ ip).

Definition parseOctet (ip part : string) : result Z :=
  match parseInt part 10 with
  | None => Throw (invalidIPv4 ip)
  | Some value =>
      if (value <? 0) || (255 <? value) then Throw (invalidIPv4 ip) else Ok value
  end.

Definition parseIPv4 (ip : string) : result Uint8Array :=
  let parts := split ip "." in
  if negb (List.length parts =? 4)%nat then Throw (invalidIPv4 ip)
  else mapM (parseOctet ip) parts.

(** [ip.replace(/^\[|\]$/g, '')]: one leading '[' and one trailing ']'. *)
Definition stripBrackets (s : string) : string :=
  let s1 := if startsWith s "[" then drop 1 s else s in
  if endsWith s1 "]" then substring 0 (String.length s1 - 1) s1 else s1.

Definition isDigits1to3 (s : string) : bool :=
  allChars isDigit s && (1 <=? String.length s)%nat && (String.length s <=? 3)%nat.

(** [/^::ffff:(\d{1,3})\.(\d{1,3})\.(\d{1,3})\.(\d{1,3})$/i]: the four
    captured groups. *)
Definition matchIPv4Mapped (s : string) : option (list string) :=
  if String.eqb (mapString toLower (substring 0 7 s)) "::ffff:" then
    let groups := split (drop 7 s) "." in
    if (List.length groups =? 4)%nat && forallb isDigits1to3 groups
    then Some groups else None
  else None.

Definition isHexOrColon (c : ascii) : bool :=
  match digitValue c with
  | Some d => d <? 16
  | None => Ascii.eqb c ":"
  end.

(** The number of matches of [/::/g]. *)
Fixpoint countDoubleColon (s : string) : nat :=
  match s with
  | String c (String d r as s') =>
      if Ascii.eqb c ":" && Ascii.eqb d ":" then S (countDoubleColon r)
      else countDoubleColon s'
  | _ => O
  end.

Definition isValidIPv6Format (ip : string) : bool :=
  let cleaned := stripBrackets ip in
  match matchIPv4Mapped cleaned with
  | Some _ => true
  | None =>
      if negb (nonEmpty cleaned && allChars isHexOrColon cleaned) then false
      else if (1 <? countDoubleColon cleaned)%nat then false
      else if (startsWith cleaned ":" && negb (startsWith cleaned "::"))
              || (endsWith cleaned ":" && negb (endsWith cleaned "::"))
      then false
      else true
  end.

Definition invalidIPv6 (ip : string) : Error :=
  QWBPEncodeError ("Invalid IPv6 address: " +++ ip).

Definition parseMappedOctet (ip group : string) : result Z :=
  match parseInt group 10 with
  | Some octet =>
      if 255 <? octet
      then Throw (QWBPEncodeError ("Invalid IPv4-mapped IPv6 address: " +++ ip))
      else Ok (toUint8 (Some octet))
  | None => Ok (toUint8 None)
  end.

(** One pass of the conversion loop: [allParts[i] || '0'] as two bytes. *)
Definition parseGroup (ip : string) (allParts : list string) (i : nat)
  : result (list Z) :=
  let hexPart :=
    match nth_error allParts i with
    | Some p => if nonEmpty p then p else "0"
    | None => "0"
    end in
  if (4 <? String.length hexPart)%nat then Throw (invalidIPv6 ip)
  else match parseInt hexPart 16 with
       | None => Throw (invalidIPv6 ip)
       | Some value =>
           if 0xffff <? value then Throw (invalidIPv6 ip)
           else Ok [Z.land (Z.shiftr value 8) 0xff; Z.land value 0xff]
       end.

Definition colonParts (side : option string) : list string :=
  match side with
  | Some p => if nonEmpty p then filter nonEmpty (split p ":") else []
  | None => []
  end.

Definition parseIPv6 (ip : string) : result Uint8Array :=
  let cleaned := stripBrackets ip in
  if negb (isValidIPv6Format cleaned) then Throw (invalidIPv6 ip)
  else
    match matchIPv4Mapped cleaned with
    | Some groups =>
        let* octets := mapM (parseMappedOctet ip) groups in
        Ok (repeat 0 10 ++ [0xff; 0xff] ++ octets)
    | None =>
        let parts := split cleaned "::" in
        if (2 <? List.length parts)%nat then Throw (invalidIPv6 ip)
        else
          let leftParts := colonParts (nth_error parts 0) in
          let rightParts :=
            if (1 <? List.length parts)%nat then colonParts (nth_error parts 1)
            else [] in
          let totalParts := (List.length leftParts + List.length rightParts)%nat in
          if (8 <? totalParts)%nat
             || ((List.length parts =? 1)%nat && negb (totalParts =? 8)%nat)
          then Throw (invalidIPv6 ip)
          else
            let zeroGroups := (8 - totalParts)%nat in
            let allParts := leftParts ++ repeat "0" zeroGroups ++ rightParts in
            let* pairs := mapM (parseGroup ip allParts) (seq 0 8) in
            Ok (List.concat pairs)
    end.

Definition parseMdnsUUID (hostname : string) : result Uint8Array :=
  let uuid := removeAll "-" (replaceFirst hostname ".local" "") in
  if negb (String.length uuid =? 32)%nat
  then Throw (QWBPEncodeError ("Invalid mDNS UUID: " +++ hostname))
  else Ok (map (fun i => toUint8 (parseInt (substring (2 * i) 2 uuid) 16))
               (seq 0 16)).

(** The address family and the address bytes of a candidate. *)
Definition encodeAddress (candidate : QWBPCandidate) : result (Z * Uint8Array) :=
  let isMdnsAddr := isMdns (ip candidate) in
  let isIPv6Addr := negb isMdnsAddr && isIPv6 (ip candidate) in
  if isMdnsAddr then
    let* addressBytes := parseMdnsUUID (ip candidate) in Ok (2, addressBytes)
  else if isIPv6Addr then
    let* addressBytes := parseIPv6 (ip candidate) in Ok (1, addressBytes)
  else
    let* addressBytes := parseIPv4 (ip candidate) in Ok (0, addressBytes).

Definition protocolBit (p : Protocol) : Z :=
  match p with tcp => 1 | udp => 0 end.

Definition typeBit (t : CandidateType) : Z :=
  match t with srflx => 1 | host => 0 end.

Definition tcpTypeBits (p : Protocol) (t : option TcpType) : Z :=
  match p, t with
  | tcp, Some active => 1
  | tcp, Some so => 2
  | _, _ => 0
  end.

Definition encodeCandidate (candidate : QWBPCandidate) : result Uint8Array :=
  let* (addressFamily, addressBytes) := encodeAddress candidate in
  let flags :=
    Z.lor (Z.lor (Z.lor addressFamily
                        (Z.shiftl (protocolBit (protocol candidate)) 2))
                 (Z.shiftl (typeBit (type candidate)) 3))
          (Z.shiftl (tcpTypeBits (protocol candidate) (tcpType candidate)) 4) in
  let result := zeros (1 + List.length addressBytes + 2) in
  let result := put result 0 flags in
  let* result := set result addressBytes 1 in
  let result := put result (List.length result - 2)
                    (Z.land (Z.shiftr (port candidate) 8) 0xff) in
  let result := put result (List.length result - 1)
                    (Z.land (port candidate) 0xff) in
  Ok result.

(** The second loop of [encode]. *)
Fixpoint writeCandidates (candidates : list QWBPCandidate)
  (packet : Uint8Array) (offset : nat) : result Uint8Array :=
  match candidates with
  | [] => Ok packet
  | candidate :: rest =>
      let* encoded := encodeCandidate candidate in
      let* packet := set packet encoded offset in
      writeCandidates rest packet (offset + List.length encoded)
  end.

Definition encode (fingerprint : Uint8Array) (candidates : list QWBPCandidate)
  : result Uint8Array :=
  if negb (List.length fingerprint =? FINGERPRINT_SIZE)%nat then
    Throw (QWBPEncodeError
             ("Invalid fingerprint length: expected 32, got "
              +++ toString (Z.of_nat (List.length fingerprint)) 10))
  else
    let candidatesSize :=
      fold_left (fun acc c => (acc + getCandidateSize c)%nat) candidates O in
    let totalSize := (HEADER_SIZE + FINGERPRINT_SIZE + candidatesSize)%nat in
    let packet := zeros totalSize in
    let packet := put packet 0 MAGIC_BYTE in
    let packet := put packet 1 PROTOCOL_VERSION in
    let* packet := set packet fingerprint 2 in
    writeCandidates candidates packet (2 + FINGERPRINT_SIZE).

(** A non-empty run of a class followed by white space, as in [\d+\s+]:
    the run and what follows the white space.  White space is in none of
    the classes used, so the greedy reading is the only one. *)
Definition token (p : ascii -> bool) (s : string) : option (string * string) :=
  let (run, rest) := span p s in
  match run with
  | EmptyString => None
  | String _ _ =>
      let (space, rest') := span isWhiteSpace rest in
      match space with
      | EmptyString => None
      | String _ _ => Some (run, rest')
      end
  end.

(** The pattern of a candidate line tried at the start of [s]: the groups
    protocol, ip, port and type. *)
Definition matchCandidateAt (s : string)
  : option (string * string * string * string) :=
  if prefix "a=candidate:" s then
    match token isNonSpace (drop 12 s) with
    | None => None
    | Some (_, s1) =>
    match token isDigit s1 with
    | None => None
    | Some (_, s2) =>
    match token isWordChar s2 with
    | None => None
    | Some (protocol, s3) =>
    match token isDigit s3 with
    | None => None
    | Some (_, s4) =>
    match token isNonSpace s4 with
    | None => None
    | Some (ip, s5) =>
    match token isDigit s5 with
    | None => None
    | Some (portStr, s6) =>
        if prefix "typ" s6 then
          let (space, s7) := span isWhiteSpace (drop 3 s6) in
          match space with
          | EmptyString => None
          | String _ _ =>
              match fst (span isWordChar s7) with
              | EmptyString => None
              | String c r => Some (protocol, ip, portStr, String c r)
              end
          end
        else None
    end end end end end end
  else None.

Fixpoint matchCandidate (line : string)
  : option (string * string * string * string) :=
  match matchCandidateAt line with
  | Some groups => Some groups
  | None =>
      match line with
      | EmptyString => None
      | String _ line' => matchCandidate line'
      end
  end.

(** [/tcptype\s+(\w+)/] tried at the start of [s]. *)
Definition matchTcpTypeAt (s : string) : option string :=
  if prefix "tcptype" s then
    let (space, rest) := span isWhiteSpace (drop 7 s) in
    match space with
    | EmptyString => None
    | String _ _ =>
        match fst (span isWordChar rest) with
        | EmptyString => None
        | String c r => Some (String c r)
        end
    end
  else None.

Fixpoint matchTcpType (line : string) : option string :=
  match matchTcpTypeAt line with
  | Some group => Some group
  | None =>
      match line with
      | EmptyString => None
      | String _ line' => matchTcpType line'
      end
  end.

Definition parseCandidateLine (line : string) : option QWBPCandidate :=
  match matchCandidate line with
  | None => None
  | Some (protocol, ip, portStr, type) =>
      let protocolLower := mapString toLower protocol in
      let typeLower := mapString toLower type in
      if negb (String.eqb protocolLower "udp") && negb (String.eqb protocolLower "tcp")
      then None
      else if negb (String.eqb typeLower "host") && negb (String.eqb typeLower "srflx")
      then None
      else
        match parseInt portStr 10 with
        | None => None
        | Some port =>
            if (port <? 1) || (65535 <? port) then None
            else
              let type := if String.eqb typeLower "host" then host else srflx in
              if String.eqb protocolLower "tcp" then
                let tcpType :=
                  match matchTcpType line with
                  | None => None
                  | Some group =>
                      let tcpType := mapString toLower group in
                      if String.eqb tcpType "active" then Some active
                      else if String.eqb tcpType "passive" then Some passive
                      else if String.eqb tcpType "so" then Some so
                      else None
                  end in
                Some (mkCandidate ip port type tcp tcpType)
              else Some (mkCandidate ip port type udp None)
        end
  end.

(** [arr.slice(0, end)] for an integer [end]: a negative end counts from
    the length. *)
Definition sliceTo {A} (arr : list A) (e : Z) : list A :=
  if e <? 0 then firstn (Z.to_nat (Z.max (Z.of_nat (List.length arr) + e) 0)) arr
  else firstn (Z.to_nat e) arr.

Definition isIPv4Candidate (c : QWBPCandidate) : bool :=
  negb (includes (ip c) ":") && negb (endsWith (ip c) ".local").

(** [arr.sort(sortByAddressType)]: the comparator puts the IPv4 addresses
    before the others and ties everything else, and the sort is stable. *)
Definition sortByAddressType (arr : list QWBPCandidate) : list QWBPCandidate :=
  filter isIPv4Candidate arr ++ filter (fun c => negb (isIPv4Candidate c)) arr.

Definition isHost (c : QWBPCandidate) : bool :=
  match type c with host => true | srflx => false end.

Definition isSrflx (c : QWBPCandidate) : bool :=
  match type c with srflx => true | host => false end.

(** The candidates of the lines of [sdp] that start with [a=candidate:]
    and can be parsed. *)
Definition allCandidatesOf (sdp : string) : list QWBPCandidate :=
  flat_map
    (fun line =>
       if startsWith line "a=candidate:" then
         match parseCandidateLine line with
         | Some candidate => [candidate]
         | None => []
         end
       else [])
    (split sdp (String (ascii_of_nat 10) EmptyString)).

Definition extractCandidatesFromSDP (sdp : string) (maxCandidates : Z)
  : list QWBPCandidate :=
  let allCandidates := allCandidatesOf sdp in
  let hostCandidates := sortByAddressType (filter isHost allCandidates) in
  let srflxCandidates := sortByAddressType (filter isSrflx allCandidates) in
  match srflxCandidates with
  | first :: _ =>
      let hostSlots := maxCandidates - 1 in
      sliceTo hostCandidates hostSlots ++ [first]
  | [] => sliceTo hostCandidates maxCandidates
  end.

End Encoder.

Definition TEST_FINGERPRINT : JS.Uint8Array :=
  [0xe7; 0x3b; 0x38; 0x46; 0x1a; 0x5d; 0x88; 0xb0;
   0xc4; 0x2e; 0x9f; 0x7a; 0x1d; 0x6c; 0x3e; 0x8b;
   0x5f; 0x4a; 0x9d; 0x2c; 0x7e; 0x1b; 0x6f; 0x3a;
   0x8d; 0x5c; 0x2e; 0x9b; 0x4f; 0x7a; 0x1c; 0x3d].

(* ------------------------------------------------------------------ *)
(** ** decoder.ts *)

Module Decoder.
Import JS.

Definition formatIPv4 (bytes : Uint8Array) : string :=
  join "." (map (fun b => toString b 10) bytes).

(** The leading repetitions of [:0]: their number and what follows them. *)
Fixpoint colonZeroReps (s : string) : nat * string :=
  match s with
  | String c (String d r) =>
      if Ascii.eqb c ":" && Ascii.eqb d "0"
      then let (k, rest) := colonZeroReps r in (S k, rest)
      else (O, s)
  | _ => (O, s)
  end.

(** [0(?::0)+(?::|$)] at the head of [s]: the length of the match. The
    repetition is greedy; when the character after it is neither a colon
    nor the end, one repetition is given back and its colon closes the
    match. *)
Definition matchZeros (s : string) : option nat :=
  match s with
  | String c r =>
      if Ascii.eqb c "0" then
        let (k, rest) := colonZeroReps r in
        match k with
        | O => None
        | S k' =>
            match rest with
            | EmptyString => Some (1 + 2 * k)%nat
            | String e _ =>
                if Ascii.eqb e ":" then Some (1 + 2 * k + 1)%nat
                else match k' with
                     | O => None
                     | S _ => Some (1 + 2 * k' + 1)%nat
                     end
            end
        end
      else None
  | EmptyString => None
  end.

(** [(?:^|:)(0(?::0)+)(?::|$)] at the head of [s]; [atStart] tells whether
    [s] is the whole input. *)
Definition matchZeroRun (atStart : bool) (s : string) : option nat :=
  match (if atStart then matchZeros s else None) with
  | Some n => Some n
  | None =>
      match s with
      | String c r => if Ascii.eqb c ":" then option_map S (matchZeros r) else None
      | EmptyString => None
      end
  end.

(** [s.match(/(?:^|:)(0(?::0)+)(?::|$)/g)]: the matched substrings from
    left to right, the search resuming where the last match ended. *)
Fixpoint zeroRunsGo (skip : nat) (atStart : bool) (s : string) : list string :=
  match s with
  | EmptyString => []
  | String _ s' =>
      match skip with
      | S k => zeroRunsGo k false s'
      | O =>
          match matchZeroRun atStart s with
          | Some (S n) => substring 0 (S n) s :: zeroRunsGo n false s'
          | _ => zeroRunsGo O false s'
          end
      end
  end.

Definition zeroRuns (s : string) : list string := zeroRunsGo O true s.

(** [zeroRuns.reduce((a, b) => (a.length > b.length ? a : b))]. *)
Definition longestRun (first : string) (rest : list string) : string :=
  fold_left
    (fun a b => if (String.length b <? String.length a)%nat then a else b)
    rest first.

Definition formatGroup (bytes : Uint8Array) (i : nat) : result string :=
  let* hi := get bytes (2 * i) in
  let* lo := get bytes (2 * i + 1) in
  Ok (toString (Z.lor (Z.shiftl hi 8) lo) 16).

Definition formatIPv6 (bytes : Uint8Array) : result string :=
  let* parts := mapM (formatGroup bytes) (seq 0 8) in
  let result := join ":" parts in
  match zeroRuns result with
  | [] => Ok result
  | first :: rest => Ok (replaceFirst result (longestRun first rest) "::")
  end.

Definition formatMdns (bytes : Uint8Array) : string :=
  let hex := join "" (map (fun b => padStart0 2 (toString b 16)) bytes) in
  substring 0 8 hex +++ "-" +++ substring 8 4 hex +++ "-"
  +++ substring 12 4 hex +++ "-" +++ substring 16 4 hex +++ "-"
  +++ substring 20 12 hex +++ ".local".

Definition decodeTcpType (bits : Z) : TcpType :=
  match bits with
  | 1 => active
  | 2 => so
  | _ => passive
  end.

(** The [switch] on the address family: address length and text. *)
Definition decodeAddress (data : Uint8Array) (offset : nat) (addressFamily : Z)
  : result (nat * string) :=
  match addressFamily with
  | 0 =>
      if (List.length data <? offset + 1 + 4 + 2)%nat
      then Throw (QWBPDecodeError "Packet truncated: incomplete IPv4 candidate")
      else Ok (4%nat, formatIPv4 (slice data (offset + 1) (offset + 1 + 4)))
  | 1 =>
      if (List.length data <? offset + 1 + 16 + 2)%nat
      then Throw (QWBPDecodeError "Packet truncated: incomplete IPv6 candidate")
      else
        let* ip := formatIPv6 (slice data (offset + 1) (offset + 1 + 16)) in
        Ok (16%nat, ip)
  | 2 =>
      if (List.length data <? offset + 1 + 16 + 2)%nat
      then Throw (QWBPDecodeError "Packet truncated: incomplete mDNS candidate")
      else Ok (16%nat, formatMdns (slice data (offset + 1) (offset + 1 + 16)))
  | _ =>
      Throw (QWBPDecodeError
               ("Unknown address family: " +++ toString addressFamily 10))
  end.

Definition decodeCandidate (data : Uint8Array) (offset : nat)
  : result (QWBPCandidate * nat) :=
  if (List.length data <=? offset)%nat then
    Throw (QWBPDecodeError "Unexpected end of packet while reading candidate")
  else
    let* flags := get data offset in
    let addressFamily := Z.land flags 3 in
    let protocol := Z.land (Z.shiftr flags 2) 1 in
    let type := Z.land (Z.shiftr flags 3) 1 in
    let tcpType := Z.land (Z.shiftr flags 4) 3 in
    let* (addressLength, ip) := decodeAddress data offset addressFamily in
    let portOffset := (offset + 1 + addressLength)%nat in
    let* hi := get data portOffset in
    let* lo := get data (portOffset + 1) in
    let port := Z.lor (Z.shiftl hi 8) lo in
    let candidate :=
      mkCandidate ip port
        (if type =? 1 then srflx else host)
        (if protocol =? 1 then tcp else udp)
        (if protocol =? 1 then Some (decodeTcpType tcpType) else None) in
    Ok (candidate, (1 + addressLength + 2)%nat).

(** The [while (offset < data.length)] loop, with a budget of iterations. *)
Fixpoint decodeLoop (fuel : nat) (data : Uint8Array) (offset : nat)
  (candidates : list QWBPCandidate) : result (list QWBPCandidate) :=
  if (offset <? List.length data)%nat then
    match fuel with
    | O => Throw OutOfFuel
    | S fuel' =>
        let* (candidate, bytesRead) := decodeCandidate data offset in
        decodeLoop fuel' data (offset + bytesRead) (candidates ++ [candidate])
    end
  else Ok candidates.

Definition decodeWith (fuel : nat) (data : Uint8Array) : result QWBPPacket :=
  if (List.length data <? MIN_PACKET_SIZE)%nat then
    Throw (QWBPDecodeError
             ("Packet too short: expected at least 41 bytes, got "
              +++ toString (Z.of_nat (List.length data)) 10))
  else
    let* magic := get data 0 in
    if negb (magic =? MAGIC_BYTE) then
      Throw (QWBPDecodeError
               ("Invalid magic byte: expected 0x51, got 0x" +++ toString magic 16))
    else
      let* byte1 := get data 1 in
      let version := Z.land byte1 7 in
      if negb (version =? 0) then
        Throw (QWBPDecodeError
                 ("Unsupported protocol version: " +++ toString version 10))
      else
        let fingerprint := slice data HEADER_SIZE (HEADER_SIZE + FINGERPRINT_SIZE) in
        let* candidates :=
          decodeLoop fuel data (HEADER_SIZE + FINGERPRINT_SIZE) [] in
        Ok (mkPacket version fingerprint candidates).

(** Each pass of the loop consumes at least one byte, so a budget of
    [data.length] passes is never exhausted. *)
Definition decode (data : Uint8Array) : result QWBPPacket :=
  decodeWith (List.length data) data.

Definition isValidPacket (data : Uint8Array) : bool :=
  if (List.length data <? MIN_PACKET_SIZE)%nat then false
  else if negb (nth 0 data 0 =? MAGIC_BYTE) then false
  else if negb (Z.land (nth 1 data 0) 7 =? 0) then false
  else true.

End Decoder.

(* ------------------------------------------------------------------ *)
(** ** crypto.ts *)

(** The two operations of [crypto.subtle] that the sources call. *)
Class SubtleCrypto := {
  (* [digest('SHA-256', data)] *)
  digestSHA256 : JS.Uint8Array -> JS.Uint8Array;
  (* [deriveBits({name: 'HKDF', hash: 'SHA-256', salt, info}, ikm, 8 * length)] *)
  deriveBitsHKDF : JS.Uint8Array -> JS.Uint8Array -> JS.Uint8Array -> nat
                   -> JS.Uint8Array
}.

Definition isByte (b : Z) : Prop := 0 <= b < 256.

(** What the Web Crypto API promises about the sizes of its outputs. *)
Record SubtleCryptoSpec (SC : SubtleCrypto) : Prop := {
  digest_length : forall data, List.length (digestSHA256 data) = 32%nat;
  digest_bytes : forall data, Forall isByte (digestSHA256 data);
  derive_length : forall ikm salt info n,
      List.length (deriveBitsHKDF ikm salt info n) = n;
  derive_bytes : forall ikm salt info n,
      Forall isByte (deriveBitsHKDF ikm salt info n)
}.

Module Crypto.
Import JS.

Section WithSubtle.
Context {SC : SubtleCrypto}.

Definition hkdfDerive (ikm salt info : Uint8Array) (length : nat) : Uint8Array :=
  deriveBitsHKDF ikm salt info length.

End WithSubtle.

(** [new TextEncoder().encode(s)]: UTF-8 of the code units below U+0100. *)
Definition textEncode (s : string) : Uint8Array :=
  flat_map
    (fun c =>
       let n := Z.of_nat (nat_of_ascii c) in
       if n <? 128 then [n]
       else [Z.lor 0xC0 (Z.shiftr n 6); Z.lor 0x80 (Z.land n 0x3f)])
    (list_ascii_of_string s).

Definition base64Alphabet : string :=
  "ABCDEFGHIJKLMNOPQRSTUVWXYZabcdefghijklmnopqrstuvwxyz0123456789+/".

Definition base64Char (i : Z) : ascii :=
  match String.get (Z.to_nat i) base64Alphabet with
  | Some c => c
  | None => "="%char
  end.

(** [btoa(String.fromCharCode(...bytes))]. *)
Fixpoint btoa (bytes : Uint8Array) : string :=
  match bytes with
  | [] => EmptyString
  | [a] =>
      String (base64Char (Z.shiftr a 2))
        (String (base64Char (Z.shiftl (Z.land a 3) 4)) "==")
  | [a; b] =>
      String (base64Char (Z.shiftr a 2))
        (String (base64Char (Z.lor (Z.shiftl (Z.land a 3) 4) (Z.shiftr b 4)))
           (String (base64Char (Z.shiftl (Z.land b 15) 2)) "="))
  | a :: b :: c :: rest =>
      String (base64Char (Z.shiftr a 2))
        (String (base64Char (Z.lor (Z.shiftl (Z.land a 3) 4) (Z.shiftr b 4)))
           (String (base64Char (Z.lor (Z.shiftl (Z.land b 15) 2) (Z.shiftr c 6)))
              (String (base64Char (Z.land c 63)) (btoa rest))))
  end.

(** [s.replace(/c/g, d)] for a one-character pattern and replacement. *)
Definition replaceAll (c d : ascii) (s : string) : string :=
  mapString (fun x => if Ascii.eqb x c then d else x) s.

Definition base64urlEncode (bytes : Uint8Array) : string :=
  let base64 := btoa bytes in
  removeAll "=" (replaceAll "/" "_" (replaceAll "+" "-" base64)).

(** The position of a character in the base64 alphabet. *)
Definition base64Index (c : ascii) : option Z :=
  let n := nat_of_ascii c in
  if (65 <=? n)%nat && (n <=? 90)%nat then Some (Z.of_nat (n - 65))
  else if (97 <=? n)%nat && (n <=? 122)%nat then Some (Z.of_nat (n - 71))
  else if (48 <=? n)%nat && (n <=? 57)%nat then Some (Z.of_nat (n + 4))
  else if (n =? 43)%nat then Some 62
  else if (n =? 47)%nat then Some 63
  else None.

(** Tab, line feed, form feed, carriage return and space. *)
Definition isAsciiWhitespace (c : ascii) : bool :=
  let n := nat_of_ascii c in
  (n =? 9)%nat || (n =? 10)%nat || (n =? 12)%nat || (n =? 13)%nat || (n =? 32)%nat.

Fixpoint removeWhere (p : ascii -> bool) (s : string) : string :=
  match s with
  | EmptyString => EmptyString
  | String c s' => if p c then removeWhere p s' else String c (removeWhere p s')
  end.

(** One or two [=] at the end of a text whose length is a multiple of 4
    are dropped. *)
Definition stripPadding (s : string) : string :=
  let n := String.length s in
  if (n mod 4 =? 0)%nat then
    if endsWith s "==" then substring 0 (n - 2) s
    else if endsWith s "=" then substring 0 (n - 1) s
    else s
  else s.

Fixpoint sextetsOf (s : string) : option (list Z) :=
  match s with
  | EmptyString => Some []
  | String c s' =>
      match base64Index c, sextetsOf s' with
      | Some i, Some l => Some (i :: l)
      | _, _ => None
      end
  end.

(** Four sextets give three bytes; of a last group of two or three, the
    bits beyond whole bytes are dropped. *)
Fixpoint decodeSextets (l : list Z) : list Z :=
  match l with
  | a :: b :: c :: d :: rest =>
      Z.lor (Z.shiftl a 2) (Z.shiftr b 4)
      :: Z.lor (Z.shiftl (Z.land b 15) 4) (Z.shiftr c 2)
      :: Z.lor (Z.shiftl (Z.land c 3) 6) d
      :: decodeSextets rest
  | [a; b; c] =>
      [Z.lor (Z.shiftl a 2) (Z.shiftr b 4);
       Z.lor (Z.shiftl (Z.land b 15) 4) (Z.shiftr c 2)]
  | [a; b] => [Z.lor (Z.shiftl a 2) (Z.shiftr b 4)]
  | _ => []
  end.

(** [atob(data)]: the forgiving base64 decoder of the platform. *)
Definition atob (data : string) : result string :=
  let data := stripPadding (removeWhere isAsciiWhitespace data) in
  if (String.length data mod 4 =? 1)%nat
  then Throw (PlainError "InvalidCharacterError")
  else
    match sextetsOf data with
    | None => Throw (PlainError "InvalidCharacterError")
    | Some l =>
        Ok (string_of_list_ascii
              (map (fun b => ascii_of_nat (Z.to_nat b)) (decodeSextets l)))
    end.

(** [while (base64.length % 4 !== 0) base64 += '=']. *)
Definition padToFour (base64 : string) : string :=
  match (String.length base64 mod 4)%nat with
  | 1%nat => base64 +++ "==="
  | 2%nat => base64 +++ "=="
  | 3%nat => base64 +++ "="
  | _ => base64
  end.

Definition base64urlDecode (str : string) : result Uint8Array :=
  let base64 := replaceAll "_" "/" (replaceAll "-" "+" str) in
  let base64 := padToFour base64 in
  let* binary := atob base64 in
  Ok (map (fun c => Z.of_nat (nat_of_ascii c)) (list_ascii_of_string binary)).

Section WithSubtle.
Context {SC : SubtleCrypto}.

Definition deriveCredentials (fingerprint : Uint8Array) : result IceCredentials :=
  if negb (List.length fingerprint =? 32)%nat then
    Throw (PlainError
             ("Invalid fingerprint length: expected 32, got "
              +++ toString (Z.of_nat (List.length fingerprint)) 10))
  else
    let salt := zeros 0 in
    let ufragInfo := textEncode HKDF_INFO_UFRAG in
    let ufragBytes := hkdfDerive fingerprint salt ufragInfo HKDF_UFRAG_LENGTH in
    let pwdInfo := textEncode HKDF_INFO_PWD in
    let pwdBytes := hkdfDerive fingerprint salt pwdInfo HKDF_PWD_LENGTH in
    Ok (mkCredentials (base64urlEncode ufragBytes) (base64urlEncode pwdBytes)).

End WithSubtle.

(** [[A-Fa-f0-9:]]. *)
Definition isFingerprintChar (c : ascii) : bool :=
  let n := nat_of_ascii c in
  ((48 <=? n)%nat && (n <=? 58)%nat)
  || ((65 <=? n)%nat && (n <=? 70)%nat)
  || ((97 <=? n)%nat && (n <=? 102)%nat).

(** [/a=fingerprint:sha-256\s+([A-Fa-f0-9:]+)/i] tried at the start of
    [s]: the text of the group. *)
Definition matchFingerprintAt (s : string) : option string :=
  if startsWithCI s "a=fingerprint:sha-256" then
    let (space, rest) := span isWhiteSpace (drop 21 s) in
    match space with
    | EmptyString => None
    | String _ _ =>
        match fst (span isFingerprintChar rest) with
        | EmptyString => None
        | String c r => Some (String c r)
        end
    end
  else None.

(** The first position of [sdp] at which the pattern matches. *)
Fixpoint matchFingerprint (sdp : string) : option string :=
  match matchFingerprintAt sdp with
  | Some group => Some group
  | None =>
      match sdp with
      | EmptyString => None
      | String _ sdp' => matchFingerprint sdp'
      end
  end.

Definition extractFingerprintFromSDP (sdp : string) : result Uint8Array :=
  match matchFingerprint sdp with
  | None => Throw (PlainError "No SHA-256 fingerprint found in SDP")
  | Some group =>
      let hexString := removeAll ":" group in
      if negb (String.length hexString =? 64)%nat then
        Throw (PlainError
                 ("Invalid fingerprint length: expected 64 hex chars, got "
                  +++ toString (Z.of_nat (String.length hexString)) 10))
      else
        Ok (map (fun i => toUint8 (parseInt (substring (2 * i) 2 hexString) 16))
                (seq 0 32))
  end.

Definition formatFingerprint (fingerprint : Uint8Array) : string :=
  join ":" (map (fun b => padStart0 2 (mapString toUpper (toString b 16)))
                fingerprint).

(** [x > y] on array elements; a comparison with [undefined] is false. *)
Definition gtElem (x y : option Z) : bool :=
  match x, y with
  | Some a, Some b => b <? a
  | _, _ => false
  end.

(** The passes [i, i + n) of the loop of [compareFingerprints]. *)
Fixpoint compareFrom (a b : Uint8Array) (i n : nat) : Z :=
  match n with
  | O => 0
  | S n' =>
      if gtElem (nth_error a i) (nth_error b i) then 1
      else if gtElem (nth_error b i) (nth_error a i) then -1
      else compareFrom a b (S i) n'
  end.

Definition compareFingerprints (a b : Uint8Array) : Z := compareFrom a b 0 32.

Section WithSubtle.
Context {SC : SubtleCrypto}.

Definition generateSessionId (fingerprint : Uint8Array) : result string :=
  let hashBytes := digestSHA256 fingerprint in
  let* id :=
    fold_left
      (fun acc i =>
         let* id := acc in
         let* b := get hashBytes i in
         Ok (Z.lor (Z.shiftl id 8) b))
      (seq 0 8) (Ok 0) in
  Ok (toString id 10).

Definition generateSAS (localFingerprint remoteFingerprint : Uint8Array)
  : result string :=
  let comparison := compareFingerprints localFingerprint remoteFingerprint in
  let combined := zeros 64 in
  let* combined :=
    if 0 <=? comparison then
      let* combined := set combined localFingerprint 0 in
      set combined remoteFingerprint 32
    else
      let* combined := set combined remoteFingerprint 0 in
      set combined localFingerprint 32 in
  let hashBytes := digestSHA256 combined in
  let* h0 := get hashBytes 0 in
  let* h1 := get hashBytes 1 in
  let value := Z.lor (Z.shiftl h0 8) h1 in
  let sasNumber := Z.rem value 10000 in
  Ok (padStart0 4 (toString sasNumber 10)).

End WithSubtle.

End Crypto.

(* ------------------------------------------------------------------ *)
(** ** sdp.ts *)

Definition LF : string := String (ascii_of_nat 10) EmptyString.
Definition CRLF : string := String (ascii_of_nat 13) LF.

Definition SDP_TEMPLATE : string :=
  JS.join LF
    ["v=0";
     "o=- {sessionId} 2 IN IP4 127.0.0.1";
     "s=-";
     "t=0 0";
     "a=group:BUNDLE 0";
     "m=application 9 UDP/DTLS/SCTP webrtc-datachannel";
     "c=IN IP4 0.0.0.0";
     "a=mid:0";
     "a=ice-ufrag:{ufrag}";
     "a=ice-pwd:{pwd}";
     "a=ice-options:trickle";
     "a=fingerprint:sha-256 {fingerprint}";
     "a=setup:{setup}";
     "a=sctp-port:5000";
     "{candidates}"].

Module Sdp.
Import JS.

Definition typeName (t : CandidateType) : string :=
  match t with host => "host" | srflx => "srflx" end.

Definition protocolName (p : Protocol) : string :=
  match p with udp => "udp" | tcp => "tcp" end.

Definition tcpTypeName (t : TcpType) : string :=
  match t with passive => "passive" | active => "active" | so => "so" end.

Section WithSubtle.
Context {SC : SubtleCrypto}.

Definition generateFoundation (type : CandidateType) (protocol : Protocol)
  (ip : string) (port : Z) : string :=
  let data := typeName type +++ protocolName protocol +++ ip +++ toString port 10 in
  let encoded := Crypto.textEncode data in
  let bytes := digestSHA256 encoded in
  join "" (map (fun b => padStart0 2 (toString b 16)) (slice bytes 0 4)).

Definition getCandidatePriority (type : CandidateType) (protocol : Protocol) : Z :=
  match type with
  | srflx => SRFLX
  | host => match protocol with udp => HOST_UDP | tcp => HOST_TCP end
  end.

Definition buildCandidateString (candidate : QWBPCandidate) : string :=
  let foundation :=
    generateFoundation (type candidate) (protocol candidate)
                       (ip candidate) (port candidate) in
  let priority := getCandidatePriority (type candidate) (protocol candidate) in
  let str :=
    "candidate:" +++ foundation +++ " 1 " +++ protocolName (protocol candidate)
    +++ " " +++ toString priority 10 +++ " " +++ ip candidate
    +++ " " +++ toString (port candidate) 10
    +++ " typ " +++ typeName (type candidate) in
  let str :=
    match type candidate with
    | srflx =>
        str +++ " raddr " +++ ip candidate
        +++ " rport " +++ toString (port candidate) 10
    | host => str
    end in
  let str :=
    match protocol candidate, tcpType candidate with
    | tcp, Some t => str +++ " tcptype " +++ tcpTypeName t
    | _, _ => str
    end in
  str.

End WithSubtle.

(** [sdp.replace(/\r?\n/g, '\r\n')]. *)
Fixpoint normalizeLineEndings (sdp : string) : string :=
  match sdp with
  | String c rest =>
      if Ascii.eqb c (ascii_of_nat 10) then CRLF +++ normalizeLineEndings rest
      else
        match rest with
        | String d rest' =>
            if Ascii.eqb c (ascii_of_nat 13) && Ascii.eqb d (ascii_of_nat 10)
            then CRLF +++ normalizeLineEndings rest'
            else String c (normalizeLineEndings rest)
        | EmptyString => String c EmptyString
        end
  | EmptyString => EmptyString
  end.

Section WithSubtle.
Context {SC : SubtleCrypto}.

Definition reconstructSDP (fingerprint : Uint8Array) (isOffer : bool)
  (credentials : option IceCredentials) : result string :=
  let* creds :=
    match credentials with
    | Some creds => Ok creds
    | None => Crypto.deriveCredentials fingerprint
    end in
  let* sessionId := Crypto.generateSessionId fingerprint in
  let fingerprintStr := Crypto.formatFingerprint fingerprint in
  let setup := if isOffer then "actpass" else "active" in
  let sdp := replaceString SDP_TEMPLATE "{sessionId}" sessionId in
  let sdp := replaceString sdp "{ufrag}" (ufrag creds) in
  let sdp := replaceString sdp "{pwd}" (pwd creds) in
  let sdp := replaceString sdp "{fingerprint}" fingerprintStr in
  let sdp := replaceString sdp "{setup}" setup in
  let sdp := replaceString sdp "{candidates}" "" in
  Ok (normalizeLineEndings sdp).

End WithSubtle.

Definition validateSDP (sdp : string) : bool :=
  includesCI sdp "a=fingerprint:sha-256"
  && includes sdp "a=ice-ufrag:"
  && includes sdp "a=ice-pwd:"
  && includes sdp "m=application".

End Sdp.

(* ------------------------------------------------------------------ *)
(** ** connection.ts *)

(** The peer-connection side of [tryEstablishConnection]: whether the
    awaited calls on the [RTCPeerConnection] (data channel, rollback,
    descriptions, candidates, answer) all resolve for the given role. *)
Class Transport := {
  negotiate : Role -> PeerInfo -> bool
}.

(** The platform side of [initialize] and the options of the constructor. *)
Class Platform := {
  (* [RTCPeerConnection.generateCertificate(...)] resolves *)
  generateCertificate : result unit;
  (* the SDP of [pc.createOffer()] *)
  createOffer : result string;
  (* [setLocalDescription] of the patched offer and [waitForIceGathering]:
     the SDP of [pc.localDescription] once gathering is over *)
  gatherCandidates : string -> result string;
  (* [options.maxCandidates], when the options have it *)
  optionMaxCandidates : option Z
}.

Module Connection.
Import JS.

Definition patchSdpCredentials (sdp ufrag pwd : string) : string :=
  replaceLines (replaceLines sdp "a=ice-ufrag:" ("a=ice-ufrag:" +++ ufrag))
               "a=ice-pwd:" ("a=ice-pwd:" +++ pwd).

Record QWBPConnection := mkConnection {
  pc : bool;  (* [this.pc !== null] *)
  state : ConnectionState;
  localFingerprint : option Uint8Array;
  localCredentials : option IceCredentials;
  localCandidates : list QWBPCandidate;
  remoteInfo : option PeerInfo;
  role : option Role;
  (* the errors handed to [onError], latest first *)
  reported : list Error
}.

Definition connectionState (c : QWBPConnection) : ConnectionState := state c.

Definition assignedRole (c : QWBPConnection) : option Role := role c.

Definition setState (c : QWBPConnection) (s : ConnectionState) : QWBPConnection :=
  mkConnection (pc c) s (localFingerprint c) (localCredentials c)
               (localCandidates c) (remoteInfo c) (role c) (reported c).

Definition setRemoteInfo (c : QWBPConnection) (info : PeerInfo) : QWBPConnection :=
  mkConnection (pc c) (state c) (localFingerprint c) (localCredentials c)
               (localCandidates c) (Some info) (role c) (reported c).

Definition setRole (c : QWBPConnection) (r : Role) : QWBPConnection :=
  mkConnection (pc c) (state c) (localFingerprint c) (localCredentials c)
               (localCandidates c) (remoteInfo c) (Some r) (reported c).

Definition handleError (c : QWBPConnection) (e : Error) : QWBPConnection :=
  let c := setState c Failed in
  mkConnection (pc c) (state c) (localFingerprint c) (localCredentials c)
               (localCandidates c) (remoteInfo c) (role c) (e :: reported c).

Definition inScanState (s : ConnectionState) : bool :=
  match s with
  | Displaying | ScannedOne => true
  | _ => false
  end.

(** The session of [new QWBPConnection(options)]. *)
Definition newConnection : QWBPConnection :=
  mkConnection false Idle None None [] None None [].

Section WithPlatform.
Context {SC : SubtleCrypto} {P : Platform}.

Definition maxCandidates : Z :=
  match optionMaxCandidates with
  | Some n => n
  | None => DEFAULT_MAX_CANDIDATES
  end.

Definition initialize (c : QWBPConnection) : QWBPConnection * result unit :=
  match state c with
  | Idle =>
      let c := setState c Gathering in
      match generateCertificate with
      | Throw e => (c, Throw e)
      | Ok _ =>
      let c := mkConnection true (state c) (localFingerprint c) (localCredentials c)
                            (localCandidates c) (remoteInfo c) (role c) (reported c) in
      match createOffer with
      | Throw e => (c, Throw e)
      | Ok offer =>
      match Crypto.extractFingerprintFromSDP offer with
      | Throw e => (c, Throw e)
      | Ok fp =>
      let c := mkConnection (pc c) (state c) (Some fp) (localCredentials c)
                            (localCandidates c) (remoteInfo c) (role c) (reported c) in
      match Crypto.deriveCredentials fp with
      | Throw e => (c, Throw e)
      | Ok credentials =>
      let c := mkConnection (pc c) (state c) (localFingerprint c) (Some credentials)
                            (localCandidates c) (remoteInfo c) (role c) (reported c) in
      let patchedOffer :=
        patchSdpCredentials offer (ufrag credentials) (pwd credentials) in
      match gatherCandidates patchedOffer with
      | Throw e => (c, Throw e)
      | Ok completeSdp =>
      let c := mkConnection (pc c) (state c) (localFingerprint c) (localCredentials c)
                            (Encoder.extractCandidatesFromSDP completeSdp maxCandidates)
                            (remoteInfo c) (role c) (reported c) in
      (setState c Displaying, Ok tt)
      end end end end end
  | _ => (c, Throw (QWBPConnectionError
                     ("Cannot initialize in state: " +++ stateName (state c))
                     (state c)))
  end.

End WithPlatform.

Definition getQRPayload (c : QWBPConnection) : result Uint8Array :=
  if negb (inScanState (state c)) then
    Throw (QWBPConnectionError
             ("Cannot get QR payload in state: " +++ stateName (state c))
             (state c))
  else
    match localFingerprint c with
    | None => Throw (QWBPConnectionError "Connection not initialized" (state c))
    | Some fp => Encoder.encode fp (localCandidates c)
    end.

(** [close()]: the peer connection and the local credentials are dropped;
    the fingerprint, the candidates and the peer stay. *)
Definition close (c : QWBPConnection) : QWBPConnection :=
  let c := mkConnection false (state c) (localFingerprint c) None
                        (localCandidates c) (remoteInfo c) (role c) (reported c) in
  setState c Closed.

Section WithEnvironment.
Context {SC : SubtleCrypto} {T : Transport}.

Definition getSAS (c : QWBPConnection) : result (option string) :=
  match localFingerprint c, remoteInfo c with
  | Some localFp, Some remote =>
      let* sas := Crypto.generateSAS localFp (peerFingerprint remote) in
      Ok (Some sas)
  | _, _ => Ok None
  end.

Definition tryEstablishConnection (c : QWBPConnection) : QWBPConnection :=
  match localFingerprint c, localCredentials c, remoteInfo c, pc c with
  | Some localFp, Some _, Some remote, true =>
      let comparison := Crypto.compareFingerprints localFp (peerFingerprint remote) in
      if comparison =? 0 then handleError c QWBPSelfConnectionError
      else
        let role := if 0 <? comparison then Offerer else Answerer in
        let c := setRole c role in
        let c := setState c Connecting in
        if negotiate role remote then c
        else handleError c (PlainError "transport failure")
  | _, _, _, _ => c
  end.

Definition processScannedPayload (c : QWBPConnection) (data : Uint8Array)
  : QWBPConnection * result unit :=
  if negb (inScanState (state c)) then
    (c, Throw (QWBPConnectionError
                ("Cannot process payload in state: " +++ stateName (state c))
                (state c)))
  else
    match remoteInfo c with
    | Some _ => (c, Throw (QWBPConnectionError "Peer already scanned" (state c)))
    | None =>
        if negb (Decoder.isValidPacket data) then
          (c, Throw (QWBPConnectionError "Invalid QWBP packet" (state c)))
        else
          match Decoder.decode data with
          | Throw e => (c, Throw e)
          | Ok packet =>
              match Crypto.deriveCredentials (fingerprint packet) with
              | Throw e => (c, Throw e)
              | Ok credentials =>
                  let c :=
                    setRemoteInfo c
                      (mkPeerInfo (fingerprint packet) (candidates packet)
                                  credentials) in
                  if match localFingerprint c with
                     | Some localFp =>
                         Crypto.compareFingerprints localFp (fingerprint packet) =? 0
                     | None => false
                     end
                  then (c, Throw QWBPSelfConnectionError)
                  else
                    let c :=
                      match state c with
                      | Displaying => setState c ScannedOne
                      | _ => c
                      end in
                    (tryEstablishConnection c, Ok tt)
              end
          end
    end.

End WithEnvironment.

End Connection.

(* ------------------------------------------------------------------ *)
(** * Reference definitions used by the statements *)

Import JS.

(** Lexicographic comparison of two lists, by structural recursion. *)
Fixpoint lexCompare (a b : list Z) : Z :=
  match a, b with
  | x :: a', y :: b' =>
      if y <? x then 1 else if x <? y then -1 else lexCompare a' b'
  | _, _ => 0
  end.

(** The four decimal digits of a number below 10000, leading zeros kept. *)
Definition fourDigits (n : Z) : string :=
  String (digitChar (n / 1000 mod 10))
    (String (digitChar (n / 100 mod 10))
       (String (digitChar (n / 10 mod 10))
          (String (digitChar (n mod 10)) EmptyString))).

(** The URL-safe base64 alphabet: letters, digits, '-' and '_'. *)
Definition urlSafe (c : ascii) : bool :=
  let n := nat_of_ascii c in
  ((65 <=? n)%nat && (n <=? 90)%nat) || ((97 <=? n)%nat && (n <=? 122)%nat)
  || ((48 <=? n)%nat && (n <=? 57)%nat) || (n =? 45)%nat || (n =? 95)%nat.

(** The integers 0..255. *)
Definition allBytes : list Z := map Z.of_nat (seq 0 256).

(** A base64 character after the two replacements of [base64urlEncode]. *)
Definition urlChar (i : Z) : ascii :=
  let c := Crypto.base64Char i in
  let c := if Ascii.eqb c "+" then "-"%char else c in
  if Ascii.eqb c "/" then "_"%char else c.

(** The character of a base64url digit: A-Z for 0..25, a-z for 26..51,
    0-9 for 52..61, then '-' and '_'. *)
Definition urlDigit (i : Z) : ascii :=
  ascii_of_nat
    (Z.to_nat (if i <? 26 then i + 65
               else if i <? 52 then i + 71
               else if i <? 62 then i - 4
               else if i =? 62 then 45 else 95)).

(** The codes of the characters of a text. *)
Definition asciiCodes (s : string) : list Z :=
  map (fun c => Z.of_nat (nat_of_ascii c)) (list_ascii_of_string s).

(** A base64 digit: an index into the 64-character alphabet. *)
Definition isSextet (i : Z) : bool := (0 <=? i) && (i <? 64).

(** The length of unpadded base64 for [n] bytes. *)
Definition base64urlLength (n : nat) : nat :=
  (4 * (n / 3) + match n mod 3 with 0 => 0 | 1 => 2 | _ => 3 end)%nat.

(** The length a candidate record declares through the address family in
    its flags byte: 7 bytes for IPv4, 19 for IPv6 and mDNS. *)
Definition declaredLength (flags : Z) : nat :=
  match Z.land flags 3 with
  | 0 => 7
  | 1 | 2 => 19
  | _ => 0
  end.

(** [recordFrom data o o']: reading complete records of a known family one
    after the other from offset [o] leads to offset [o']. *)
Inductive recordFrom (data : Uint8Array) : nat -> nat -> Prop :=
| rf_here o : recordFrom data o o
| rf_skip o o' :
    (o < List.length data)%nat ->
    Z.land (nth o data 0%Z) 3 <> 3 ->
    (o + declaredLength (nth o data 0%Z) <= List.length data)%nat ->
    recordFrom data (o + declaredLength (nth o data 0%Z)) o' ->
    recordFrom data o o'.

(** A record at [o] that the decoder cannot accept: its family is 0b11 or
    its declared length reads past the end of the input. *)
Definition badRecord (data : Uint8Array) (o : nat) : Prop :=
  (o < List.length data)%nat
  /\ (Z.land (nth o data 0%Z) 3 = 3
      \/ (List.length data < o + declaredLength (nth o data 0%Z))%nat).

Definition isOk {A} (r : result A) : bool :=
  match r with
  | Ok _ => true
  | Throw _ => false
  end.

(** An octet of a dotted address that [parseInt] reads as 0..255. *)
Definition validOctet (part : string) : bool :=
  match parseInt part 10 with
  | Some value => (0 <=? value) && (value <=? 255)
  | None => false
  end.

(** The text of an mDNS name once the first ".local" and the dashes are
    taken out; two characters of it make one byte. *)
Definition mdnsIdentifier (hostname : string) : string :=
  removeAll "-" (replaceFirst hostname ".local" "").

(** The groups of an IPv6 text: the non-empty colon-separated pieces on
    each side of "::". *)
Definition ipv6Groups (cleaned : string) : list string :=
  flat_map (fun side => filter (fun p => negb (String.eqb p "")) (split side ":"))
           (split cleaned "::").

(** Whether the parser of the family of an address returns bytes for it. *)
Definition addressAccepted (ip : string) : bool :=
  if Encoder.isMdns ip then isOk (Encoder.parseMdnsUUID ip)
  else if Encoder.isIPv6 ip then isOk (Encoder.parseIPv6 ip)
  else isOk (Encoder.parseIPv4 ip).

(** *** The address texts of each family, described by their shape *)











(** The flags byte of a record: the address family in bits 0-1, the
    protocol in bit 2, the type in bit 3 and the tcp subtype in bits 4-5. *)
Definition candidateFlags (family : Z) (c : QWBPCandidate) : Z :=
  Z.lor (Z.lor (Z.lor family (Z.shiftl (Encoder.protocolBit (protocol c)) 2))
               (Z.shiftl (Encoder.typeBit (type c)) 3))
        (Z.shiftl (Encoder.tcpTypeBits (protocol c) (tcpType c)) 4).

(** The address text is the one the decoder prints for the bytes the
    encoder reads from it. *)
Definition printedAs (ip : string) : bool :=
  if Encoder.isMdns ip then
    match Encoder.parseMdnsUUID ip with
    | Ok bytes => String.eqb (Decoder.formatMdns bytes) ip
    | Throw _ => false
    end
  else if Encoder.isIPv6 ip then
    match Encoder.parseIPv6 ip with
    | Ok bytes =>
        match Decoder.formatIPv6 bytes with
        | Ok text => String.eqb text ip
        | Throw _ => false
        end
    | Throw _ => false
    end
  else
    match Encoder.parseIPv4 ip with
    | Ok bytes => String.eqb (Decoder.formatIPv4 bytes) ip
    | Throw _ => false
    end.

(** A candidate as the decoder produces them: address in printed form,
    port in 1..65535, a tcp subtype exactly on tcp candidates. *)
Definition printedCandidate (c : QWBPCandidate) : Prop :=
  printedAs (ip c) = true
  /\ 1 <= port c <= 65535
  /\ (protocol c = tcp <-> tcpType c <> None).

(** A candidate that fits the wire format: as [printedCandidate], with
    every port that two bytes can hold. *)
Definition wireCandidate (c : QWBPCandidate) : Prop :=
  printedAs (ip c) = true
  /\ 0 <= port c <= 65535
  /\ (protocol c = tcp <-> tcpType c <> None).

(** A stand-in for [crypto.subtle] with outputs of the right sizes, to run
    the definitions on concrete inputs. *)
Definition toyByte (data : Uint8Array) (i : nat) : Z :=
  (fold_left Z.add data (Z.of_nat i)) mod 256.

#[local] Instance toyCrypto : SubtleCrypto := {
  digestSHA256 data := map (toyByte data) (seq 0 32);
  deriveBitsHKDF ikm salt info n := map (toyByte (ikm ++ salt ++ info)) (seq 0 n)
}.

(** A transport on which every negotiation goes through. *)
#[local] Instance readyTransport : Transport := {
  negotiate _ _ := true
}.

Definition TEST_PEER_FINGERPRINT : Uint8Array :=
  [0xa1; 0x2b; 0x3c; 0x4d; 0x5e; 0x6f; 0x70; 0x81;
   0x92; 0xa3; 0xb4; 0xc5; 0xd6; 0xe7; 0xf8; 0x09;
   0x1a; 0x2b; 0x3c; 0x4d; 0x5e; 0x6f; 0x70; 0x81;
   0x92; 0xa3; 0xb4; 0xc5; 0xd6; 0xe7; 0xf8; 0x09].

Definition TEST_PEER_CANDIDATES : list QWBPCandidate :=
  [mkCandidate "192.168.1.10" 12345 host udp None].

(** A session that has gathered and shows its payload. *)
Definition displayingSession (fp : Uint8Array) : Connection.QWBPConnection :=
  Connection.mkConnection true Displaying (Some fp)
    (Some (mkCredentials "ufrag0" "password0password0passwd")) [] None None [].

(** A session that has just recorded a peer and moved to ScannedOne. *)
Definition scannedSession : Connection.QWBPConnection :=
  Connection.mkConnection true ScannedOne (Some TEST_FINGERPRINT)
    (Some (mkCredentials "ufrag0" "password0password0passwd")) []
    (Some (mkPeerInfo TEST_PEER_FINGERPRINT TEST_PEER_CANDIDATES
             (mkCredentials "ufrag1" "password1password1passwd")))
    None [].

(** The payload a device with the test fingerprint would show: header,
    fingerprint, and the record of 192.168.1.10:12345 (host, udp). *)
Definition selfPayload : Uint8Array :=
  [0x51; 0x00] ++ TEST_FINGERPRINT ++ [0x00; 192; 168; 1; 10; 0x30; 0x39].

(** One candidate of each address family, in printed form. *)
Definition mixedCandidates : list QWBPCandidate :=
  [mkCandidate "192.168.1.5" 54321 host udp None;
   mkCandidate "2001:db8:85a3::8a2e:370:7334" 54322 srflx tcp (Some so);
   mkCandidate "a1b2c3d4-e5f6-7890-abcd-ef1234567890.local" 54323 host tcp
     (Some active)].

(** Character classes of the texts the decoder prints. *)
Definition isDigitOrDot (c : ascii) : bool := isDigit c || Ascii.eqb c ".".

Definition isLowerHex (c : ascii) : bool :=
  let n := nat_of_ascii c in
  isDigit c || ((97 <=? n)%nat && (n <=? 102)%nat).

Definition isLowerHexOrDash (c : ascii) : bool := isLowerHex c || Ascii.eqb c "-".

(** Two lowercase hex digits for a byte, as [formatMdns] writes them. *)
Definition hexPair (b : Z) : string := padStart0 2 (toString b 16).

Definition isHexColon (c : ascii) : bool := isLowerHex c || Ascii.eqb c ":".

(** A group as [formatIPv6] writes it: one to four lowercase hex digits,
    without a leading zero unless it is "0" itself. *)
Definition groupText (t : string) : bool :=
  allChars isLowerHex t && (String.length t <=? 4)%nat
  && match t with
     | String c r => if Ascii.eqb c "0" then negb (Encoder.nonEmpty r) else true
     | EmptyString => false
     end.

(** [j] repetitions of ":0". *)
Fixpoint colonZeros (j : nat) : string :=
  match j with
  | O => EmptyString
  | S j' => String ":" (String "0" (colonZeros j'))
  end.

(** The groups [ts], each behind a colon. *)
Fixpoint tailText (ts : list string) : string :=
  match ts with
  | [] => EmptyString
  | t :: ts' => String ":" (t +++ tailText ts')
  end.

(** The texts [formatIPv6] can leave for the groups [ts]: the groups joined
    by colons, or with one run of two or more zero groups replaced by "::";
    in the second case a colon of the groups after the run may remain. *)
Inductive compressedText (ts : list string) : string -> Prop :=
| ct_plain : compressedText ts (join ":" ts)
| ct_run L R k x :
    (2 <= k)%nat ->
    ts = L ++ repeat "0" k ++ R ->
    x = join ":" R \/ (R <> [] /\ x = tailText R) ->
    compressedText ts (join ":" L +++ "::" +++ x).

(** The eight groups of sixteen address bytes, as [formatIPv6] writes
    them before compression. *)
Fixpoint groupTexts (bytes : Uint8Array) : list string :=
  match bytes with
  | hi :: lo :: rest => toString (Z.lor (Z.shiftl hi 8) lo) 16 :: groupTexts rest
  | _ => []
  end.

(** What [parseGroup] needs of the text of the group made of two bytes. *)
Definition groupReadsBack (hi lo : Z) : bool :=
  let g := Z.lor (Z.shiftl hi 8) lo in
  let t := toString g 16 in
  groupText t
  && match parseInt t 16 with
     | Some v => v =? g
     | None => false
     end
  && negb (0xffff <? g)
  && (Z.land (Z.shiftr g 8) 0xff =? hi)
  && (Z.land g 0xff =? lo).


(** ** Sessions *)

(** A session that has gathered and shows a payload a peer can read. *)
Definition ready (c : Connection.QWBPConnection) (fp : Uint8Array) : Prop :=
  Connection.state c = Displaying
  /\ Connection.remoteInfo c = None
  /\ Connection.localFingerprint c = Some fp
  /\ Connection.localCredentials c <> None
  /\ Connection.pc c = true
  /\ List.length fp = 32%nat
  /\ Connection.localCandidates c <> []
  /\ Forall wireCandidate (Connection.localCandidates c).

Definition readySession (fp : Uint8Array) (cs : list QWBPCandidate)
  : Connection.QWBPConnection :=
  Connection.mkConnection true Displaying (Some fp)
    (Some (mkCredentials "ufrag0" "password0password0passwd")) cs None None [].

(** The calls of the public interface that can change a session. *)
Inductive Call :=
| CallInitialize
| CallGetQRPayload
| CallProcessScannedPayload (data : Uint8Array)
| CallGetSAS
| CallClose.

Section Calls.
Context {SC : SubtleCrypto} {T : Transport} {P : Platform}.

Definition perform (c : Connection.QWBPConnection) (call : Call)
  : Connection.QWBPConnection :=
  match call with
  | CallInitialize => fst (Connection.initialize c)
  | CallGetQRPayload => c
  | CallProcessScannedPayload data => fst (Connection.processScannedPayload c data)
  | CallGetSAS => c
  | CallClose => Connection.close c
  end.

Definition performAll (c : Connection.QWBPConnection) (calls : list Call)
  : Connection.QWBPConnection :=
  fold_left perform calls c.

End Calls.

(** A platform whose offer carries the test fingerprint and one host
    candidate. *)
Definition testOffer : string :=
  JS.join LF
    ["v=0";
     "a=ice-ufrag:abcd";
     "a=ice-pwd:0123456789abcdefghijklmn";
     "a=fingerprint:sha-256 E7:3B:38:46:1A:5D:88:B0:C4:2E:9F:7A:1D:6C:3E:8B:5F:4A:9D:2C:7E:1B:6F:3A:8D:5C:2E:9B:4F:7A:1C:3D";
     "m=application 9 UDP/DTLS/SCTP webrtc-datachannel"].

#[local] Instance testPlatform : Platform := {
  generateCertificate := Ok tt;
  createOffer := Ok testOffer;
  gatherCandidates sdp :=
    Ok (sdp +++ LF
        +++ "a=candidate:1 1 udp 2122260223 192.168.1.5 54321 typ host" +++ LF);
  optionMaxCandidates := None
}.

(** What holds of a session after any sequence of completed calls. *)
Definition sessionInvariant {SC : SubtleCrypto} (c : Connection.QWBPConnection)
  : Prop :=
  (Connection.state c = Idle -> c = Connection.newConnection)
  /\ (Connection.state c = Gathering ->
      Connection.remoteInfo c = None /\ Connection.role c = None)
  /\ (Connection.state c = Displaying \/ Connection.state c = Connecting ->
      Connection.pc c = true
      /\ exists fp credentials,
           Connection.localFingerprint c = Some fp
           /\ Connection.localCredentials c = Some credentials
           /\ Crypto.deriveCredentials fp = Ok credentials)
  /\ (forall fp, Connection.localFingerprint c = Some fp -> List.length fp = 32%nat)
  /\ (forall info, Connection.remoteInfo c = Some info ->
      List.length (peerFingerprint info) = 32%nat
      /\ Crypto.deriveCredentials (peerFingerprint info) = Ok (peerCredentials info)
      /\ exists fp,
           Connection.localFingerprint c = Some fp
           /\ (Connection.role c = None ->
               Crypto.compareFingerprints fp (peerFingerprint info) = 0)
           /\ (forall r, Connection.role c = Some r ->
               Crypto.compareFingerprints fp (peerFingerprint info) <> 0
               /\ r = (if 0 <? Crypto.compareFingerprints fp (peerFingerprint info)
                       then Offerer else Answerer)))
  /\ (Connection.role c <> None -> Connection.remoteInfo c <> None)
  /\ (Connection.state c = Connecting -> Connection.role c <> None)
  /\ Connection.state c <> ScannedOne.

(** The order in which a session passes through its states. *)
Definition stateRank (s : ConnectionState) : nat :=
  match s with
  | Idle => 0
  | Gathering => 1
  | Displaying => 2
  | ScannedOne => 3
  | Connecting => 4
  | Connected => 5
  | Failed => 6
  | Closed => 7
  end.

(** ** Base64 *)

(** The base64 digits of a byte sequence, the padding left out. *)
Fixpoint sextets (bytes : Uint8Array) : list Z :=
  match bytes with
  | [] => []
  | [a] => [Z.shiftr a 2; Z.shiftl (Z.land a 3) 4]
  | [a; b] =>
      [Z.shiftr a 2; Z.lor (Z.shiftl (Z.land a 3) 4) (Z.shiftr b 4);
       Z.shiftl (Z.land b 15) 2]
  | a :: b :: c :: rest =>
      Z.shiftr a 2
      :: Z.lor (Z.shiftl (Z.land a 3) 4) (Z.shiftr b 4)
      :: Z.lor (Z.shiftl (Z.land b 15) 2) (Z.shiftr c 6)
      :: Z.land c 63
      :: sextets rest
  end.

(** The text whose characters are the images of the elements of a list. *)
Definition textOf (f : Z -> ascii) (l : list Z) : string :=
  string_of_list_ascii (map f l).

Definition allSextets : list Z := map Z.of_nat (seq 0 64).

(** The characters of the base64 alphabet. *)
Definition isBase64Char (c : ascii) : bool :=
  match Crypto.base64Index c with Some _ => true | None => false end.

(** ** Fingerprint lines *)

(** Two uppercase hex digits for a byte, as [formatFingerprint] writes
    them. *)
Definition upperHexPair (b : Z) : string :=
  padStart0 2 (mapString toUpper (toString b 16)).

Definition isUpperHex (c : ascii) : bool :=
  let n := nat_of_ascii c in
  ((48 <=? n)%nat && (n <=? 57)%nat) || ((65 <=? n)%nat && (n <=? 70)%nat).

(** A text is empty or ends with a line feed. *)
Definition endsLine (s : string) : Prop :=
  s = EmptyString \/ exists a, s = a +++ LF.

(** The next character, if any, is outside a class. *)
Definition stopsAt (p : ascii -> bool) (s : string) : bool :=
  match s with
  | String c _ => negb (p c)
  | EmptyString => true
  end.

(** ** Reconstructed session descriptions *)

(** The characters of ICE credentials: letters, digits, [+], [/], [-]
    and [_]. *)
Definition isCredentialChar (c : ascii) : bool :=
  urlSafe c || Ascii.eqb c "+" || Ascii.eqb c "/".

(** Credentials given to [reconstructSDP], if any, are made of such
    characters. *)
Definition plainCredentials (credentials : option IceCredentials) : Prop :=
  match credentials with
  | Some c =>
      allChars isCredentialChar (ufrag c) = true
      /\ allChars isCredentialChar (pwd c) = true
  | None => True
  end.

(** The session description with its five fields filled in, every line
    ended by carriage return and line feed. *)
Definition sdpText (sessionId ufrag pwd fingerprintStr setup : string) : string :=
  ("v=0" +++ CRLF +++ "o=- ") +++ sessionId
  +++ (" 2 IN IP4 127.0.0.1" +++ CRLF +++ "s=-" +++ CRLF +++ "t=0 0" +++ CRLF
       +++ "a=group:BUNDLE 0" +++ CRLF
       +++ "m=application 9 UDP/DTLS/SCTP webrtc-datachannel" +++ CRLF
       +++ "c=IN IP4 0.0.0.0" +++ CRLF +++ "a=mid:0" +++ CRLF +++ "a=ice-ufrag:")
  +++ ufrag
  +++ (CRLF +++ "a=ice-pwd:") +++ pwd
  +++ (CRLF +++ "a=ice-options:trickle" +++ CRLF +++ "a=fingerprint:sha-256 ")
  +++ fingerprintStr
  +++ (CRLF +++ "a=setup:") +++ setup
  +++ (CRLF +++ "a=sctp-port:5000" +++ CRLF).

(** A character that starts none of the patterns of a replacement and
    ends no line. *)
Definition isPlainChar (c : ascii) : bool :=
  negb (Ascii.eqb c "$") && negb (Ascii.eqb c "{")
  && negb (Ascii.eqb c (ascii_of_nat 10)) && negb (Ascii.eqb c (ascii_of_nat 13))
  && negb (Ascii.eqb c "=").

(** No occurrence of a pattern starts within [k], whatever follows it. *)
Fixpoint noStart (pat k : string) : bool :=
  match k with
  | EmptyString => true
  | String _ k' => negb (prefix pat k) && negb (prefix k pat) && noStart pat k'
  end.

(* ------------------------------------------------------------------ *)
(** * Properties *)

(** ** The packet of the specification's first test vector *)

(** C9: encoding the test fingerprint with the one candidate
    192.168.1.5:54321 (host, udp) gives exactly the 41 bytes 51 00, the 32
    bytes of the fingerprint, then 00 C0 A8 01 05 D4 31. *)
Theorem encode_minimal_packet :
  Encoder.encode TEST_FINGERPRINT [mkCandidate "192.168.1.5" 54321 host udp None]
  = Ok ([0x51; 0x00] ++ TEST_FINGERPRINT ++ [0x00; 0xC0; 0xA8; 0x01; 0x05; 0xD4; 0x31])
  /\ List.length
       ([0x51; 0x00] ++ TEST_FINGERPRINT ++ [0x00; 0xC0; 0xA8; 0x01; 0x05; 0xD4; 0x31])
     = 41%nat.
Proof. split; vm_compute; reflexivity. Qed.

(** ** compareFingerprints *)

Lemma compareFrom_lex n : forall i a b,
  (i + n <= List.length a)%nat -> (i + n <= List.length b)%nat ->
  Crypto.compareFrom a b i n = lexCompare (firstn n (skipn i a)) (firstn n (skipn i b)).
Proof.
  induction n as [|n IH]; intros i a b Ha Hb; [reflexivity|].
  destruct (nth_error a i) as [x|] eqn:Ea;
    [|apply nth_error_None in Ea; lia].
  destruct (nth_error b i) as [y|] eqn:Eb;
    [|apply nth_error_None in Eb; lia].
  destruct (nth_error_split _ _ Ea) as (a1 & a2 & -> & La).
  destruct (nth_error_split _ _ Eb) as (b1 & b2 & -> & Lb).
  cbn [Crypto.compareFrom]. rewrite Ea, Eb. cbn [Crypto.gtElem].
  rewrite (IH (S i)) by lia.
  replace (skipn i (a1 ++ x :: a2)) with (x :: a2)
    by (rewrite skipn_app, La, Nat.sub_diag, skipn_all2 by lia; reflexivity).
  replace (skipn i (b1 ++ y :: b2)) with (y :: b2)
    by (rewrite skipn_app, Lb, Nat.sub_diag, skipn_all2 by lia; reflexivity).
  replace (skipn (S i) (a1 ++ x :: a2)) with a2
    by (rewrite skipn_app, La, skipn_all2 by lia;
        replace (S i - i)%nat with 1%nat by lia; reflexivity).
  replace (skipn (S i) (b1 ++ y :: b2)) with b2
    by (rewrite skipn_app, Lb, skipn_all2 by lia;
        replace (S i - i)%nat with 1%nat by lia; reflexivity).
  reflexivity.
Qed.

Lemma compareFingerprints_lex a b :
  List.length a = 32%nat -> List.length b = 32%nat ->
  Crypto.compareFingerprints a b = lexCompare a b.
Proof.
  intros Ha Hb. unfold Crypto.compareFingerprints.
  rewrite compareFrom_lex by lia.
  cbn [skipn].
  replace (firstn 32 a) with a by (rewrite <- Ha; symmetry; apply firstn_all).
  replace (firstn 32 b) with b by (rewrite <- Hb; symmetry; apply firstn_all).
  reflexivity.
Qed.

Lemma lexCompare_range a b :
  lexCompare a b = 1 \/ lexCompare a b = -1 \/ lexCompare a b = 0.
Proof.
  revert b; induction a as [|x a IH]; intros [|y b]; cbn; auto.
  destruct (y <? x); auto. destruct (x <? y); auto.
Qed.

Lemma lexCompare_antisym a b : lexCompare b a = - lexCompare a b.
Proof.
  revert b; induction a as [|x a IH]; intros [|y b]; cbn; try reflexivity.
  destruct (Z.ltb_spec y x), (Z.ltb_spec x y); try lia; auto.
Qed.

Lemma lexCompare_eq a b :
  List.length a = List.length b -> (lexCompare a b = 0 <-> a = b).
Proof.
  revert b; induction a as [|x a IH]; intros [|y b] H; cbn in *; try discriminate.
  - tauto.
  - destruct (Z.ltb_spec y x); [split; [discriminate | intros [= ]; lia]|].
    destruct (Z.ltb_spec x y); [split; [discriminate | intros [= ]; lia]|].
    assert (x = y) by lia; subst.
    rewrite IH by lia. split; [now intros -> | now intros [= ]].
Qed.

Lemma lexCompare_gt a b :
  lexCompare a b = 1 <->
  exists p x y ta tb, a = p ++ x :: ta /\ b = p ++ y :: tb /\ y < x.
Proof.
  revert b; induction a as [|x a IH]; intros b.
  - cbn. split; [discriminate|].
    intros (p & x & y & ta & tb & H & _). destruct p; discriminate.
  - destruct b as [|y b].
    + cbn. split; [discriminate|].
      intros (p & x' & y' & ta & tb & _ & H & _). destruct p; discriminate.
    + cbn. destruct (Z.ltb_spec y x) as [Hlt|Hge].
      * split; [|reflexivity]. intros _. now exists [], x, y, a, b.
      * destruct (Z.ltb_spec x y) as [Hlt'|Hge'].
        -- split; [discriminate|].
           intros (p & x' & y' & ta & tb & H1 & H2 & H3).
           destruct p; cbn in *; inversion H1; inversion H2; subst; lia.
        -- assert (x = y) by lia; subst. rewrite IH. split.
           ++ intros (p & x' & y' & ta & tb & -> & -> & H).
              now exists (y :: p), x', y', ta, tb.
           ++ intros (p & x' & y' & ta & tb & H1 & H2 & H3).
              destruct p; cbn in *; inversion H1; inversion H2; subst;
                [lia|]. now exists p, x', y', ta, tb.
Qed.

Lemma lexCompare_trans a b c :
  lexCompare a b = -1 -> lexCompare b c = -1 -> lexCompare a c = -1.
Proof.
  revert b c; induction a as [|x a IH]; intros [|y b] [|z c]; cbn;
    try discriminate; try tauto.
  destruct (Z.ltb_spec y x); [discriminate|].
  destruct (Z.ltb_spec z y); [discriminate|].
  destruct (Z.ltb_spec x y), (Z.ltb_spec y z), (Z.ltb_spec z x), (Z.ltb_spec x z);
    try lia; try discriminate; try reflexivity; eauto.
Qed.

(** C7: on two 32-byte inputs [compareFingerprints] is byte-lexicographic.
    It returns 1 (resp. -1) exactly when, after a common prefix, the first
    differing byte of [a] is greater (resp. smaller) than that of [b], and 0
    exactly when the inputs are identical; the order "a before b" given by
    the result -1 is asymmetric, transitive and trichotomous; two
    fingerprints that differ only at byte 7, 0x33 against 0x34, are ordered
    by that byte. *)
Theorem compareFingerprints_strict_total_order (a b : Uint8Array) :
  List.length a = 32%nat -> List.length b = 32%nat ->
  (Crypto.compareFingerprints a b = 1 <->
     exists p x y ta tb, a = p ++ x :: ta /\ b = p ++ y :: tb /\ y < x)
  /\ (Crypto.compareFingerprints a b = -1 <->
     exists p x y ta tb, a = p ++ x :: ta /\ b = p ++ y :: tb /\ x < y)
  /\ (Crypto.compareFingerprints a b = 0 <-> a = b)
  /\ Crypto.compareFingerprints b a = - Crypto.compareFingerprints a b
  /\ (forall c, List.length c = 32%nat ->
        Crypto.compareFingerprints a b = -1 ->
        Crypto.compareFingerprints b c = -1 ->
        Crypto.compareFingerprints a c = -1)
  /\ ((Crypto.compareFingerprints a b = -1 /\ a <> b
         /\ Crypto.compareFingerprints b a <> -1)
      \/ (a = b /\ Crypto.compareFingerprints a b <> -1
            /\ Crypto.compareFingerprints b a <> -1)
      \/ (Crypto.compareFingerprints b a = -1 /\ a <> b
            /\ Crypto.compareFingerprints a b <> -1))
  /\ (forall p s, List.length p = 7%nat -> List.length s = 24%nat ->
        Crypto.compareFingerprints (p ++ 0x33 :: s) (p ++ 0x34 :: s) = -1
        /\ Crypto.compareFingerprints (p ++ 0x34 :: s) (p ++ 0x33 :: s) = 1).
Proof.
  intros Ha Hb.
  rewrite (compareFingerprints_lex a b Ha Hb), (compareFingerprints_lex b a Hb Ha).
  pose proof (lexCompare_antisym a b) as Hanti.
  pose proof (lexCompare_eq a b ltac:(lia)) as Heq.
  repeat split.
  - apply lexCompare_gt.
  - apply lexCompare_gt.
  - intros H. assert (H' : lexCompare b a = 1) by lia.
    apply lexCompare_gt in H' as (p & x & y & ta & tb & ? & ? & ?).
    now exists p, y, x, tb, ta.
  - intros (p & x & y & ta & tb & ? & ? & ?).
    assert (H' : lexCompare b a = 1)
      by (apply lexCompare_gt; now exists p, y, x, tb, ta).
    lia.
  - apply Heq.
  - apply Heq.
  - exact Hanti.
  - intros c Hc. rewrite (compareFingerprints_lex b c Hb Hc),
      (compareFingerprints_lex a c Ha Hc). apply lexCompare_trans.
  - destruct (lexCompare_range a b) as [H| [H|H]].
    + right; right. repeat split; try lia. intros E. apply Heq in E. lia.
    + left. repeat split; try lia. intros E. apply Heq in E. lia.
    + right; left. repeat split; try lia. now apply Heq.
  - rewrite compareFingerprints_lex by (rewrite length_app; cbn; lia).
    apply Z.opp_inj. rewrite <- lexCompare_antisym. cbn.
    apply lexCompare_gt. now exists p, 0x34, 0x33, s, s.
  - rewrite compareFingerprints_lex by (rewrite length_app; cbn; lia).
    apply lexCompare_gt. now exists p, 0x34, 0x33, s, s.
Qed.

(** ** Bytes and typed arrays *)

Lemma allBytes_In b : isByte b -> In b allBytes.
Proof.
  intros [H0 H1]. unfold allBytes. rewrite <- (Z2Nat.id b H0).
  apply in_map, in_seq. lia.
Qed.

Lemma byte_forall (P : Z -> bool) :
  forallb P allBytes = true -> forall a, isByte a -> P a = true.
Proof.
  intros H a Ha. rewrite forallb_forall in H. apply H, allBytes_In, Ha.
Qed.

Lemma byte_forall2 (P : Z -> Z -> bool) :
  forallb (fun a => forallb (P a) allBytes) allBytes = true ->
  forall a b, isByte a -> isByte b -> P a b = true.
Proof.
  intros H a b Ha Hb. rewrite forallb_forall in H.
  specialize (H a (allBytes_In a Ha)). rewrite forallb_forall in H.
  apply H, allBytes_In, Hb.
Qed.

(** Writing [src] over a stretch of the same length. *)
Lemma set_app (pre old post src : Uint8Array) :
  List.length old = List.length src ->
  set (pre ++ old ++ post) src (List.length pre) = Ok (pre ++ src ++ post).
Proof.
  intros H. unfold set. rewrite !length_app.
  destruct (Nat.leb_spec (List.length pre + List.length src)
              (List.length pre + (List.length old + List.length post))); [|lia].
  rewrite firstn_app, Nat.sub_diag, firstn_all, firstn_O, app_nil_r.
  rewrite skipn_app, skipn_all2 by lia. cbn [app].
  replace (List.length pre + List.length src - List.length pre)%nat
    with (List.length old) by lia.
  rewrite skipn_app, skipn_all, Nat.sub_diag. reflexivity.
Qed.

Lemma zeros_add n m : zeros (n + m) = zeros n ++ zeros m.
Proof. apply repeat_app. Qed.

Lemma length_zeros n : List.length (zeros n) = n.
Proof. apply repeat_length. Qed.

Lemma shift_or_bytes hi lo :
  isByte hi -> isByte lo -> Z.lor (Z.shiftl hi 8) lo = hi * 256 + lo.
Proof.
  intros Hh Hl.
  apply Z.eqb_eq.
  apply (byte_forall2 (fun a b => Z.lor (Z.shiftl a 8) b =? a * 256 + b));
    [vm_compute; reflexivity | exact Hh | exact Hl].
Qed.

(** ** generateSAS *)

Lemma combine_fingerprints x y :
  List.length x = 32%nat -> List.length y = 32%nat ->
  (let* combined := set (zeros 64) x 0 in set combined y 32) = Ok (x ++ y).
Proof.
  intros Hx Hy.
  change (zeros 64) with (zeros (32 + 32)). rewrite zeros_add.
  pose proof (set_app [] (zeros 32) (zeros 32) x) as H1.
  cbn [app List.length] in H1. rewrite H1 by (rewrite length_zeros; lia).
  cbn [bind].
  pose proof (set_app x (zeros 32) [] y) as H2.
  rewrite app_nil_r in H2. rewrite Hx in H2.
  rewrite H2 by (rewrite length_zeros; lia). now rewrite app_nil_r.
Qed.

Lemma padded_decimal n :
  0 <= n < 10000 -> padStart0 4 (toString n 10) = fourDigits n.
Proof.
  intros [H0 H1].
  assert (H : forallb (fun k => String.eqb (padStart0 4 (toString k 10)) (fourDigits k))
                (map Z.of_nat (seq 0 (Z.to_nat 10000))) = true)
    by (vm_compute; reflexivity).
  rewrite forallb_forall in H. apply String.eqb_eq, H.
  rewrite <- (Z2Nat.id n H0). apply in_map, in_seq. lia.
Qed.

(** C8: [generateSAS] gives the same code whichever fingerprint is local.
    The code is the four decimal digits, leading zeros kept, of the 16-bit
    number made of the first two bytes of SHA-256 over the 64-byte
    concatenation that puts the greater-or-equal fingerprint first, taken
    modulo 10000. *)
Theorem generateSAS_symmetric {SC : SubtleCrypto} (a b : Uint8Array) :
  SubtleCryptoSpec SC ->
  List.length a = 32%nat -> List.length b = 32%nat ->
  Crypto.generateSAS a b = Crypto.generateSAS b a
  /\ (let combined :=
        if 0 <=? Crypto.compareFingerprints a b then a ++ b else b ++ a in
      let hashBytes := digestSHA256 combined in
      List.length combined = 64%nat
      /\ Crypto.generateSAS a b
         = Ok (fourDigits ((nth 0 hashBytes 0 * 256 + nth 1 hashBytes 0) mod 10000))).
Proof.
  intros Hspec Ha Hb.
  assert (Hsas : forall x y, List.length x = 32%nat -> List.length y = 32%nat ->
            let combined :=
              if 0 <=? Crypto.compareFingerprints x y then x ++ y else y ++ x in
            let hashBytes := digestSHA256 combined in
            Crypto.generateSAS x y
            = Ok (fourDigits ((nth 0 hashBytes 0 * 256 + nth 1 hashBytes 0) mod 10000))).
  { intros x y Hx Hy combined hashBytes. unfold Crypto.generateSAS.
    assert (Hc : (if 0 <=? Crypto.compareFingerprints x y
                  then let* c := set (zeros 64) x 0 in set c y 32
                  else let* c := set (zeros 64) y 0 in set c x 32)
                 = Ok combined).
    { subst combined. destruct (0 <=? Crypto.compareFingerprints x y);
        now apply combine_fingerprints. }
    rewrite Hc. cbn [bind]. fold hashBytes.
    pose proof (digest_length SC Hspec combined) as Hlen.
    pose proof (digest_bytes SC Hspec combined) as Hbytes.
    fold hashBytes in Hlen, Hbytes.
    destruct hashBytes as [|h0 [|h1 rest]]; try discriminate.
    cbn [get nth_error bind nth].
    inversion Hbytes as [|? ? Hh0 Hrest]; subst.
    inversion Hrest as [|? ? Hh1 _]; subst.
    rewrite shift_or_bytes by assumption.
    unfold isByte in *.
    rewrite Z.rem_mod_nonneg by lia.
    rewrite padded_decimal; [reflexivity|].
    apply Z.mod_pos_bound. lia. }
  split.
  - rewrite (Hsas a b Ha Hb), (Hsas b a Hb Ha).
    pose proof (lexCompare_eq a b ltac:(lia)) as Heq.
    rewrite <- (compareFingerprints_lex a b Ha Hb) in Heq.
    assert (Hanti : Crypto.compareFingerprints b a = - Crypto.compareFingerprints a b)
      by (rewrite !compareFingerprints_lex by assumption; apply lexCompare_antisym).
    rewrite Hanti.
    destruct (Z.leb_spec 0 (Crypto.compareFingerprints a b)) as [H|H];
      destruct (Z.leb_spec 0 (- Crypto.compareFingerprints a b)) as [H'|H'];
      try reflexivity; try lia.
    assert (E : a = b) by (apply Heq; lia). now subst.
  - cbn zeta. split; [|apply (Hsas a b Ha Hb)].
    destruct (0 <=? Crypto.compareFingerprints a b); rewrite length_app; lia.
Qed.

(** ** base64urlEncode and deriveCredentials *)

Lemma urlChar_ok i :
  0 <= i < 64 -> Ascii.eqb "=" (urlChar i) = false /\ urlSafe (urlChar i) = true.
Proof.
  intros [H0 H1].
  assert (H : forallb (fun k => negb (Ascii.eqb "=" (urlChar k)) && urlSafe (urlChar k))
                (map Z.of_nat (seq 0 64)) = true) by (vm_compute; reflexivity).
  rewrite forallb_forall in H.
  assert (Hin : In i (map Z.of_nat (seq 0 64)))
    by (rewrite <- (Z2Nat.id i H0); apply in_map, in_seq; lia).
  apply H in Hin.
  apply andb_prop in Hin as [Ha Hb]. apply negb_true_iff in Ha. now split.
Qed.

Lemma url_cons (i : Z) (s : string) :
  0 <= i < 64 ->
  removeAll "=" (Crypto.replaceAll "/" "_"
                   (Crypto.replaceAll "+" "-" (String (Crypto.base64Char i) s)))
  = String (urlChar i)
      (removeAll "=" (Crypto.replaceAll "/" "_" (Crypto.replaceAll "+" "-" s))).
Proof.
  intros Hi. unfold Crypto.replaceAll. cbn [mapString removeAll].
  fold (urlChar i). now rewrite (proj1 (urlChar_ok i Hi)).
Qed.

Lemma isSextet_range i : isSextet i = true -> 0 <= i < 64.
Proof. unfold isSextet. lia. Qed.

Lemma sextet_first a : isByte a -> 0 <= Z.shiftr a 2 < 64.
Proof.
  intros H. apply isSextet_range.
  apply (byte_forall (fun a => isSextet (Z.shiftr a 2)));
    [vm_compute; reflexivity | exact H].
Qed.

Lemma sextet_pad1 a : isByte a -> 0 <= Z.shiftl (Z.land a 3) 4 < 64.
Proof.
  intros H. apply isSextet_range.
  apply (byte_forall (fun a => isSextet (Z.shiftl (Z.land a 3) 4)));
    [vm_compute; reflexivity | exact H].
Qed.

Lemma sextet_second a b :
  isByte a -> isByte b -> 0 <= Z.lor (Z.shiftl (Z.land a 3) 4) (Z.shiftr b 4) < 64.
Proof.
  intros Ha Hb. apply isSextet_range.
  apply (byte_forall2
           (fun a b => isSextet (Z.lor (Z.shiftl (Z.land a 3) 4) (Z.shiftr b 4))));
    [vm_compute; reflexivity | exact Ha | exact Hb].
Qed.

Lemma sextet_pad2 b : isByte b -> 0 <= Z.shiftl (Z.land b 15) 2 < 64.
Proof.
  intros H. apply isSextet_range.
  apply (byte_forall (fun b => isSextet (Z.shiftl (Z.land b 15) 2)));
    [vm_compute; reflexivity | exact H].
Qed.

Lemma sextet_third b c :
  isByte b -> isByte c -> 0 <= Z.lor (Z.shiftl (Z.land b 15) 2) (Z.shiftr c 6) < 64.
Proof.
  intros Hb Hc. apply isSextet_range.
  apply (byte_forall2
           (fun b c => isSextet (Z.lor (Z.shiftl (Z.land b 15) 2) (Z.shiftr c 6))));
    [vm_compute; reflexivity | exact Hb | exact Hc].
Qed.

Lemma sextet_fourth c : isByte c -> 0 <= Z.land c 63 < 64.
Proof.
  intros H. apply isSextet_range.
  apply (byte_forall (fun c => isSextet (Z.land c 63)));
    [vm_compute; reflexivity | exact H].
Qed.

Lemma url_padding (pad : string) :
  allChars (Ascii.eqb "=") pad = true ->
  removeAll "=" (Crypto.replaceAll "/" "_" (Crypto.replaceAll "+" "-" pad))
  = EmptyString.
Proof.
  induction pad as [|c pad IH]; [reflexivity|]. cbn [allChars].
  intros H. apply andb_prop in H as [Hc Hp]. apply Ascii.eqb_eq in Hc. subst c.
  unfold Crypto.replaceAll in *. cbn. now apply IH.
Qed.

Lemma base64urlEncode_shape_upto n : forall bytes,
  (List.length bytes <= n)%nat -> Forall isByte bytes ->
  String.length (Crypto.base64urlEncode bytes) = base64urlLength (List.length bytes)
  /\ allChars urlSafe (Crypto.base64urlEncode bytes) = true.
Proof.
  induction n as [n IH] using lt_wf_ind. intros bytes Hn Hb.
  unfold Crypto.base64urlEncode.
  destruct bytes as [|a [|b [|c rest]]].
  - split; reflexivity.
  - inversion Hb as [|? ? Ha _]; subst. cbn [Crypto.btoa].
    rewrite !url_cons by auto using sextet_first, sextet_pad1.
    rewrite url_padding by reflexivity.
    cbn [String.length allChars List.length]. rewrite (proj2 (urlChar_ok _ (sextet_first a Ha))),
      (proj2 (urlChar_ok _ (sextet_pad1 a Ha))). split; reflexivity.
  - inversion Hb as [|? ? Ha Hb']; subst. inversion Hb' as [|? ? Hb0 _]; subst.
    cbn [Crypto.btoa].
    rewrite !url_cons by auto using sextet_first, sextet_second, sextet_pad2.
    rewrite url_padding by reflexivity.
    cbn [String.length allChars List.length]. rewrite (proj2 (urlChar_ok _ (sextet_first a Ha))),
      (proj2 (urlChar_ok _ (sextet_second a b Ha Hb0))),
      (proj2 (urlChar_ok _ (sextet_pad2 b Hb0))). split; reflexivity.
  - inversion Hb as [|? ? Ha Hb']; subst. inversion Hb' as [|? ? Hb0 Hb'']; subst.
    inversion Hb'' as [|? ? Hc Hrest]; subst.
    cbn [Crypto.btoa].
    rewrite !url_cons
      by auto using sextet_first, sextet_second, sextet_third, sextet_fourth.
    cbn [List.length] in Hn.
    destruct (IH (List.length rest) ltac:(lia) rest (le_n _) Hrest) as [IHl IHc].
    unfold Crypto.base64urlEncode in IHl, IHc.
    cbn [String.length allChars List.length]. rewrite IHl, IHc.
    rewrite (proj2 (urlChar_ok _ (sextet_first a Ha))),
      (proj2 (urlChar_ok _ (sextet_second a b Ha Hb0))),
      (proj2 (urlChar_ok _ (sextet_third b c Hb0 Hc))),
      (proj2 (urlChar_ok _ (sextet_fourth c Hc))).
    split; [|reflexivity].
    unfold base64urlLength.
    replace (S (S (S (List.length rest)))) with (List.length rest + 1 * 3)%nat by lia.
    rewrite Nat.div_add, Nat.Div0.mod_add by lia. lia.
Qed.


(** ** decode: when it fails, and that it always answers *)

Lemma get_nth (arr : Uint8Array) i :
  (i < List.length arr)%nat -> get arr i = Ok (nth i arr 0).
Proof.
  intros H. unfold get.
  destruct (nth_error arr i) eqn:E.
  - now rewrite (nth_error_nth _ _ _ E).
  - apply nth_error_None in E. lia.
Qed.

Lemma length_slice (arr : Uint8Array) a b :
  (b <= List.length arr)%nat -> List.length (slice arr a b) = (b - a)%nat.
Proof. intros H. unfold slice. rewrite length_firstn, length_skipn. lia. Qed.

Lemma land3_cases x :
  Z.land x 3 = 0 \/ Z.land x 3 = 1 \/ Z.land x 3 = 2 \/ Z.land x 3 = 3.
Proof.
  assert (E : Z.land x 3 = x mod 4) by apply (Z.land_ones x 2 ltac:(lia)).
  pose proof (Z.mod_pos_bound x 4 ltac:(lia)). lia.
Qed.

Lemma mapM_ok {A B} (f : A -> result B) (l : list A) :
  (forall x, In x l -> exists y, f x = Ok y) -> exists ys, mapM f l = Ok ys.
Proof.
  induction l as [|a l IH]; intros H; [now exists []|].
  destruct (H a (or_introl eq_refl)) as [y Hy].
  destruct IH as [ys Hys]; [intros x Hx; apply H; now right|].
  exists (y :: ys). cbn. now rewrite Hy, Hys.
Qed.

Lemma formatIPv6_ok (bytes : Uint8Array) :
  List.length bytes = 16%nat -> exists s, Decoder.formatIPv6 bytes = Ok s.
Proof.
  intros Hlen. unfold Decoder.formatIPv6.
  destruct (mapM_ok (Decoder.formatGroup bytes) (seq 0 8)) as [parts ->].
  - intros i Hi. apply in_seq in Hi. unfold Decoder.formatGroup.
    rewrite !get_nth by lia. cbn [bind]. eauto.
  - cbn [bind]. destruct (Decoder.zeroRuns _); eauto.
Qed.

(** A record of a known family that fits is accepted and consumed whole. *)
Lemma decodeCandidate_accepts (data : Uint8Array) o :
  (o < List.length data)%nat ->
  Z.land (nth o data 0%Z) 3 <> 3 ->
  (o + declaredLength (nth o data 0%Z) <= List.length data)%nat ->
  exists c, Decoder.decodeCandidate data o = Ok (c, declaredLength (nth o data 0%Z)).
Proof.
  intros Ho Hfam Hfit. unfold Decoder.decodeCandidate.
  destruct (Nat.leb_spec (List.length data) o); [lia|].
  rewrite get_nth by lia. cbn [bind].
  unfold declaredLength in *. unfold Decoder.decodeAddress.
  destruct (land3_cases (nth o data 0%Z)) as [E|[E|[E|E]]]; rewrite E in *;
    try contradiction.
  - destruct (Nat.ltb_spec (List.length data) (o + 1 + 4 + 2)); [lia|].
    cbn [bind]. rewrite !get_nth by lia. cbn [bind]. eexists.
    reflexivity.
  - destruct (Nat.ltb_spec (List.length data) (o + 1 + 16 + 2)); [lia|].
    destruct (formatIPv6_ok (slice data (o + 1) (o + 1 + 16))) as [s ->];
      [rewrite length_slice; lia|].
    cbn [bind]. rewrite !get_nth by lia. cbn [bind]. eexists.
    reflexivity.
  - destruct (Nat.ltb_spec (List.length data) (o + 1 + 16 + 2)); [lia|].
    cbn [bind]. rewrite !get_nth by lia. cbn [bind]. eexists.
    reflexivity.
Qed.

Lemma decodeCandidate_rejects (data : Uint8Array) o :
  badRecord data o ->
  exists msg, Decoder.decodeCandidate data o = Throw (QWBPDecodeError msg).
Proof.
  intros [Ho Hbad]. unfold Decoder.decodeCandidate.
  destruct (Nat.leb_spec (List.length data) o); [lia|].
  rewrite get_nth by lia. cbn [bind].
  unfold declaredLength in *. unfold Decoder.decodeAddress.
  destruct (land3_cases (nth o data 0%Z)) as [E|[E|[E|E]]]; rewrite E in *;
    (destruct Hbad as [Hbad|Hbad]; [try discriminate|]).
  - destruct (Nat.ltb_spec (List.length data) (o + 1 + 4 + 2)); [|lia].
    cbn [bind]. eauto.
  - destruct (Nat.ltb_spec (List.length data) (o + 1 + 16 + 2)); [|lia].
    cbn [bind]. eauto.
  - destruct (Nat.ltb_spec (List.length data) (o + 1 + 16 + 2)); [|lia].
    cbn [bind]. eauto.
  - cbn [bind]. eauto.
  - cbn [bind]. eauto.
Qed.

Lemma record_good_or_bad (data : Uint8Array) o :
  (o < List.length data)%nat ->
  badRecord data o
  \/ (Z.land (nth o data 0%Z) 3 <> 3
      /\ (o + declaredLength (nth o data 0%Z) <= List.length data)%nat).
Proof.
  intros Ho. unfold badRecord.
  destruct (Z.eq_dec (Z.land (nth o data 0%Z) 3) 3); [now auto|].
  destruct (Nat.lt_ge_cases (List.length data) (o + declaredLength (nth o data 0%Z)));
    auto.
Qed.

Lemma declaredLength_min flags : Z.land flags 3 <> 3 -> (7 <= declaredLength flags)%nat.
Proof.
  unfold declaredLength.
  destruct (land3_cases flags) as [E|[E|[E|E]]]; rewrite E; intros; try lia.
Qed.

(** What [decodeCandidate] answers at any offset. *)
Lemma decodeCandidate_cases (data : Uint8Array) o :
  (exists msg, Decoder.decodeCandidate data o = Throw (QWBPDecodeError msg))
  \/ (exists c n, Decoder.decodeCandidate data o = Ok (c, n)
        /\ n = declaredLength (nth o data 0%Z)
        /\ (o < List.length data)%nat
        /\ Z.land (nth o data 0%Z) 3 <> 3
        /\ (7 <= n)%nat /\ (o + n <= List.length data)%nat).
Proof.
  destruct (Nat.lt_ge_cases o (List.length data)) as [Ho|Ho].
  - destruct (record_good_or_bad data o Ho) as [Hbad|[Hfam Hfit]].
    + left. now apply decodeCandidate_rejects.
    + right. destruct (decodeCandidate_accepts data o Ho Hfam Hfit) as [c Hc].
      exists c, (declaredLength (nth o data 0%Z)).
      pose proof (declaredLength_min _ Hfam). repeat split; auto.
  - left. unfold Decoder.decodeCandidate.
    destruct (Nat.leb_spec (List.length data) o); [|lia]. eauto.
Qed.

(** The loop, with enough budget: it stops with a decode error exactly when
    it reaches a bad record, and with the candidates otherwise. *)
Lemma decodeLoop_spec (data : Uint8Array) fuel : forall o acc,
  (List.length data - o <= fuel)%nat ->
  ((exists msg, Decoder.decodeLoop fuel data o acc = Throw (QWBPDecodeError msg))
   /\ exists o', recordFrom data o o' /\ badRecord data o')
  \/ ((exists cs, Decoder.decodeLoop fuel data o acc = Ok cs)
      /\ forall o', recordFrom data o o' -> ~ badRecord data o').
Proof.
  induction fuel as [|fuel IH]; intros o acc Hfuel.
  - right. cbn [Decoder.decodeLoop].
    destruct (Nat.ltb_spec o (List.length data)); [lia|].
    split; [now exists acc|]. intros o' Hr [Hlt _]. inversion Hr; subst; lia.
  - cbn [Decoder.decodeLoop].
    destruct (Nat.ltb_spec o (List.length data)) as [Ho|Ho].
    + destruct (record_good_or_bad data o Ho) as [Hbad|[Hfam Hfit]].
      * left. destruct (decodeCandidate_rejects data o Hbad) as [msg ->].
        cbn [bind]. split; [eauto|]. exists o. split; [constructor|assumption].
      * destruct (decodeCandidate_accepts data o Ho Hfam Hfit) as [c ->].
        cbn [bind]. pose proof (declaredLength_min _ Hfam) as Hmin.
        destruct (IH (o + declaredLength (nth o data 0%Z))%nat (acc ++ [c])
                    ltac:(lia)) as [[Hthrow (o' & Hr & Hb)]|[Hok Hnone]].
        -- left. split; [assumption|]. exists o'. split; [|assumption].
           now apply rf_skip.
        -- right. split; [assumption|]. intros o' Hr Hb.
           inversion Hr; subst.
           ++ destruct Hb as [_ [Hb|Hb]]; [contradiction|lia].
           ++ now apply (Hnone o').
    + right. split; [now exists acc|]. intros o' Hr [Hlt _].
      inversion Hr; subst; lia.
Qed.

Lemma decodeLoop_fuel (data : Uint8Array) fuel : forall fuel' o acc,
  (List.length data - o <= fuel)%nat -> (List.length data - o <= fuel')%nat ->
  Decoder.decodeLoop fuel data o acc = Decoder.decodeLoop fuel' data o acc.
Proof.
  induction fuel as [|fuel IH]; intros fuel' o acc H H'.
  - destruct fuel'; cbn [Decoder.decodeLoop];
      destruct (Nat.ltb_spec o (List.length data)); try reflexivity; lia.
  - destruct fuel' as [|fuel'].
    + cbn [Decoder.decodeLoop].
      destruct (Nat.ltb_spec o (List.length data)); [lia|reflexivity].
    + cbn [Decoder.decodeLoop].
      destruct (Nat.ltb_spec o (List.length data)) as [Ho|Ho]; [|reflexivity].
      destruct (decodeCandidate_cases data o)
        as [[msg ->]|(c & n & -> & _ & _ & _ & Hn & _)]; [reflexivity|].
      cbn [bind]. apply IH; lia.
Qed.

(** The header checks of [decode], then the loop. *)
Lemma decode_header (data : Uint8Array) fuel :
  (List.length data < 41)%nat \/ nth 0 data 0 <> 0x51 \/ Z.land (nth 1 data 0) 7 <> 0 ->
  exists msg, Decoder.decodeWith fuel data = Throw (QWBPDecodeError msg).
Proof.
  intros H. unfold Decoder.decodeWith.
  change MIN_PACKET_SIZE with 41%nat.
  destruct (Nat.ltb_spec (List.length data) 41); [eauto|].
  rewrite get_nth by lia. cbn [bind]. unfold MAGIC_BYTE.
  destruct (Z.eqb_spec (nth 0 data 0) 0x51); cbn [negb]; [|eauto].
  rewrite get_nth by lia. cbn [bind].
  destruct (Z.eqb_spec (Z.land (nth 1 data 0) 7) 0); cbn [negb]; [|eauto].
  lia.
Qed.

Lemma decode_body (data : Uint8Array) fuel :
  ~ ((List.length data < 41)%nat \/ nth 0 data 0 <> 0x51
     \/ Z.land (nth 1 data 0) 7 <> 0) ->
  Decoder.decodeWith fuel data
  = let* candidates := Decoder.decodeLoop fuel data 34 [] in
    Ok (mkPacket 0 (slice data 2 34) candidates).
Proof.
  intros H. unfold Decoder.decodeWith.
  change MIN_PACKET_SIZE with 41%nat.
  destruct (Nat.ltb_spec (List.length data) 41); [tauto|].
  rewrite get_nth by lia. cbn [bind]. unfold MAGIC_BYTE.
  destruct (Z.eqb_spec (nth 0 data 0) 0x51); cbn [negb]; [|tauto].
  rewrite get_nth by lia. cbn [bind].
  destruct (Z.eqb_spec (Z.land (nth 1 data 0) 7) 0) as [E|E]; cbn [negb]; [|tauto].
  rewrite E. reflexivity.
Qed.

Lemma header_dec (data : Uint8Array) :
  let bad := (List.length data < 41)%nat \/ nth 0 data 0 <> 0x51
             \/ Z.land (nth 1 data 0) 7 <> 0 in
  bad \/ ~ bad.
Proof.
  cbn zeta.
  destruct (Nat.lt_ge_cases (List.length data) 41); [now auto|].
  destruct (Z.eq_dec (nth 0 data 0) 0x51); [|now auto].
  destruct (Z.eq_dec (Z.land (nth 1 data 0) 7) 0); [|now auto].
  right. intros [?|[?|?]]; [lia|contradiction|contradiction].
Qed.

(** The two outcomes of [decode], each with its cause. *)
Lemma decode_outcome (data : Uint8Array) :
  ((exists msg, Decoder.decode data = Throw (QWBPDecodeError msg))
   /\ ((List.length data < 41)%nat \/ nth 0 data 0 <> 0x51
       \/ Z.land (nth 1 data 0) 7 <> 0
       \/ exists o, recordFrom data 34 o /\ badRecord data o))
  \/ ((exists p, Decoder.decode data = Ok p)
      /\ ~ ((List.length data < 41)%nat \/ nth 0 data 0 <> 0x51
            \/ Z.land (nth 1 data 0) 7 <> 0
            \/ exists o, recordFrom data 34 o /\ badRecord data o)).
Proof.
  unfold Decoder.decode.
  destruct (header_dec data) as [Hh|Hh].
  - left. split; [now apply decode_header|tauto].
  - rewrite (decode_body data _ Hh).
    destruct (decodeLoop_spec data (List.length data) 34 [] ltac:(lia))
      as [[[msg ->] Hex]|[[cs ->] Hnone]]; cbn [bind].
    + left. split; [eauto|tauto].
    + right. split; [eauto|].
      intros [?|[?|[?|(o & Hr & Hb)]]]; try tauto. now apply (Hnone o).
Qed.

(** C2: [decode] raises a QWBPDecodeError exactly when the input is shorter
    than 41 bytes, or byte 0 is not 0x51, or bits 0-2 of byte 1 are not
    zero, or some candidate record (read one after the other from offset
    34) has address family 0b11 or declares a length, 7 bytes for IPv4 and
    19 for IPv6 and mDNS, that reads past the end of the input; on every
    other input it returns a packet. *)
Theorem decode_fails_exactly_when (data : Uint8Array) :
  ((exists msg, Decoder.decode data = Throw (QWBPDecodeError msg))
   <-> ((List.length data < 41)%nat
        \/ nth 0 data 0 <> 0x51
        \/ Z.land (nth 1 data 0) 7 <> 0
        \/ exists o, recordFrom data 34 o
             /\ (o < List.length data)%nat
             /\ (Z.land (nth o data 0%Z) 3 = 3
                 \/ (List.length data < o + declaredLength (nth o data 0%Z))%nat)))
  /\ ((exists p, Decoder.decode data = Ok p)
      <-> ~ ((List.length data < 41)%nat
             \/ nth 0 data 0 <> 0x51
             \/ Z.land (nth 1 data 0) 7 <> 0
             \/ exists o, recordFrom data 34 o
                  /\ (o < List.length data)%nat
                  /\ (Z.land (nth o data 0%Z) 3 = 3
                      \/ (List.length data
                          < o + declaredLength (nth o data 0%Z))%nat))).
Proof.
  fold (badRecord data).
  destruct (decode_outcome data) as [[[msg Hd] Hbad]|[[p Hd] Hgood]];
    unfold badRecord in *; rewrite Hd.
  - split; split; try tauto; eauto.
    + intros [p' Hp]. discriminate.
  - split; split; try tauto; eauto.
    + intros [msg Hm]. discriminate.
Qed.

(** C10: [decode] answers on every byte sequence, with a packet or with a
    QWBPDecodeError: no read of the input or of an address slice falls
    outside the array, in [decode] or in [decodeCandidate] at any offset;
    every record that [decodeCandidate] accepts lies within the input and
    advances the offset by at least 7 bytes, so the loop ends within
    [data.length] passes and any larger budget gives the same answer. *)
Theorem decode_total (data : Uint8Array) :
  ((exists p, Decoder.decode data = Ok p)
   \/ (exists msg, Decoder.decode data = Throw (QWBPDecodeError msg)))
  /\ Decoder.decode data <> Throw IndexOutOfRange
  /\ Decoder.decode data <> Throw OutOfFuel
  /\ (forall o, Decoder.decodeCandidate data o <> Throw IndexOutOfRange)
  /\ (forall o c n, Decoder.decodeCandidate data o = Ok (c, n) ->
        (7 <= n)%nat /\ (o + n <= List.length data)%nat)
  /\ (forall fuel, (List.length data <= fuel)%nat ->
        Decoder.decodeWith fuel data = Decoder.decode data).
Proof.
  assert (Hout : (exists p, Decoder.decode data = Ok p)
                 \/ (exists msg, Decoder.decode data = Throw (QWBPDecodeError msg))).
  { destruct (decode_outcome data) as [[H _]|[H _]]; auto. }
  split; [exact Hout|].
  split; [destruct Hout as [[p H]|[msg H]]; rewrite H; discriminate|].
  split; [destruct Hout as [[p H]|[msg H]]; rewrite H; discriminate|].
  split.
  { intros o. destruct (decodeCandidate_cases data o)
      as [[msg ->]|(c & n & -> & _)]; discriminate. }
  split.
  { intros o c n H. destruct (decodeCandidate_cases data o)
      as [[msg H']|(c' & n' & H' & _ & _ & _ & Hn & Hfit)]; rewrite H' in H;
      [discriminate|]. injection H as _ <-. auto. }
  intros fuel Hfuel. unfold Decoder.decode.
  destruct (header_dec data) as [Hh|Hh].
  - destruct (decode_header data fuel Hh) as [m1 H1].
    unfold Decoder.decodeWith in *. change MIN_PACKET_SIZE with 41%nat in *.
    destruct (Nat.ltb_spec (List.length data) 41); [reflexivity|].
    destruct (get data 0) as [magic|]; [|reflexivity]. cbn [bind] in *.
    destruct (negb (magic =? MAGIC_BYTE)); [reflexivity|].
    destruct (get data 1) as [b1|]; [|reflexivity]. cbn [bind] in *.
    destruct (negb (Z.land b1 7 =? 0)) eqn:E; [reflexivity|].
    rewrite (decodeLoop_fuel data fuel (List.length data)) by lia.
    reflexivity.
  - rewrite !(decode_body data _ Hh).
    rewrite (decodeLoop_fuel data fuel (List.length data)) by lia.
    reflexivity.
Qed.

(** ** encode: the layout it writes and when it fails *)

Lemma mapM_length {A B} (f : A -> result B) (l : list A) : forall ys,
  mapM f l = Ok ys -> List.length ys = List.length l.
Proof.
  induction l as [|a l IH]; cbn; intros ys H.
  - now injection H as <-.
  - destruct (f a); [|discriminate]. cbn in H.
    destruct (mapM f l); [|discriminate]. cbn in H. injection H as <-.
    cbn. now rewrite (IH _ eq_refl).
Qed.

Lemma mapM_Forall {A B} (f : A -> result B) (l : list A) : forall ys,
  mapM f l = Ok ys -> Forall (fun x => isOk (f x) = true) l.
Proof.
  induction l as [|a l IH]; cbn; intros ys H; [constructor|].
  destruct (f a) eqn:E; [|discriminate]. cbn in H.
  destruct (mapM f l); [|discriminate]. constructor.
  - now rewrite E.
  - now apply (IH _ eq_refl).
Qed.

Lemma mapM_throw {A B} (f : A -> result B) (l : list A) e :
  mapM f l = Throw e -> exists x, In x l /\ f x = Throw e.
Proof.
  induction l as [|a l IH]; cbn; intros H; [discriminate|].
  destruct (f a) eqn:E; cbn in H.
  - destruct (mapM f l); cbn in H; [discriminate|].
    injection H as ->. destruct (IH eq_refl) as (x & Hx & Hf). eauto.
  - injection H as ->. eauto.
Qed.

Lemma mapM_all_ok {A B} (f : A -> result B) (l : list A) :
  Forall (fun x => isOk (f x) = true) l -> exists ys, mapM f l = Ok ys.
Proof.
  intros H. apply mapM_ok. intros x Hx. rewrite Forall_forall in H.
  specialize (H x Hx). destruct (f x); [eauto|discriminate].
Qed.

Lemma put_app (pre : Uint8Array) x post v :
  put (pre ++ x :: post) (List.length pre) v = pre ++ v :: post.
Proof. induction pre as [|h pre IH]; cbn; [reflexivity|now rewrite IH]. Qed.

(** *** The three address parsers *)

Lemma parseOctet_ok ip part :
  isOk (Encoder.parseOctet ip part) = validOctet part.
Proof.
  unfold Encoder.parseOctet, validOctet.
  destruct (parseInt part 10) as [v|]; [|reflexivity].
  destruct (Z.ltb_spec v 0), (Z.ltb_spec 255 v), (Z.leb_spec 0 v), (Z.leb_spec v 255);
    cbn; try reflexivity; lia.
Qed.

Lemma parseIPv4_accepts ip :
  isOk (Encoder.parseIPv4 ip) = true
  <-> List.length (split ip ".") = 4%nat
      /\ Forall (fun part => validOctet part = true) (split ip ".").
Proof.
  unfold Encoder.parseIPv4.
  destruct (Nat.eqb_spec (List.length (split ip ".")) 4) as [E|E]; cbn [negb].
  - split.
    + intros H. split; [assumption|].
      destruct (mapM (Encoder.parseOctet ip) (split ip ".")) as [bs|] eqn:Em;
        [|discriminate].
      apply mapM_Forall in Em. eapply Forall_impl; [|exact Em].
      intros part Hp. cbv beta in Hp. now rewrite <- (parseOctet_ok ip part).
    + intros [_ H].
      destruct (mapM_all_ok (Encoder.parseOctet ip) (split ip ".")) as [ys ->];
        [|reflexivity].
      eapply Forall_impl; [|exact H].
      intros part Hp. cbv beta in *. now rewrite (parseOctet_ok ip part).
  - split; [discriminate|]. intros [H _]. contradiction.
Qed.

Lemma parseIPv4_length ip bytes :
  Encoder.parseIPv4 ip = Ok bytes -> List.length bytes = 4%nat.
Proof.
  unfold Encoder.parseIPv4.
  destruct (Nat.eqb_spec (List.length (split ip ".")) 4) as [E|E]; cbn [negb];
    [|discriminate].
  intros H. apply mapM_length in H. lia.
Qed.

Lemma parseIPv4_error ip e :
  Encoder.parseIPv4 ip = Throw e -> exists msg, e = QWBPEncodeError msg.
Proof.
  unfold Encoder.parseIPv4.
  destruct (negb _); [intros [= <-]; unfold Encoder.invalidIPv4; eauto|].
  intros H. apply mapM_throw in H as (part & _ & H).
  unfold Encoder.parseOctet, Encoder.invalidIPv4 in H.
  destruct (parseInt part 10); [destruct (_ || _)|]; try discriminate;
    injection H as <-; eauto.
Qed.

Lemma parseMdnsUUID_accepts hostname :
  isOk (Encoder.parseMdnsUUID hostname) = true
  <-> String.length (mdnsIdentifier hostname) = 32%nat.
Proof.
  unfold Encoder.parseMdnsUUID. fold (mdnsIdentifier hostname).
  destruct (Nat.eqb_spec (String.length (mdnsIdentifier hostname)) 32); cbn;
    split; auto; discriminate.
Qed.

Lemma parseMdnsUUID_length hostname bytes :
  Encoder.parseMdnsUUID hostname = Ok bytes -> List.length bytes = 16%nat.
Proof.
  unfold Encoder.parseMdnsUUID. destruct (negb _); [discriminate|].
  intros [= <-]. reflexivity.
Qed.

Lemma parseMdnsUUID_error hostname e :
  Encoder.parseMdnsUUID hostname = Throw e -> exists msg, e = QWBPEncodeError msg.
Proof.
  unfold Encoder.parseMdnsUUID. destruct (negb _); [|discriminate].
  intros [= <-]. eauto.
Qed.

Lemma parseGroup_length ip allParts i pair :
  Encoder.parseGroup ip allParts i = Ok pair -> List.length pair = 2%nat.
Proof.
  unfold Encoder.parseGroup. destruct (_ <? _)%nat; [discriminate|].
  destruct (parseInt _ 16); [|discriminate].
  destruct (_ <? _); [discriminate|]. now intros [= <-].
Qed.

Lemma length_concat_pairs (pairs : list (list Z)) :
  Forall (fun p => List.length p = 2%nat) pairs ->
  List.length (List.concat pairs) = (2 * List.length pairs)%nat.
Proof.
  induction 1 as [|p pairs Hp _ IH]; [reflexivity|].
  cbn [List.concat List.length]. rewrite length_app, IH, Hp. lia.
Qed.

Lemma mapM_each {A B} (f : A -> result B) (P : B -> Prop) (l : list A) : forall ys,
  (forall x y, f x = Ok y -> P y) -> mapM f l = Ok ys -> Forall P ys.
Proof.
  induction l as [|a l IH]; cbn; intros ys HP H.
  - injection H as <-. constructor.
  - destruct (f a) eqn:E; [|discriminate]. cbn in H.
    destruct (mapM f l) eqn:Em; [|discriminate]. cbn in H. injection H as <-.
    constructor; eauto.
Qed.

Lemma ipv6Groups_sides cleaned :
  (List.length (split cleaned "::") <= 2)%nat ->
  ipv6Groups cleaned
  = Encoder.colonParts (nth_error (split cleaned "::") 0)
    ++ (if (1 <? List.length (split cleaned "::"))%nat
        then Encoder.colonParts (nth_error (split cleaned "::") 1) else []).
Proof.
  assert (Hc : forall p, Encoder.colonParts (Some p)
                         = filter (fun p => negb (String.eqb p "")) (split p ":")).
  { assert (He : forall l : list string,
               filter Encoder.nonEmpty l
               = filter (fun p => negb (String.eqb p "")) l).
    { intros l. apply filter_ext. intros [|c q]; reflexivity. }
    intros [|c p]; [reflexivity|]. apply He. }
  unfold ipv6Groups. destruct (split cleaned "::") as [|l [|r [|x rest]]]; cbn [List.length].
  - reflexivity.
  - intros _. cbn [flat_map nth_error Nat.ltb Nat.leb]. now rewrite Hc, !app_nil_r.
  - intros _. cbn [flat_map nth_error Nat.ltb Nat.leb]. now rewrite !Hc, app_nil_r.
  - lia.
Qed.

Lemma parseIPv6_accepts ip bytes :
  Encoder.parseIPv6 ip = Ok bytes ->
  List.length bytes = 16%nat
  /\ (Encoder.matchIPv4Mapped (Encoder.stripBrackets ip) <> None
      \/ ((List.length (split (Encoder.stripBrackets ip) "::") <= 2)%nat
          /\ (List.length (ipv6Groups (Encoder.stripBrackets ip)) <= 8)%nat)).
Proof.
  unfold Encoder.parseIPv6.
  destruct (negb _); [discriminate|].
  destruct (Encoder.matchIPv4Mapped (Encoder.stripBrackets ip)) as [groups|] eqn:Em.
  - destruct (mapM _ groups) as [octets|] eqn:Eo; [|discriminate].
    cbn [bind]. intros [= <-]. split; [|left; discriminate].
    apply mapM_length in Eo.
    unfold Encoder.matchIPv4Mapped in Em.
    destruct (String.eqb _ _); [|discriminate].
    destruct (Nat.eqb_spec (List.length (split (drop 7 (Encoder.stripBrackets ip)) "."))
                4) as [E4|]; [|discriminate].
    destruct (forallb _ _); [|discriminate]. injection Em as <-.
    cbn [List.length]. lia.
  - set (cleaned := Encoder.stripBrackets ip).
    destruct (Nat.ltb_spec 2 (List.length (split cleaned "::"))) as [|Hparts];
      [discriminate|].
    cbv zeta.
    rewrite <- (length_app (Encoder.colonParts (nth_error (split cleaned "::") 0))).
    rewrite <- (ipv6Groups_sides cleaned Hparts).
    destruct (Nat.ltb_spec 8 (List.length (ipv6Groups cleaned))) as [|Htotal];
      [discriminate|]. cbn [orb].
    destruct (_ && _); [discriminate|].
    destruct (mapM _ (seq 0 8)) as [pairs|] eqn:Ep; [|discriminate].
    cbn [bind]. intros [= <-]. split; [|right; split; assumption].
    rewrite length_concat_pairs.
    + apply mapM_length in Ep. rewrite Ep, length_seq. reflexivity.
    + eapply mapM_each; [|exact Ep]. intros i pair. apply parseGroup_length.
Qed.

Lemma parseIPv6_error ip e :
  Encoder.parseIPv6 ip = Throw e -> exists msg, e = QWBPEncodeError msg.
Proof.
  unfold Encoder.parseIPv6, Encoder.invalidIPv6.
  destruct (negb _); [intros [= <-]; eauto|].
  destruct (Encoder.matchIPv4Mapped _) as [groups|].
  - destruct (mapM _ groups) eqn:Eo; [discriminate|]. cbn [bind]. intros [= <-].
    apply mapM_throw in Eo as (g & _ & H). unfold Encoder.parseMappedOctet in H.
    destruct (parseInt g 10); [destruct (_ <? _)|]; try discriminate.
    injection H as <-. eauto.
  - destruct (_ <? _)%nat; [intros [= <-]; eauto|].
    destruct (_ || _); [intros [= <-]; eauto|].
    destruct (mapM _ (seq 0 8)) eqn:Ep; [discriminate|]. cbn [bind]. intros [= <-].
    apply mapM_throw in Ep as (i & _ & H).
    unfold Encoder.parseGroup, Encoder.invalidIPv6 in H.
    destruct (_ <? _)%nat; [injection H as <-; eauto|].
    destruct (parseInt _ 16); [destruct (_ <? _)|]; try discriminate;
      injection H as <-; eauto.
Qed.

(** *** One record, then the whole packet *)

Lemma encodeAddress_accepts c :
  addressAccepted (ip c) = true ->
  exists family addressBytes,
    Encoder.encodeAddress c = Ok (family, addressBytes)
    /\ (1 + List.length addressBytes + 2 = Encoder.getCandidateSize c)%nat
    /\ (family = 0 \/ family = 1 \/ family = 2).
Proof.
  unfold addressAccepted, Encoder.encodeAddress, Encoder.getCandidateSize.
  destruct (Encoder.isMdns (ip c)); cbn [negb andb].
  - destruct (Encoder.parseMdnsUUID (ip c)) as [b|] eqn:E; [|discriminate].
    intros _. exists 2, b. rewrite (parseMdnsUUID_length _ _ E). cbn; auto.
  - destruct (Encoder.isIPv6 (ip c)).
    + destruct (Encoder.parseIPv6 (ip c)) as [b|] eqn:E; [|discriminate].
      intros _. exists 1, b. rewrite (proj1 (parseIPv6_accepts _ _ E)). cbn; auto.
    + destruct (Encoder.parseIPv4 (ip c)) as [b|] eqn:E; [|discriminate].
      intros _. exists 0, b. rewrite (parseIPv4_length _ _ E). cbn; auto.
Qed.

Lemma encodeAddress_rejects c :
  addressAccepted (ip c) = false ->
  exists msg, Encoder.encodeAddress c = Throw (QWBPEncodeError msg).
Proof.
  unfold addressAccepted, Encoder.encodeAddress.
  destruct (Encoder.isMdns (ip c)); cbn [negb andb].
  - destruct (Encoder.parseMdnsUUID (ip c)) as [b|e] eqn:E; [discriminate|].
    intros _. destruct (parseMdnsUUID_error _ _ E) as [msg ->]. cbn; eauto.
  - destruct (Encoder.isIPv6 (ip c)).
    + destruct (Encoder.parseIPv6 (ip c)) as [b|e] eqn:E; [discriminate|].
      intros _. destruct (parseIPv6_error _ _ E) as [msg ->]. cbn; eauto.
    + destruct (Encoder.parseIPv4 (ip c)) as [b|e] eqn:E; [discriminate|].
      intros _. destruct (parseIPv4_error _ _ E) as [msg ->]. cbn; eauto.
Qed.

Lemma zeros_record n : zeros (1 + n + 2) = 0 :: zeros n ++ [0; 0].
Proof.
  unfold zeros. cbn [Nat.add repeat]. f_equal. apply (repeat_app 0 n 2).
Qed.

Lemma record_ports (body : Uint8Array) hi lo :
  put (put (body ++ [0; 0]) (List.length (body ++ [0; 0]) - 2) hi)
      (List.length (put (body ++ [0; 0]) (List.length (body ++ [0; 0]) - 2) hi) - 1)
      lo
  = body ++ [hi; lo].
Proof.
  replace (List.length (body ++ [0%Z; 0%Z]) - 2)%nat with (List.length body)
    by (rewrite length_app; cbn [List.length]; lia).
  rewrite put_app.
  replace (List.length (body ++ [hi; 0%Z]) - 1)%nat with (List.length (body ++ [hi]))
    by (rewrite !length_app; cbn [List.length]; lia).
  replace (body ++ [hi; 0]) with ((body ++ [hi]) ++ [0])
    by (now rewrite <- app_assoc).
  rewrite put_app. now rewrite <- app_assoc.
Qed.

(** A record is the flags byte, the address bytes and the port, high byte
    first. *)
Lemma encodeCandidate_layout c family addressBytes :
  Encoder.encodeAddress c = Ok (family, addressBytes) ->
  Encoder.encodeCandidate c
  = Ok (candidateFlags family c
        :: addressBytes
        ++ [Z.land (Z.shiftr (port c) 8) 0xff; Z.land (port c) 0xff]).
Proof.
  intros H. unfold Encoder.encodeCandidate. rewrite H. cbn [bind].
  fold (candidateFlags family c).
  set (n := List.length addressBytes).
  rewrite zeros_record. cbn [put].
  pose proof (set_app [candidateFlags family c] (zeros n) [0; 0] addressBytes) as Hs.
  cbn [app List.length] in Hs. rewrite Hs by apply length_zeros.
  cbn [bind].
  change (candidateFlags family c :: addressBytes ++ [0; 0])
    with ((candidateFlags family c :: addressBytes) ++ [0; 0]).
  now rewrite record_ports.
Qed.

Lemma encodeCandidate_accepts c :
  addressAccepted (ip c) = true ->
  exists encoded, Encoder.encodeCandidate c = Ok encoded
                  /\ List.length encoded = Encoder.getCandidateSize c.
Proof.
  intros H. destruct (encodeAddress_accepts c H) as (family & addr & He & Hl & _).
  eexists. split; [exact (encodeCandidate_layout c family addr He)|].
  cbn [List.length]. rewrite length_app. cbn [List.length]. lia.
Qed.

Lemma encodeCandidate_rejects c :
  addressAccepted (ip c) = false ->
  exists msg, Encoder.encodeCandidate c = Throw (QWBPEncodeError msg).
Proof.
  intros H. destruct (encodeAddress_rejects c H) as [msg He].
  exists msg. unfold Encoder.encodeCandidate. now rewrite He.
Qed.

Lemma candidatesSize_sum cs : forall n,
  fold_left (fun acc c => (acc + Encoder.getCandidateSize c)%nat) cs n
  = (n + list_sum (map Encoder.getCandidateSize cs))%nat.
Proof.
  induction cs as [|c cs IH]; intros n.
  - cbn. lia.
  - cbn [fold_left]. rewrite IH.
    change (list_sum (map Encoder.getCandidateSize (c :: cs)))
      with (Encoder.getCandidateSize c
            + list_sum (map Encoder.getCandidateSize cs))%nat.
    lia.
Qed.

(** The second loop fills the zeroed tail of the packet with the records,
    or stops at the first candidate whose address is rejected. *)
Lemma writeCandidates_spec cs : forall pre,
  (forallb (fun c => addressAccepted (ip c)) cs = true
   /\ exists records,
        mapM Encoder.encodeCandidate cs = Ok records
        /\ Encoder.writeCandidates cs
             (pre ++ zeros (list_sum (map Encoder.getCandidateSize cs)))
             (List.length pre)
           = Ok (pre ++ List.concat records))
  \/ (forallb (fun c => addressAccepted (ip c)) cs = false
      /\ exists msg,
           Encoder.writeCandidates cs
             (pre ++ zeros (list_sum (map Encoder.getCandidateSize cs)))
             (List.length pre)
           = Throw (QWBPEncodeError msg)).
Proof.
  induction cs as [|c cs IH]; intros pre.
  - left. split; [reflexivity|]. exists []. split; [reflexivity|].
    cbn. now rewrite !app_nil_r.
  - cbn [forallb Encoder.writeCandidates mapM].
    change (list_sum (map Encoder.getCandidateSize (c :: cs)))
      with (Encoder.getCandidateSize c
            + list_sum (map Encoder.getCandidateSize cs))%nat.
    destruct (addressAccepted (ip c)) eqn:Ec; cbn [andb].
    + destruct (encodeCandidate_accepts c Ec) as (encoded & He & Hl).
      rewrite He. cbn [bind]. rewrite zeros_add.
      rewrite set_app by (rewrite length_zeros; lia). cbn [bind].
      specialize (IH (pre ++ encoded)).
      rewrite length_app, <- app_assoc in IH.
      destruct IH as [[Hall (records & Hm & Hw)]|[Hsome [msg Hw]]].
      * left. split; [assumption|]. exists (encoded :: records).
        rewrite Hm, Hw. cbn [bind List.concat]. now rewrite <- app_assoc.
      * right. split; [assumption|]. exists msg. exact Hw.
    + right. split; [reflexivity|].
      destruct (encodeCandidate_rejects c Ec) as [msg He].
      exists msg. now rewrite He.
Qed.

(** The whole of [encode] on a 32-byte fingerprint. *)
Lemma encode_spec fp cs :
  List.length fp = 32%nat ->
  (forallb (fun c => addressAccepted (ip c)) cs = true
   /\ exists records,
        mapM Encoder.encodeCandidate cs = Ok records
        /\ Encoder.encode fp cs = Ok ([0x51; 0] ++ fp ++ List.concat records))
  \/ (forallb (fun c => addressAccepted (ip c)) cs = false
      /\ exists msg, Encoder.encode fp cs = Throw (QWBPEncodeError msg)).
Proof.
  intros Hfp. unfold Encoder.encode. rewrite Hfp.
  change (negb (32 =? FINGERPRINT_SIZE)%nat) with false. cbv iota.
  change (2 + FINGERPRINT_SIZE)%nat with 34%nat.
  rewrite candidatesSize_sum. cbn [Nat.add].
  set (total := list_sum (map Encoder.getCandidateSize cs)).
  change (HEADER_SIZE + FINGERPRINT_SIZE + total)%nat with (2 + (32 + total))%nat.
  rewrite !zeros_add.
  change (zeros 2) with [0; 0]. cbn [app put].
  pose proof (set_app [MAGIC_BYTE; PROTOCOL_VERSION] (zeros 32) (zeros total) fp) as Hs.
  cbn [app List.length] in Hs. rewrite Hs by (rewrite length_zeros; lia).
  cbn [bind].
  pose proof (writeCandidates_spec cs ([MAGIC_BYTE; PROTOCOL_VERSION] ++ fp)) as Hw.
  rewrite length_app, Hfp, <- app_assoc in Hw. cbn [app List.length Nat.add] in Hw.
  fold total in Hw.
  destruct Hw as [[Hall (records & Hm & Hw)]|[Hsome [msg Hw]]].
  - left. split; [assumption|]. exists records. split; [assumption|].
    rewrite Hw. reflexivity.
  - right. split; [assumption|]. exists msg. exact Hw.
Qed.


(** ** decode after encode *)

Lemma get_app_mid (xs : Uint8Array) v ys : get (xs ++ v :: ys) (List.length xs) = Ok v.
Proof.
  unfold get. rewrite nth_error_app2 by lia. now rewrite Nat.sub_diag.
Qed.

Lemma slice_app_mid (xs mid ys : Uint8Array) :
  slice (xs ++ mid ++ ys) (List.length xs) (List.length xs + List.length mid) = mid.
Proof.
  unfold slice. rewrite skipn_app, skipn_all, Nat.sub_diag. cbn [skipn app].
  replace (List.length xs + List.length mid - List.length xs)%nat
    with (List.length mid) by lia.
  rewrite firstn_app, Nat.sub_diag, firstn_all. cbn [firstn]. apply app_nil_r.
Qed.

Lemma port_bytes p :
  0 <= p < 65536 ->
  isByte (Z.land (Z.shiftr p 8) 0xff) /\ isByte (Z.land p 0xff)
  /\ Z.lor (Z.shiftl (Z.land (Z.shiftr p 8) 0xff) 8) (Z.land p 0xff) = p.
Proof.
  intros Hp.
  assert (E1 : Z.land p 0xff = p mod 256) by apply (Z.land_ones p 8 ltac:(lia)).
  assert (E2 : Z.land (Z.shiftr p 8) 0xff = (p / 256) mod 256).
  { rewrite Z.shiftr_div_pow2 by lia. apply (Z.land_ones _ 8 ltac:(lia)). }
  pose proof (Z.mod_pos_bound p 256 ltac:(lia)).
  pose proof (Z.mod_pos_bound (p / 256) 256 ltac:(lia)).
  assert (isByte (Z.land (Z.shiftr p 8) 0xff)) by (unfold isByte; lia).
  assert (isByte (Z.land p 0xff)) by (unfold isByte; lia).
  split; [assumption|]. split; [assumption|].
  rewrite shift_or_bytes by assumption. rewrite E1, E2.
  assert (p / 256 < 256) by (apply Z.div_lt_upper_bound; lia).
  rewrite (Z.mod_small (p / 256)) by (split; [apply Z.div_pos; lia | lia]).
  pose proof (Z.div_mod p 256 ltac:(lia)). lia.
Qed.

(** The fields packed into the flags byte are read back unchanged. *)
Lemma flags_fields family c :
  family = 0 \/ family = 1 \/ family = 2 ->
  Z.land (candidateFlags family c) 3 = family
  /\ Z.land (Z.shiftr (candidateFlags family c) 2) 1 = Encoder.protocolBit (protocol c)
  /\ Z.land (Z.shiftr (candidateFlags family c) 3) 1 = Encoder.typeBit (type c)
  /\ Z.land (Z.shiftr (candidateFlags family c) 4) 3
     = Encoder.tcpTypeBits (protocol c) (tcpType c).
Proof.
  unfold candidateFlags.
  intros [-> | [-> | ->]]; destruct (protocol c), (type c), (tcpType c) as [[]|];
    repeat split; reflexivity.
Qed.

Lemma encodeAddress_printed c :
  printedAs (ip c) = true ->
  (exists addressBytes,
      Encoder.encodeAddress c = Ok (0, addressBytes)
      /\ List.length addressBytes = 4%nat
      /\ Decoder.formatIPv4 addressBytes = ip c)
  \/ (exists addressBytes,
        Encoder.encodeAddress c = Ok (1, addressBytes)
        /\ List.length addressBytes = 16%nat
        /\ Decoder.formatIPv6 addressBytes = Ok (ip c))
  \/ (exists addressBytes,
        Encoder.encodeAddress c = Ok (2, addressBytes)
        /\ List.length addressBytes = 16%nat
        /\ Decoder.formatMdns addressBytes = ip c).
Proof.
  unfold printedAs, Encoder.encodeAddress.
  destruct (Encoder.isMdns (ip c)); cbn [negb andb].
  - destruct (Encoder.parseMdnsUUID (ip c)) as [b|] eqn:E; [|discriminate].
    intros H. apply String.eqb_eq in H. right; right. exists b.
    repeat split; eauto using parseMdnsUUID_length.
  - destruct (Encoder.isIPv6 (ip c)).
    + destruct (Encoder.parseIPv6 (ip c)) as [b|] eqn:E; [|discriminate].
      destruct (Decoder.formatIPv6 b) as [text|] eqn:Ef; [|discriminate].
      intros H. apply String.eqb_eq in H. subst text. right; left. exists b.
      repeat split; auto. apply (parseIPv6_accepts _ _ E).
    + destruct (Encoder.parseIPv4 (ip c)) as [b|] eqn:E; [|discriminate].
      intros H. apply String.eqb_eq in H. left. exists b.
      repeat split; eauto using parseIPv4_length.
Qed.

Lemma decoded_fields c :
  (protocol c = tcp <-> tcpType c <> None) ->
  (if Encoder.typeBit (type c) =? 1 then srflx else host) = type c
  /\ (if Encoder.protocolBit (protocol c) =? 1 then tcp else udp) = protocol c
  /\ (if Encoder.protocolBit (protocol c) =? 1
      then Some (Decoder.decodeTcpType (Encoder.tcpTypeBits (protocol c) (tcpType c)))
      else None) = tcpType c.
Proof.
  intros [H1 H2].
  destruct (type c), (protocol c), (tcpType c) as [[]|]; cbn; repeat split;
    try reflexivity;
    solve [ exfalso; apply (H1 eq_refl); reflexivity
          | assert (X : udp = tcp) by (apply H2; discriminate); discriminate X ].
Qed.

Lemma record_split (pre : Uint8Array) f addr hi lo post :
  pre ++ (f :: addr ++ [hi; lo]) ++ post
  = (pre ++ [f]) ++ addr ++ ([hi; lo] ++ post).
Proof.
  rewrite <- !app_assoc. cbn [app]. rewrite <- app_assoc. reflexivity.
Qed.

(** A record written by [encodeCandidate] for a candidate that fits the
    wire format is read back by [decodeCandidate] as that candidate,
    wherever it lies. *)
Lemma decodeCandidate_written c record (pre post : Uint8Array) :
  wireCandidate c ->
  Encoder.encodeCandidate c = Ok record ->
  Decoder.decodeCandidate (pre ++ record ++ post) (List.length pre)
  = Ok (c, List.length record).
Proof.
  intros (Hip & Hport & Htcp) Henc.
  destruct (port_bytes (port c) ltac:(lia)) as (_ & _ & Hp).
  destruct (decoded_fields c Htcp) as (Ht & Hpr & Htt).
  assert (Hshape : exists family addr,
             Encoder.encodeAddress c = Ok (family, addr)
             /\ (family = 0 \/ family = 1 \/ family = 2)
             /\ Decoder.decodeAddress
                  (pre ++ (candidateFlags family c :: addr
                           ++ [Z.land (Z.shiftr (port c) 8) 255; Z.land (port c) 255])
                       ++ post)
                  (List.length pre) family
                = Ok (List.length addr, ip c)).
  { assert (Hlen : forall addr : Uint8Array,
               List.length
                 (pre ++ (candidateFlags 0 c :: addr
                          ++ [Z.land (Z.shiftr (port c) 8) 255; Z.land (port c) 255])
                      ++ post)
               = (List.length pre + 1 + List.length addr + 2 + List.length post)%nat).
    { intros addr. rewrite !length_app. cbn [List.length].
      rewrite length_app. cbn [List.length]. lia. }
    assert (Hslice : forall family (addr : Uint8Array),
               slice (pre ++ (candidateFlags family c :: addr
                              ++ [Z.land (Z.shiftr (port c) 8) 255;
                                  Z.land (port c) 255]) ++ post)
                     (List.length pre + 1) (List.length pre + 1 + List.length addr)
               = addr).
    { intros family addr.
      pose proof (slice_app_mid (pre ++ [candidateFlags family c]) addr
                    ([Z.land (Z.shiftr (port c) 8) 255; Z.land (port c) 255] ++ post))
        as Hs.
      rewrite length_app in Hs. cbn [List.length] in Hs.
      rewrite record_split. exact Hs. }
    destruct (encodeAddress_printed c Hip)
      as [(addr & He & Hl & Hf)|[(addr & He & Hl & Hf)|(addr & He & Hl & Hf)]].
    - exists 0, addr. split; [assumption|]. split; [auto|].
      unfold Decoder.decodeAddress. rewrite Hlen.
      destruct (Nat.ltb_spec (List.length pre + 1 + List.length addr + 2
                              + List.length post) (List.length pre + 1 + 4 + 2));
        [lia|].
      rewrite <- Hl, Hslice, Hf. reflexivity.
    - exists 1, addr. split; [assumption|]. split; [auto|].
      unfold Decoder.decodeAddress.
      replace (List.length (pre ++ (candidateFlags 1 c :: addr ++ _) ++ post))
        with (List.length pre + 1 + List.length addr + 2 + List.length post)%nat
        by (rewrite !length_app; cbn [List.length]; rewrite length_app;
            cbn [List.length]; lia).
      destruct (Nat.ltb_spec (List.length pre + 1 + List.length addr + 2
                              + List.length post) (List.length pre + 1 + 16 + 2));
        [lia|].
      rewrite <- Hl, Hslice, Hf. reflexivity.
    - exists 2, addr. split; [assumption|]. split; [auto|].
      unfold Decoder.decodeAddress.
      replace (List.length (pre ++ (candidateFlags 2 c :: addr ++ _) ++ post))
        with (List.length pre + 1 + List.length addr + 2 + List.length post)%nat
        by (rewrite !length_app; cbn [List.length]; rewrite length_app;
            cbn [List.length]; lia).
      destruct (Nat.ltb_spec (List.length pre + 1 + List.length addr + 2
                              + List.length post) (List.length pre + 1 + 16 + 2));
        [lia|].
      rewrite <- Hl, Hslice, Hf. reflexivity. }
  destruct Hshape as (family & addr & He & Hfam & Hda).
  rewrite (encodeCandidate_layout c family addr He) in Henc.
  injection Henc as <-.
  destruct (flags_fields family c Hfam) as (F1 & F2 & F3 & F4).
  unfold Decoder.decodeCandidate.
  set (hi := Z.land (Z.shiftr (port c) 8) 255) in *.
  set (lo := Z.land (port c) 255) in *.
  set (data := pre ++ (candidateFlags family c :: addr ++ [hi; lo]) ++ post) in *.
  assert (Hlen : List.length data
                 = (List.length pre + 1 + List.length addr + 2 + List.length post)%nat).
  { unfold data. rewrite !length_app. cbn [List.length].
    rewrite length_app. cbn [List.length]. lia. }
  destruct (Nat.leb_spec (List.length data) (List.length pre)); [lia|].
  assert (G0 : get data (List.length pre) = Ok (candidateFlags family c)).
  { unfold data. cbn [app]. apply get_app_mid. }
  assert (G1 : get data (List.length pre + 1 + List.length addr) = Ok hi).
  { unfold data.
    replace (pre ++ (candidateFlags family c :: addr ++ [hi; lo]) ++ post)
      with ((pre ++ candidateFlags family c :: addr) ++ hi :: lo :: post)
      by (rewrite <- !app_assoc; cbn [app]; rewrite <- app_assoc; reflexivity).
    replace (List.length pre + 1 + List.length addr)%nat
      with (List.length (pre ++ candidateFlags family c :: addr))
      by (rewrite length_app; cbn [List.length]; lia).
    apply get_app_mid. }
  assert (G2 : get data (List.length pre + 1 + List.length addr + 1) = Ok lo).
  { unfold data.
    replace (pre ++ (candidateFlags family c :: addr ++ [hi; lo]) ++ post)
      with ((pre ++ candidateFlags family c :: addr ++ [hi]) ++ lo :: post)
      by (rewrite <- ?app_assoc; cbn [app]; rewrite <- ?app_assoc; cbn [app];
          reflexivity).
    replace (List.length pre + 1 + List.length addr + 1)%nat
      with (List.length (pre ++ candidateFlags family c :: addr ++ [hi]))
      by (rewrite length_app; cbn [List.length]; rewrite length_app;
          cbn [List.length]; lia).
    apply get_app_mid. }
  rewrite G0. cbn [bind]. rewrite F1, F2, F3, F4, Hda. cbn [bind].
  rewrite G1. cbn [bind]. rewrite G2. cbn [bind].
  rewrite Hp, Ht, Hpr, Htt.
  destruct c; cbn [ip port type protocol tcpType List.length].
  rewrite length_app. cbn [List.length].
  reflexivity.
Qed.

Lemma encodeCandidate_length c record :
  Encoder.encodeCandidate c = Ok record -> (3 <= List.length record)%nat.
Proof.
  intros H.
  destruct (Encoder.encodeAddress c) as [[family addr]|e] eqn:He.
  - rewrite (encodeCandidate_layout c family addr He) in H. injection H as <-.
    cbn [List.length]. rewrite length_app. cbn [List.length]. lia.
  - unfold Encoder.encodeCandidate in H. rewrite He in H. discriminate.
Qed.

Lemma printed_wire c : printedCandidate c -> wireCandidate c.
Proof. intros (Hip & Hport & Htcp). repeat split; try tauto; lia. Qed.

Lemma decodeCandidate_encoded c record (pre post : Uint8Array) :
  printedCandidate c ->
  Encoder.encodeCandidate c = Ok record ->
  Decoder.decodeCandidate (pre ++ record ++ post) (List.length pre)
  = Ok (c, List.length record).
Proof. intros H. apply decodeCandidate_written. now apply printed_wire. Qed.

(** The loop reads back, in order, the records that [encode] wrote. *)
Lemma decodeLoop_written cs : forall records pre acc fuel,
  Forall wireCandidate cs ->
  mapM Encoder.encodeCandidate cs = Ok records ->
  (List.length (List.concat records) <= fuel)%nat ->
  Decoder.decodeLoop fuel (pre ++ List.concat records) (List.length pre) acc
  = Ok (acc ++ cs).
Proof.
  induction cs as [|c cs IH]; intros records pre acc fuel Hall Hm Hfuel.
  - cbn in Hm. injection Hm as <-. cbn [List.concat]. rewrite !app_nil_r.
    destruct fuel; cbn [Decoder.decodeLoop]; now rewrite Nat.ltb_irrefl.
  - cbn [mapM] in Hm.
    destruct (Encoder.encodeCandidate c) as [r|] eqn:Er; [|discriminate].
    cbn [bind] in Hm.
    destruct (mapM Encoder.encodeCandidate cs) as [rs|] eqn:Ers; [|discriminate].
    cbn [bind] in Hm. injection Hm as <-.
    inversion Hall as [|? ? Hc Hcs]; subst.
    pose proof (encodeCandidate_length c r Er) as Hr.
    cbn [List.concat] in *. rewrite length_app in Hfuel.
    destruct fuel as [|fuel]; [lia|].
    cbn [Decoder.decodeLoop].
    destruct (Nat.ltb_spec (List.length pre) (List.length (pre ++ r ++ List.concat rs)))
      as [_|Hge]; [|rewrite !length_app in Hge; lia].
    rewrite (decodeCandidate_written c r pre (List.concat rs) Hc Er). cbn [bind].
    rewrite app_assoc, <- length_app.
    rewrite (IH rs (pre ++ r) (acc ++ [c]) fuel Hcs eq_refl ltac:(lia)).
    now rewrite <- app_assoc.
Qed.

Lemma decodeLoop_encoded cs : forall records pre acc fuel,
  Forall printedCandidate cs ->
  mapM Encoder.encodeCandidate cs = Ok records ->
  (List.length (List.concat records) <= fuel)%nat ->
  Decoder.decodeLoop fuel (pre ++ List.concat records) (List.length pre) acc
  = Ok (acc ++ cs).
Proof.
  intros records pre acc fuel Hall. apply decodeLoop_written.
  revert Hall. apply Forall_impl. exact printed_wire.
Qed.

Lemma encoded_accepted cs records :
  mapM Encoder.encodeCandidate cs = Ok records ->
  forallb (fun c => addressAccepted (ip c)) cs = true.
Proof.
  intros Hm. apply forallb_forall. intros c Hin.
  pose proof (mapM_Forall _ _ _ Hm) as HF. rewrite Forall_forall in HF.
  specialize (HF c Hin).
  destruct (addressAccepted (ip c)) eqn:Ea; [reflexivity|].
  destruct (encodeCandidate_rejects c Ea) as [m Hr]. rewrite Hr in HF.
  discriminate.
Qed.

(** C1, as the code has it: for every 32-byte fingerprint [fp] and every
    non-empty list [cs] of candidates whose address is written the way the
    decoder prints it, whose port is in 1..65535 and which carry a tcp
    subtype exactly when their protocol is tcp, [encode] succeeds and
    [decode] of its result is the packet with version 0, fingerprint [fp]
    and candidates [cs] in the same order. *)
Theorem decode_encode_roundtrip (fp : Uint8Array) (cs : list QWBPCandidate) :
  List.length fp = 32%nat ->
  cs <> [] ->
  Forall printedCandidate cs ->
  exists bytes,
    Encoder.encode fp cs = Ok bytes
    /\ Decoder.decode bytes = Ok (mkPacket 0 fp cs).
Proof.
  intros Hfp Hne Hall.
  destruct (mapM Encoder.encodeCandidate cs) as [records|e] eqn:Hm.
  2:{ exfalso. apply mapM_throw in Hm as (c & Hin & Hc).
      rewrite Forall_forall in Hall. destruct (Hall c Hin) as (Hip & _).
      destruct (encodeAddress_printed c Hip)
        as [(a & He & _)|[(a & He & _)|(a & He & _)]];
        rewrite (encodeCandidate_layout c _ a He) in Hc; discriminate. }
  destruct (encode_spec fp cs Hfp) as [[_ (records' & Hm' & He)]|[Hrej _]];
    [|rewrite (encoded_accepted cs records Hm) in Hrej; discriminate].
  assert (records' = records) by congruence. subst records'.
  exists ([0x51; 0] ++ fp ++ List.concat records). split; [exact He|].
  set (data := [0x51; 0] ++ fp ++ List.concat records).
  assert (Hrec : (7 <= List.length (List.concat records))%nat).
  { destruct cs as [|c cs]; [contradiction|].
    cbn [mapM] in Hm.
    destruct (Encoder.encodeCandidate c) as [r|] eqn:Er; [|discriminate].
    cbn [bind] in Hm.
    destruct (mapM Encoder.encodeCandidate cs) as [rs|]; [|discriminate].
    cbn [bind] in Hm. injection Hm as <-.
    inversion Hall as [|? ? (Hip & _) _]; subst.
    assert (Ha : addressAccepted (ip c) = true).
    { destruct (addressAccepted (ip c)) eqn:Ea; [reflexivity|].
      destruct (encodeCandidate_rejects c Ea) as [m Hr]. congruence. }
    destruct (encodeCandidate_accepts c Ha) as (r' & Er' & Hl).
    assert (r' = r) by congruence. subst r'.
    cbn [List.concat]. rewrite length_app, Hl.
    unfold Encoder.getCandidateSize.
    destruct (Encoder.isMdns _); [lia|]. destruct (Encoder.isIPv6 _); lia. }
  assert (Hlen : List.length data = (34 + List.length (List.concat records))%nat).
  { unfold data. rewrite !length_app, Hfp. reflexivity. }
  unfold Decoder.decode.
  rewrite decode_body.
  2:{ intros [H|[H|H]].
      - lia.
      - apply H. reflexivity.
      - apply H. reflexivity. }
  replace data with (([0x51; 0] ++ fp) ++ List.concat records) at 2
    by (unfold data; now rewrite <- app_assoc).
  replace 34%nat with (List.length ([0x51; 0] ++ fp)) at 1
    by (rewrite length_app, Hfp; reflexivity).
  rewrite (decodeLoop_encoded cs records _ [] (List.length data) Hall Hm ltac:(lia)).
  cbn [bind app].
  pose proof (slice_app_mid [0x51; 0] fp (List.concat records)) as Hs.
  rewrite Hfp in Hs. cbn [List.length Nat.add] in Hs.
  fold data in Hs. rewrite Hs. reflexivity.
Qed.

(** C1 as stated fails: [encode] accepts an IPv6 address written with
    leading zeros, and [decode] prints it in compressed form; and [encode]
    accepts an empty candidate list, whose 34 bytes [decode] rejects as too
    short. *)
Lemma roundtrip_counterexample :
  (exists bytes,
      Encoder.encode TEST_FINGERPRINT
        [mkCandidate "2001:0db8:85a3:0000:0000:8a2e:0370:7334" 54321 host udp None]
      = Ok bytes
      /\ Decoder.decode bytes
         = Ok (mkPacket 0 TEST_FINGERPRINT
                 [mkCandidate "2001:db8:85a3::8a2e:370:7334" 54321 host udp None])
      /\ Decoder.decode bytes
         <> Ok (mkPacket 0 TEST_FINGERPRINT
                  [mkCandidate "2001:0db8:85a3:0000:0000:8a2e:0370:7334"
                     54321 host udp None]))
  /\ (exists bytes msg,
         Encoder.encode TEST_FINGERPRINT [] = Ok bytes
         /\ Decoder.decode bytes = Throw (QWBPDecodeError msg)).
Proof.
  split.
  - eexists. split; [vm_compute; reflexivity|].
    split; [vm_compute; reflexivity|]. vm_compute. discriminate.
  - eexists. eexists. split; vm_compute; reflexivity.
Qed.

(** ** What the decoder prints, the encoder reads back *)

(** *** Strings *)

Lemma append_assoc (a b c : string) : (a +++ b) +++ c = a +++ (b +++ c).
Proof. induction a as [|x a IH]; cbn; [reflexivity|now rewrite IH]. Qed.

Lemma append_nil_r (a : string) : a +++ "" = a.
Proof. induction a as [|x a IH]; cbn; [reflexivity|now rewrite IH]. Qed.

Lemma append_inj_l (a x y : string) : a +++ x = a +++ y -> x = y.
Proof.
  induction a as [|c a IH]; cbn; [auto|]. intros H. injection H as H. auto.
Qed.

Lemma length_append (a b : string) :
  String.length (a +++ b) = (String.length a + String.length b)%nat.
Proof. induction a as [|c a IH]; cbn; [reflexivity|now rewrite IH]. Qed.

Lemma allChars_append p (a b : string) :
  allChars p (a +++ b) = allChars p a && allChars p b.
Proof.
  induction a as [|c a IH]; cbn; [reflexivity|].
  now rewrite IH, andb_assoc.
Qed.

Lemma allChars_impl (p q : ascii -> bool) (s : string) :
  (forall c, p c = true -> q c = true) -> allChars p s = true -> allChars q s = true.
Proof.
  intros Hpq. induction s as [|c s IH]; cbn; [reflexivity|].
  intros H. apply andb_prop in H as [Hc Hs]. now rewrite (Hpq c Hc), IH.
Qed.

Lemma allChars_substring p (s : string) : forall n m,
  allChars p s = true -> allChars p (substring n m s) = true.
Proof.
  induction s as [|c s IH]; intros n m H.
  - destruct n, m; reflexivity.
  - cbn in H. apply andb_prop in H as [Hc Hs].
    destruct n as [|n]; [destruct m as [|m]|]; cbn; auto.
    now rewrite Hc, IH.
Qed.

Lemma substring_append_skip (a b : string) m :
  substring (String.length a) m (a +++ b) = substring 0 m b.
Proof. induction a as [|c a IH]; cbn; auto. Qed.

Lemma substring_all (s : string) : substring 0 (String.length s) s = s.
Proof. induction s as [|c s IH]; cbn; [reflexivity|now rewrite IH]. Qed.

Lemma endsWith_append (a suf : string) : endsWith (a +++ suf) suf = true.
Proof.
  unfold endsWith. rewrite length_append.
  replace (String.length a + String.length suf - String.length suf)%nat
    with (String.length a) by lia.
  rewrite substring_append_skip, substring_all, String.eqb_refl.
  destruct (Nat.leb_spec (String.length suf) (String.length a + String.length suf));
    [reflexivity|lia].
Qed.

(** A text whose characters all satisfy [p] cannot end with, or contain, a
    text that has a character outside [p]. *)
Lemma endsWith_class p (s suf : string) :
  allChars p s = true -> allChars p suf = false -> endsWith s suf = false.
Proof.
  intros Hs Hsuf. unfold endsWith.
  destruct (_ <=? _)%nat; [|reflexivity]. cbn [andb].
  destruct (String.eqb_spec
              (substring (String.length s - String.length suf) (String.length suf) s)
              suf) as [E|]; [|reflexivity].
  rewrite <- E, allChars_substring in Hsuf by assumption. discriminate.
Qed.

Lemma prefix_nil (s : string) : prefix EmptyString s = true.
Proof. now destruct s. Qed.

Lemma prefix_cons_ne c d (p s : string) :
  c <> d -> prefix (String c p) (String d s) = false.
Proof. intros H. cbn. now destruct (ascii_dec c d). Qed.

Lemma prefix_cons_eq c (p s : string) :
  prefix (String c p) (String c s) = prefix p s.
Proof. cbn. now destruct (ascii_dec c c). Qed.

Lemma includes_class p (s : string) c :
  allChars p s = true -> p c = false -> includes s (String c EmptyString) = false.
Proof.
  intros Hs Hc. induction s as [|d s IH]; [reflexivity|].
  cbn [allChars] in Hs. apply andb_prop in Hs as [Hd Hs].
  cbn [includes]. rewrite prefix_cons_ne, IH by (auto; congruence). reflexivity.
Qed.

(** *** [split] on a one-character separator *)

Lemma splitGo_piece sep (t cur rest : string) :
  allChars (fun c => negb (Ascii.eqb sep c)) t = true ->
  splitGo (String sep EmptyString) 0 cur (t +++ rest)
  = splitGo (String sep EmptyString) 0 (cur +++ t) rest.
Proof.
  revert cur. induction t as [|c t IH]; intros cur H.
  - cbn. now rewrite append_nil_r.
  - cbn [allChars] in H. apply andb_prop in H as [Hc Ht].
    apply negb_true_iff, Ascii.eqb_neq in Hc.
    cbn [String.append splitGo]. rewrite prefix_cons_ne by assumption.
    rewrite IH by assumption. now rewrite append_assoc.
Qed.

Lemma splitGo_separator sep (cur rest : string) :
  splitGo (String sep EmptyString) 0 cur (String sep rest)
  = cur :: splitGo (String sep EmptyString) 0 EmptyString rest.
Proof. cbn [splitGo]. rewrite prefix_cons_eq, prefix_nil. reflexivity. Qed.

Lemma split_join sep (parts : list string) :
  parts <> [] ->
  Forall (fun t => allChars (fun c => negb (Ascii.eqb sep c)) t = true) parts ->
  split (join (String sep EmptyString) parts) (String sep EmptyString) = parts.
Proof.
  unfold split, join.
  induction parts as [|t parts IH]; intros Hne Hall; [contradiction|].
  inversion Hall as [|? ? Ht Hparts]; subst.
  destruct parts as [|u parts].
  - cbn [String.concat]. rewrite <- (append_nil_r t) at 1.
    rewrite splitGo_piece by assumption. reflexivity.
  - change (String.concat (String sep "") (t :: u :: parts))
      with (t +++ String sep (String.concat (String sep "") (u :: parts))).
    rewrite splitGo_piece by assumption. cbn [String.append].
    rewrite splitGo_separator. f_equal. apply IH; [discriminate|assumption].
Qed.

(** *** IPv4 *)

Lemma decimal_octet b :
  isByte b ->
  allChars isDigit (toString b 10) = true
  /\ parseInt (toString b 10) 10 = Some b.
Proof.
  intros Hb.
  assert (H : (allChars isDigit (toString b 10)
               && match parseInt (toString b 10) 10 with
                  | Some v => v =? b
                  | None => false
                  end) = true).
  { apply (byte_forall
             (fun b => allChars isDigit (toString b 10)
                       && match parseInt (toString b 10) 10 with
                          | Some v => v =? b
                          | None => false
                          end)); [vm_compute; reflexivity|assumption]. }
  apply andb_prop in H as [H1 H2]. split; [assumption|].
  destruct (parseInt (toString b 10) 10); [|discriminate].
  apply Z.eqb_eq in H2. now subst.
Qed.

(** The dotted text of any four bytes is in printed form. *)
Lemma formatIPv4_printed (bytes : Uint8Array) :
  List.length bytes = 4%nat -> Forall isByte bytes ->
  Encoder.isMdns (Decoder.formatIPv4 bytes) = false
  /\ Encoder.isIPv6 (Decoder.formatIPv4 bytes) = false
  /\ Encoder.parseIPv4 (Decoder.formatIPv4 bytes) = Ok bytes
  /\ printedAs (Decoder.formatIPv4 bytes) = true.
Proof.
  intros Hlen Hbytes.
  destruct bytes as [|a [|b [|c [|d [|]]]]]; try discriminate.
  inversion Hbytes as [|? ? Ha H1]; subst. inversion H1 as [|? ? Hb H2]; subst.
  inversion H2 as [|? ? Hc H3]; subst. inversion H3 as [|? ? Hd _]; subst.
  destruct (decimal_octet a Ha) as [Da Pa]. destruct (decimal_octet b Hb) as [Db Pb].
  destruct (decimal_octet c Hc) as [Dc Pc]. destruct (decimal_octet d Hd) as [Dd Pd].
  set (text := Decoder.formatIPv4 [a; b; c; d]).
  assert (Hdigits : forall s, allChars isDigit s = true ->
                              allChars isDigitOrDot s = true
                              /\ allChars (fun c => negb (Ascii.eqb "." c)) s = true).
  { intros s Hs. split; eapply allChars_impl; try exact Hs; intros x Hx.
    - unfold isDigitOrDot. now rewrite Hx.
    - destruct (Ascii.eqb_spec "." x) as [<-|]; [discriminate|reflexivity]. }
  assert (Hclass : allChars isDigitOrDot text = true).
  { unfold text, Decoder.formatIPv4, join. cbn [map String.concat].
    rewrite !allChars_append.
    rewrite (proj1 (Hdigits _ Da)), (proj1 (Hdigits _ Db)),
      (proj1 (Hdigits _ Dc)), (proj1 (Hdigits _ Dd)). reflexivity. }
  assert (Hmdns : Encoder.isMdns text = false).
  { unfold Encoder.isMdns. now apply (endsWith_class isDigitOrDot). }
  assert (Hv6 : Encoder.isIPv6 text = false).
  { unfold Encoder.isIPv6. now apply (includes_class isDigitOrDot). }
  assert (Hparse : Encoder.parseIPv4 text = Ok [a; b; c; d]).
  { unfold Encoder.parseIPv4.
    replace (split text ".")
      with [toString a 10; toString b 10; toString c 10; toString d 10].
    - cbn [List.length Nat.eqb negb mapM]. unfold Encoder.parseOctet.
      rewrite Pa, Pb, Pc, Pd. unfold isByte in *.
      repeat match goal with
             | |- context [?x <? 0] => destruct (Z.ltb_spec x 0); [lia|]
             | |- context [255 <? ?x] => destruct (Z.ltb_spec 255 x); [lia|]
             end.
      reflexivity.
    - symmetry. apply (split_join "."); [discriminate|].
      repeat constructor; apply Hdigits; assumption. }
  repeat split; try assumption.
  unfold printedAs. rewrite Hmdns, Hv6, Hparse. apply String.eqb_refl.
Qed.

(** *** mDNS *)

Lemma hexPair_facts b :
  isByte b ->
  String.length (hexPair b) = 2%nat
  /\ allChars isLowerHex (hexPair b) = true
  /\ parseInt (hexPair b) 16 = Some b.
Proof.
  intros Hb.
  assert (H : ((String.length (hexPair b) =? 2)%nat
               && allChars isLowerHex (hexPair b)
               && match parseInt (hexPair b) 16 with
                  | Some v => v =? b
                  | None => false
                  end) = true).
  { apply (byte_forall
             (fun b => (String.length (hexPair b) =? 2)%nat
                       && allChars isLowerHex (hexPair b)
                       && match parseInt (hexPair b) 16 with
                          | Some v => v =? b
                          | None => false
                          end)); [vm_compute; reflexivity|assumption]. }
  apply andb_prop in H as [H H3]. apply andb_prop in H as [H1 H2].
  apply Nat.eqb_eq in H1. repeat split; try assumption.
  destruct (parseInt _ 16); [|discriminate]. apply Z.eqb_eq in H3. now subst.
Qed.

(** The hex digits of a byte sequence, two per byte. *)
Lemma join_empty_cons (p : string) (ps : list string) :
  join "" (p :: ps) = p +++ join "" ps.
Proof.
  unfold join. destruct ps as [|q ps]; [cbn; now rewrite append_nil_r|reflexivity].
Qed.

Lemma hex_length (bytes : Uint8Array) :
  Forall isByte bytes ->
  String.length (join "" (map hexPair bytes)) = (2 * List.length bytes)%nat.
Proof.
  induction 1 as [|b bytes Hb _ IH]; [reflexivity|].
  cbn [map]. rewrite join_empty_cons, length_append, IH.
  rewrite (proj1 (hexPair_facts b Hb)). cbn [List.length]. lia.
Qed.

Lemma hex_chars (bytes : Uint8Array) :
  Forall isByte bytes -> allChars isLowerHex (join "" (map hexPair bytes)) = true.
Proof.
  induction 1 as [|b bytes Hb _ IH]; [reflexivity|].
  cbn [map]. rewrite join_empty_cons, allChars_append, IH.
  now rewrite (proj1 (proj2 (hexPair_facts b Hb))).
Qed.

Lemma substring_append_shift (a b : string) n m :
  substring (String.length a + n) m (a +++ b) = substring n m b.
Proof. induction a as [|c a IH]; cbn; auto. Qed.

Lemma substring_append_within (a b : string) m :
  (m <= String.length a)%nat -> substring 0 m (a +++ b) = substring 0 m a.
Proof.
  revert m. induction a as [|c a IH]; intros m H.
  - cbn in H. replace m with 0%nat by lia. now destruct b.
  - destruct m as [|m]; [reflexivity|]. cbn in *. f_equal. apply IH. lia.
Qed.

(** Reading the digits back two by two gives the bytes. *)
Lemma hex_read_back (bytes : Uint8Array) :
  Forall isByte bytes ->
  map (fun i => toUint8 (parseInt (substring (2 * i) 2 (join "" (map hexPair bytes))) 16))
      (seq 0 (List.length bytes))
  = bytes.
Proof.
  induction 1 as [|b bytes Hb Hrest IH]; [reflexivity|].
  destruct (hexPair_facts b Hb) as (Hl & _ & Hp).
  cbn [map List.length seq]. rewrite join_empty_cons. f_equal.
  - cbn [Nat.mul]. rewrite substring_append_within by lia.
    rewrite <- Hl, substring_all, Hp. cbn [toUint8].
    apply Z.mod_small. exact Hb.
  - rewrite <- seq_shift, map_map. rewrite <- IH at 2.
    apply map_ext. intros i.
    replace (2 * S i)%nat with (String.length (hexPair b) + 2 * i)%nat by lia.
    now rewrite substring_append_shift.
Qed.

Lemma substring_split (s : string) : forall a n m,
  substring a n s +++ substring (a + n) m s = substring a (n + m) s.
Proof.
  induction s as [|c s IH]; intros a n m.
  - destruct a, n, m; reflexivity.
  - destruct a as [|a].
    + destruct n as [|n]; [reflexivity|]. cbn. f_equal. apply (IH 0%nat).
    + cbn. apply IH.
Qed.

Lemma removeAll_append c (a b : string) :
  removeAll c (a +++ b) = removeAll c a +++ removeAll c b.
Proof.
  induction a as [|d a IH]; cbn; [reflexivity|].
  destruct (Ascii.eqb c d); cbn; now rewrite IH.
Qed.

Lemma removeAll_absent c (s : string) :
  allChars (fun x => negb (Ascii.eqb c x)) s = true -> removeAll c s = s.
Proof.
  induction s as [|d s IH]; cbn; [reflexivity|].
  intros H. apply andb_prop in H as [Hd Hs]. apply negb_true_iff in Hd.
  now rewrite Hd, IH.
Qed.

Lemma lowerHex_no_dash (s : string) :
  allChars isLowerHex s = true ->
  allChars (fun x => negb (Ascii.eqb "-" x)) s = true.
Proof.
  apply allChars_impl. intros c H.
  destruct (Ascii.eqb_spec "-" c) as [<-|]; [discriminate|reflexivity].
Qed.

Lemma lowerHexOrDash_no_dot (s : string) :
  allChars isLowerHexOrDash s = true ->
  allChars (fun x => negb (Ascii.eqb "." x)) s = true.
Proof.
  apply allChars_impl. intros c H.
  destruct (Ascii.eqb_spec "." c) as [<-|]; [discriminate|reflexivity].
Qed.

Lemma lowerHexOrDash_of_hex (s : string) :
  allChars isLowerHex s = true -> allChars isLowerHexOrDash s = true.
Proof.
  apply allChars_impl. intros c H. unfold isLowerHexOrDash. now rewrite H.
Qed.

(** Replacing a pattern that first occurs at the very end. *)
Lemma replaceFirst_suffix c (pat body rep : string) :
  allChars (fun x => negb (Ascii.eqb c x)) body = true ->
  replaceFirst (body +++ String c pat) (String c pat) rep = body +++ rep.
Proof.
  induction body as [|d body IH]; intros H.
  - cbn [String.append replaceFirst]. rewrite prefix_cons_eq.
    assert (Hp : forall p, prefix p p = true).
    { induction p as [|x p IHp]; [reflexivity|]. now rewrite prefix_cons_eq. }
    rewrite Hp. unfold drop. cbn [String.length].
    rewrite Nat.sub_diag.
    assert (Hs : forall (p : string) n, substring (n + String.length p) 0 p = "").
    { induction p as [|x p IHp]; intros n; cbn.
      - now destruct n.
      - replace (n + S (String.length p))%nat with (S (n + String.length p)) by lia.
        cbn. apply IHp. }
    specialize (Hs (String c pat) 0%nat). cbn [Nat.add String.length] in Hs.
    rewrite Hs. now rewrite append_nil_r.
  - cbn [allChars] in H. apply andb_prop in H as [Hd Hb].
    apply negb_true_iff, Ascii.eqb_neq in Hd.
    cbn [String.append replaceFirst]. rewrite prefix_cons_ne by assumption.
    now rewrite IH.
Qed.

(** The identifier of a printed name is the 32 hex digits of its bytes. *)
Lemma formatMdns_identifier (bytes : Uint8Array) :
  List.length bytes = 16%nat -> Forall isByte bytes ->
  mdnsIdentifier (Decoder.formatMdns bytes) = join "" (map hexPair bytes).
Proof.
  intros Hlen Hbytes. unfold mdnsIdentifier, Decoder.formatMdns.
  fold hexPair.
  change (map (fun b => padStart0 2 (toString b 16)) bytes) with (map hexPair bytes).
  set (hex := join "" (map hexPair bytes)).
  pose proof (hex_chars bytes Hbytes) as Hc. fold hex in Hc.
  pose proof (hex_length bytes Hbytes) as Hl. fold hex in Hl. rewrite Hlen in Hl.
  assert (Hsub : forall a n, allChars isLowerHex (substring a n hex) = true)
    by (intros; now apply allChars_substring).
  replace (substring 0 8 hex +++ "-" +++ substring 8 4 hex +++ "-"
           +++ substring 12 4 hex +++ "-" +++ substring 16 4 hex +++ "-"
           +++ substring 20 12 hex +++ ".local")
    with ((substring 0 8 hex +++ "-" +++ substring 8 4 hex +++ "-"
           +++ substring 12 4 hex +++ "-" +++ substring 16 4 hex +++ "-"
           +++ substring 20 12 hex) +++ ".local")
    by (now rewrite !append_assoc).
  rewrite (replaceFirst_suffix "." "local").
  2:{ apply lowerHexOrDash_no_dot. rewrite !allChars_append.
      rewrite !(lowerHexOrDash_of_hex _ (Hsub _ _)). reflexivity. }
  rewrite append_nil_r, !removeAll_append.
  rewrite !(removeAll_absent "-" _ (lowerHex_no_dash _ (Hsub _ _))).
  cbn [removeAll Ascii.eqb Bool.eqb String.append].
  change (substring 8 4 hex) with (substring (0 + 8) 4 hex).
  rewrite <- append_assoc, substring_split.
  change (substring 12 4 hex) with (substring (0 + (8 + 4)) 4 hex).
  rewrite <- append_assoc, substring_split.
  change (substring 16 4 hex) with (substring (0 + (8 + 4 + 4)) 4 hex).
  rewrite <- append_assoc, substring_split.
  change (substring 20 12 hex) with (substring (0 + (8 + 4 + 4 + 4)) 12 hex).
  rewrite substring_split.
  change (8 + 4 + 4 + 4 + 12)%nat with (2 * 16)%nat. rewrite <- Hl.
  apply substring_all.
Qed.

(** The name printed for any sixteen bytes is read back as those bytes. *)
Lemma formatMdns_printed (bytes : Uint8Array) :
  List.length bytes = 16%nat -> Forall isByte bytes ->
  Encoder.isMdns (Decoder.formatMdns bytes) = true
  /\ Encoder.parseMdnsUUID (Decoder.formatMdns bytes) = Ok bytes
  /\ printedAs (Decoder.formatMdns bytes) = true.
Proof.
  intros Hlen Hbytes.
  assert (Hm : Encoder.isMdns (Decoder.formatMdns bytes) = true).
  { unfold Encoder.isMdns, Decoder.formatMdns.
    rewrite <- !append_assoc. apply endsWith_append. }
  assert (Hparse : Encoder.parseMdnsUUID (Decoder.formatMdns bytes) = Ok bytes).
  { unfold Encoder.parseMdnsUUID.
    fold (mdnsIdentifier (Decoder.formatMdns bytes)).
    rewrite (formatMdns_identifier bytes Hlen Hbytes).
    rewrite (hex_length bytes Hbytes), Hlen. cbn [Nat.mul Nat.add Nat.eqb negb].
    f_equal. rewrite <- Hlen at 1. now apply hex_read_back. }
  repeat split; try assumption.
  unfold printedAs. rewrite Hm, Hparse. apply String.eqb_refl.
Qed.

(** *** IPv6: texts made of groups *)

Lemma join_cons (t : string) (ts : list string) :
  join ":" (t :: ts) = t +++ tailText ts.
Proof.
  unfold join. revert t. induction ts as [|u ts IH]; intros t.
  - cbn. now rewrite append_nil_r.
  - change (String.concat ":" (t :: u :: ts))
      with (t +++ String ":" (String.concat ":" (u :: ts))).
    now rewrite IH.
Qed.

Lemma tailText_app (L R : list string) :
  tailText (L ++ R) = tailText L +++ tailText R.
Proof.
  induction L as [|t L IH]; cbn; [reflexivity|].
  now rewrite IH, append_assoc.
Qed.

Lemma tailText_zeros k : tailText (repeat "0" k) = colonZeros k.
Proof. induction k as [|k IH]; cbn; [reflexivity|now rewrite IH]. Qed.

Lemma lowerHex_not_colon c : isLowerHex c = true -> c <> ":"%char.
Proof. intros H ->. discriminate. Qed.

Lemma groupText_head t :
  groupText t = true ->
  exists c r, t = String c r /\ isLowerHex c = true /\ allChars isLowerHex r = true
              /\ (c = "0"%char -> r = EmptyString).
Proof.
  unfold groupText. intros H.
  apply andb_prop in H as [H H3]. apply andb_prop in H as [H1 _].
  destruct t as [|c r]; [discriminate|]. exists c, r.
  cbn [allChars] in H1. apply andb_prop in H1 as [Hc Hr].
  repeat split; try assumption. intros ->. cbn in H3.
  destruct r; [reflexivity|discriminate].
Qed.

Lemma groupText_chars t : groupText t = true -> allChars isLowerHex t = true.
Proof.
  unfold groupText. intros H.
  apply andb_prop in H as [H _]. now apply andb_prop in H as [H _].
Qed.

Lemma hexColon_of_hex s : allChars isLowerHex s = true -> allChars isHexColon s = true.
Proof.
  apply allChars_impl. intros c H. unfold isHexColon. now rewrite H.
Qed.

Lemma tailText_class ts :
  Forall (fun t => groupText t = true) ts -> allChars isHexColon (tailText ts) = true.
Proof.
  induction 1 as [|t ts Ht _ IH]; [reflexivity|].
  cbn [tailText allChars]. rewrite allChars_append, IH.
  now rewrite (hexColon_of_hex t (groupText_chars t Ht)).
Qed.

Lemma join_class ts :
  Forall (fun t => groupText t = true) ts -> allChars isHexColon (join ":" ts) = true.
Proof.
  intros H. destruct ts as [|t ts]; [reflexivity|].
  inversion H as [|? ? Ht Hts]; subst. rewrite join_cons, allChars_append.
  now rewrite (hexColon_of_hex t (groupText_chars t Ht)), tailText_class.
Qed.

(** *** IPv6: the zero runs that [formatIPv6] finds *)

Lemma colonZeroReps_spec s :
  s = colonZeros (fst (Decoder.colonZeroReps s)) +++ snd (Decoder.colonZeroReps s).
Proof.
  assert (H : forall n s, (String.length s <= n)%nat ->
             s = colonZeros (fst (Decoder.colonZeroReps s))
                 +++ snd (Decoder.colonZeroReps s)).
  { clear s. induction n as [|n IH]; intros s Hn.
    - destruct s; [reflexivity|cbn in Hn; lia].
    - destruct s as [|c [|d r]]; try reflexivity.
      cbn [Decoder.colonZeroReps].
      destruct (Ascii.eqb_spec c ":") as [->|]; [|reflexivity].
      destruct (Ascii.eqb_spec d "0") as [->|]; [|reflexivity].
      cbn [andb]. specialize (IH r ltac:(cbn in Hn; lia)).
      destruct (Decoder.colonZeroReps r) as [k rest]. cbn [fst snd] in *.
      cbn [colonZeros String.append]. now rewrite <- IH. }
  apply (H (String.length s)). lia.
Qed.

Lemma length_colonZeros j : String.length (colonZeros j) = (2 * j)%nat.
Proof. induction j as [|j IH]; cbn; [reflexivity|rewrite IH; lia]. Qed.

Lemma prefix_append (p b : string) : prefix p (p +++ b) = true.
Proof.
  induction p as [|c p IH]; [apply prefix_nil|].
  cbn [String.append]. now rewrite prefix_cons_eq.
Qed.

Lemma prefix_refl (p : string) : prefix p p = true.
Proof. induction p as [|c p IH]; [reflexivity|now rewrite prefix_cons_eq]. Qed.

Lemma prefix_split (p s : string) :
  prefix p s = true -> s = p +++ drop (String.length p) s.
Proof.
  revert s. induction p as [|c p IH]; intros s H.
  - unfold drop. cbn [String.length String.append]. rewrite Nat.sub_0_r.
    now rewrite substring_all.
  - destruct s as [|d s]; [discriminate|].
    cbn in H. destruct (ascii_dec c d) as [<-|]; [|discriminate].
    cbn [String.append String.length]. unfold drop in *.
    cbn [String.length substring Nat.sub]. f_equal. now apply IH.
Qed.

Lemma drop_append (p b : string) : drop (String.length p) (p +++ b) = b.
Proof.
  pose proof (prefix_split p (p +++ b) (prefix_append p b)) as H.
  now apply append_inj_l in H.
Qed.

(** The shape of a match of [0(?::0)+(?::|$)]. *)
Lemma matchZeros_shape s n :
  Decoder.matchZeros s = Some n ->
  exists j c,
    (1 <= j)%nat
    /\ (c = EmptyString \/ c = ":")
    /\ prefix (String "0" (colonZeros j +++ c)) s = true
    /\ n = String.length (String "0" (colonZeros j +++ c)).
Proof.
  unfold Decoder.matchZeros.
  destruct s as [|c0 r]; [discriminate|].
  destruct (Ascii.eqb_spec c0 "0") as [->|]; [|discriminate].
  pose proof (colonZeroReps_spec r) as Hr.
  destruct (Decoder.colonZeroReps r) as [k rest]. cbn [fst snd] in Hr.
  destruct k as [|k']; [discriminate|].
  destruct rest as [|e rest'].
  - intros [= <-]. exists (S k'), EmptyString. split; [lia|]. split; [auto|].
    rewrite Hr at 1. rewrite prefix_cons_eq, !append_nil_r.
    split; [apply prefix_refl|].
    cbn [String.length]. rewrite length_colonZeros. lia.
  - destruct (Ascii.eqb_spec e ":") as [->|].
    + intros [= <-]. exists (S k'), ":". split; [lia|]. split; [auto|].
      rewrite Hr at 1. rewrite prefix_cons_eq.
      split.
      * replace (colonZeros (S k') +++ String ":" rest')
          with ((colonZeros (S k') +++ ":") +++ rest')
          by (now rewrite append_assoc).
        apply prefix_append.
      * cbn [String.length]. rewrite length_append, length_colonZeros.
        cbn [String.length]. lia.
    + destruct k' as [|k'']; [discriminate|].
      intros [= <-]. exists (S k''), ":". split; [lia|]. split; [auto|].
      rewrite Hr at 1. rewrite prefix_cons_eq.
      split.
      * assert (E : forall j x, colonZeros (S j) +++ x
                                = colonZeros j +++ String ":" (String "0" x)).
        { induction j as [|j IHj]; intros x; [reflexivity|].
          cbn [colonZeros String.append] in *. now rewrite <- IHj. }
        rewrite (E (S k'')).
        replace (colonZeros (S k'') +++ String ":" (String "0" (String e rest')))
          with ((colonZeros (S k'') +++ ":") +++ String "0" (String e rest'))
          by (now rewrite append_assoc).
        apply prefix_append.
      * cbn [String.length]. rewrite length_append, length_colonZeros.
        cbn [String.length]. lia.
Qed.

(** A run text: [j + 1] zero groups, colons between them. *)
Lemma zeroRun_join j (R : list string) :
  join ":" (repeat "0" (S j) ++ R) = String "0" (colonZeros j +++ tailText R).
Proof.
  cbn [repeat app]. rewrite join_cons, tailText_app, tailText_zeros. reflexivity.
Qed.

(** Every match that the scan reports is a run text, closed by a colon or
    not; the ones found after the first position begin with a colon, and
    one found at the first position is a prefix of the input. *)
Lemma zeroRunsGo_shape (s : string) : forall skip atStart m,
  In m (Decoder.zeroRunsGo skip atStart s) ->
  exists j c,
    (1 <= j)%nat
    /\ (c = EmptyString \/ c = ":")
    /\ ((atStart = true /\ m = String "0" (colonZeros j +++ c)
         /\ prefix m s = true)
        \/ m = String ":" (String "0" (colonZeros j +++ c))).
Proof.
  induction s as [|a s IH]; intros skip atStart m Hin; [contradiction|].
  cbn [Decoder.zeroRunsGo] in Hin.
  destruct skip as [|skip].
  - assert (Hlater : forall k, In m (Decoder.zeroRunsGo k false s) ->
              exists j c, (1 <= j)%nat /\ (c = EmptyString \/ c = ":")
                          /\ m = String ":" (String "0" (colonZeros j +++ c))).
    { intros k Hk. destruct (IH k false m Hk) as (j & c & Hj & Hc & [(Hf & _)|Hm]);
        [discriminate|eauto]. }
    destruct (Decoder.matchZeroRun atStart (String a s)) as [[|n]|] eqn:Em.
    + destruct (Hlater _ Hin) as (j & c & Hj & Hc & Hm). exists j, c. auto.
    + destruct Hin as [<-|Hin].
      2:{ destruct (Hlater _ Hin) as (j & c & Hj & Hc & Hm). exists j, c. auto. }
      unfold Decoder.matchZeroRun in Em.
      destruct (if atStart then Decoder.matchZeros (String a s) else None)
        as [n0|] eqn:E0.
      * injection Em as ->. destruct atStart; [|discriminate].
        destruct (matchZeros_shape _ _ E0) as (j & c & Hj & Hc & Hp & Hn).
        exists j, c. split; [assumption|]. split; [assumption|]. left.
        pose proof (proj1 (prefix_correct _ _) Hp) as Hsub.
        rewrite <- Hn in Hsub. rewrite Hsub. auto.
      * destruct (Ascii.eqb_spec a ":") as [->|]; [|discriminate].
        destruct (Decoder.matchZeros s) as [n1|] eqn:E1; [|discriminate].
        cbn in Em. injection Em as <-.
        destruct (matchZeros_shape _ _ E1) as (j & c & Hj & Hc & Hp & Hn).
        exists j, c. split; [assumption|]. split; [assumption|]. right.
        pose proof (proj1 (prefix_correct _ _) Hp) as Hsub.
        rewrite <- Hn in Hsub. cbn [substring]. now rewrite Hsub.
    + destruct (Hlater _ Hin) as (j & c & Hj & Hc & Hm). exists j, c. auto.
  - destruct (IH skip false m Hin) as (j & c & Hj & Hc & [(Hf & _)|Hm]);
      [discriminate|]. exists j, c. auto.
Qed.

Lemma longestRun_In (rest : list string) : forall first,
  In (Decoder.longestRun first rest) (first :: rest).
Proof.
  unfold Decoder.longestRun.
  induction rest as [|b rest IH]; intros first; [now left|].
  cbn [fold_left].
  destruct (String.length b <? String.length first)%nat.
  - destruct (IH first) as [H|H]; [left|right; right]; assumption.
  - right. apply IH.
Qed.

(** A run text at the head of a sequence of groups covers whole groups. *)
Lemma zero_run_prefix j : forall (c : string) (ts : list string),
  Forall (fun t => groupText t = true) ts ->
  prefix (String "0" (colonZeros j +++ c)) (join ":" ts) = true ->
  exists R, ts = repeat "0" (S j) ++ R /\ prefix c (tailText R) = true.
Proof.
  induction j as [|j IH]; intros c ts Hts Hp.
  - destruct ts as [|t ts]; [discriminate|].
    inversion Hts as [|? ? Ht Hrest]; subst.
    rewrite join_cons in Hp.
    destruct (groupText_head t Ht) as (c0 & r & -> & _ & _ & Hzero).
    cbn [String.append] in Hp.
    cbn [prefix] in Hp. destruct (ascii_dec "0" c0) as [<-|]; [|discriminate].
    rewrite (Hzero eq_refl) in *. cbn [String.append colonZeros] in Hp.
    exists ts. split; [reflexivity|exact Hp].
  - destruct ts as [|t ts]; [discriminate|].
    inversion Hts as [|? ? Ht Hrest]; subst.
    rewrite join_cons in Hp.
    destruct (groupText_head t Ht) as (c0 & r & -> & _ & _ & Hzero).
    cbn [String.append] in Hp.
    cbn [prefix] in Hp. destruct (ascii_dec "0" c0) as [<-|]; [|discriminate].
    rewrite (Hzero eq_refl) in *. cbn [String.append colonZeros] in Hp.
    destruct ts as [|u ts]; [discriminate|].
    cbn [tailText] in Hp. rewrite prefix_cons_eq in Hp.
    rewrite <- join_cons in Hp.
    destruct (IH c (u :: ts) Hrest Hp) as (R & HR & Hc).
    exists R. split; [|assumption]. cbn [repeat app] in *. now rewrite HR.
Qed.

(** *** IPv6: what the replacement leaves *)

Lemma replaceFirst_head (s pat rep : string) :
  prefix pat s = true ->
  replaceFirst s pat rep = rep +++ drop (String.length pat) s.
Proof. intros H. destruct s; cbn [replaceFirst]; now rewrite H. Qed.

Lemma replaceFirst_skip c0 (t rest p rep : string) :
  allChars (fun x => negb (Ascii.eqb c0 x)) t = true ->
  replaceFirst (t +++ rest) (String c0 p) rep
  = t +++ replaceFirst rest (String c0 p) rep.
Proof.
  induction t as [|d t IH]; intros H; [reflexivity|].
  cbn [allChars] in H. apply andb_prop in H as [Hd Ht].
  apply negb_true_iff, Ascii.eqb_neq in Hd.
  cbn [String.append replaceFirst]. rewrite prefix_cons_ne by assumption.
  now rewrite IH.
Qed.

Lemma groupText_no_colon t :
  groupText t = true -> allChars (fun x => negb (Ascii.eqb ":" x)) t = true.
Proof.
  intros H. eapply allChars_impl; [|exact (groupText_chars t H)].
  intros c Hc. destruct (Ascii.eqb_spec ":" c) as [<-|]; [discriminate|reflexivity].
Qed.

(** What follows a run closed by [c]: the groups [R] behind it. *)
Lemma after_run (c : string) (R : list string) :
  (c = EmptyString \/ c = ":") ->
  prefix c (tailText R) = true ->
  drop (String.length c) (tailText R) = join ":" R
  \/ (R <> [] /\ drop (String.length c) (tailText R) = tailText R).
Proof.
  intros [->| ->] Hp.
  - unfold drop. cbn [String.length]. rewrite Nat.sub_0_r, substring_all.
    destruct R as [|t R]; [now left|]. right. split; [discriminate|reflexivity].
  - destruct R as [|t R]; [discriminate|]. left.
    cbn [tailText]. rewrite join_cons.
    apply (drop_append ":" (t +++ tailText R)).
Qed.

Lemma replace_run_tail j (c : string) :
  forall ts,
    Forall (fun t => groupText t = true) ts ->
    replaceFirst (tailText ts) (String ":" (String "0" (colonZeros j +++ c))) "::"
    = tailText ts
    \/ exists L R,
        ts = L ++ repeat "0" (S j) ++ R
        /\ prefix c (tailText R) = true
        /\ replaceFirst (tailText ts)
             (String ":" (String "0" (colonZeros j +++ c))) "::"
           = tailText L +++ "::" +++ drop (String.length c) (tailText R).
Proof.
  set (m := String ":" (String "0" (colonZeros j +++ c))).
  induction ts as [|t ts IH]; intros Hts; [now left|].
  inversion Hts as [|? ? Ht Hrest]; subst.
  cbn [tailText].
  destruct (prefix m (String ":" (t +++ tailText ts))) eqn:Ep.
  - right. rewrite (replaceFirst_head _ _ _ Ep).
    unfold m in Ep. rewrite prefix_cons_eq, <- join_cons in Ep.
    destruct (zero_run_prefix j c (t :: ts) Hts Ep) as (R & HR & Hc).
    exists [], R. split; [exact HR|]. split; [exact Hc|].
    cbn [tailText String.append]. do 2 f_equal.
    rewrite <- join_cons, HR, zeroRun_join.
    rewrite (prefix_split c (tailText R) Hc) at 1.
    replace (String ":" (String "0" (colonZeros j
               +++ c +++ drop (String.length c) (tailText R))))
      with (m +++ drop (String.length c) (tailText R))
      by (unfold m; cbn [String.append]; now rewrite append_assoc).
    apply drop_append.
  - cbn [replaceFirst]. rewrite Ep. unfold m in *.
    rewrite (replaceFirst_skip ":" t) by now apply groupText_no_colon.
    destruct (IH Hrest) as [Hsame|(L & R & HR & Hc & Hrep)].
    + left. now rewrite Hsame.
    + right. exists (t :: L), R. split; [now rewrite HR|]. split; [exact Hc|].
      rewrite Hrep. cbn [tailText String.append].
      now rewrite append_assoc.
Qed.

Lemma replace_run_forms (ts : list string) (m : string) :
  Forall (fun t => groupText t = true) ts ->
  In m (Decoder.zeroRuns (join ":" ts)) ->
  compressedText ts (replaceFirst (join ":" ts) m "::").
Proof.
  intros Hts Hin.
  destruct (zeroRunsGo_shape _ _ _ _ Hin) as (j & c & Hj & Hc & [(_ & -> & Hp)| ->]).
  - rewrite (replaceFirst_head _ _ _ Hp).
    destruct (zero_run_prefix j c ts Hts Hp) as (R & HR & Hpc).
    replace (drop (String.length (String "0" (colonZeros j +++ c))) (join ":" ts))
      with (drop (String.length c) (tailText R)).
    + apply (ct_run ts [] R (S j)); [lia|exact HR|]. now apply after_run.
    + rewrite HR, zeroRun_join. rewrite (prefix_split c (tailText R) Hpc) at 2.
      replace (String "0" (colonZeros j +++ c +++ drop (String.length c) (tailText R)))
        with (String "0" (colonZeros j +++ c)
              +++ drop (String.length c) (tailText R))
        by (cbn [String.append]; now rewrite append_assoc).
      symmetry. apply drop_append.
  - destruct ts as [|t ts]; [contradiction|].
    inversion Hts as [|? ? Ht Hrest]; subst.
    rewrite join_cons.
    rewrite (replaceFirst_skip ":" t) by now apply groupText_no_colon.
    destruct (replace_run_tail j c ts Hrest) as [Hsame|(L & R & HR & Hpc & Hrep)].
    + rewrite Hsame, <- join_cons. constructor.
    + rewrite Hrep, <- append_assoc, <- join_cons.
      apply (ct_run (t :: ts) (t :: L) R (S j)); [lia|now rewrite HR|].
      now apply after_run.
Qed.

(** *** IPv6: reading a compressed text *)

Lemma hexColon_accepted c : isHexColon c = true -> Encoder.isHexOrColon c = true.
Proof.
  intros H. destruct c as [[] [] [] [] [] [] [] []];
    try reflexivity; discriminate H.
Qed.

Lemma hexColon_not_open c : isHexColon c = true -> "["%char <> c.
Proof. intros H <-. discriminate. Qed.

Lemma stripBrackets_id (s : string) :
  allChars isHexColon s = true -> Encoder.stripBrackets s = s.
Proof.
  intros H. unfold Encoder.stripBrackets, startsWith.
  assert (Hp : prefix "[" s = false).
  { destruct s as [|c s]; [reflexivity|].
    cbn [allChars] in H. apply andb_prop in H as [Hc _].
    apply prefix_cons_ne. now apply hexColon_not_open. }
  rewrite Hp. now rewrite (endsWith_class isHexColon s "]" H).
Qed.

Lemma split_single sep (s : string) :
  allChars (fun c => negb (Ascii.eqb sep c)) s = true ->
  split s (String sep EmptyString) = [s].
Proof.
  intros H. unfold split. rewrite <- (append_nil_r s) at 1.
  now rewrite splitGo_piece.
Qed.

Lemma matchIPv4Mapped_none (s : string) :
  allChars isHexColon s = true -> Encoder.matchIPv4Mapped s = None.
Proof.
  intros H. unfold Encoder.matchIPv4Mapped.
  destruct (String.eqb _ _); [|reflexivity].
  rewrite (split_single "." (drop 7 s)); [reflexivity|].
  unfold drop. eapply allChars_impl; [|apply allChars_substring; exact H].
  intros c Hc. destruct (Ascii.eqb_spec "." c) as [<-|]; [discriminate|reflexivity].
Qed.

Lemma cdc_cons_ne c (s : string) :
  c <> ":"%char ->
  Encoder.countDoubleColon (String c s) = Encoder.countDoubleColon s.
Proof.
  intros H. destruct s as [|d r]; cbn [Encoder.countDoubleColon]; [reflexivity|].
  apply Ascii.eqb_neq in H. now rewrite H.
Qed.

Lemma cdc_colon_ne d (r : string) :
  d <> ":"%char ->
  Encoder.countDoubleColon (String ":" (String d r))
  = Encoder.countDoubleColon (String d r).
Proof.
  intros H. cbn [Encoder.countDoubleColon].
  apply Ascii.eqb_neq in H. now rewrite H, andb_false_r.
Qed.

Lemma cdc_token (t rest : string) :
  allChars isLowerHex t = true ->
  Encoder.countDoubleColon (t +++ rest) = Encoder.countDoubleColon rest.
Proof.
  induction t as [|c t IH]; intros H; [reflexivity|].
  cbn [allChars] in H. apply andb_prop in H as [Hc Ht].
  cbn [String.append]. rewrite cdc_cons_ne by now apply lowerHex_not_colon.
  now apply IH.
Qed.

Lemma cdc_tail (ts : list string) (rest : string) :
  Forall (fun t => groupText t = true) ts ->
  Encoder.countDoubleColon (tailText ts +++ rest) = Encoder.countDoubleColon rest.
Proof.
  induction 1 as [|t ts Ht _ IH]; [reflexivity|].
  destruct (groupText_head t Ht) as (c & r & -> & Hc & Hr & _).
  cbn [tailText String.append].
  rewrite cdc_colon_ne by now apply lowerHex_not_colon.
  rewrite cdc_cons_ne by now apply lowerHex_not_colon.
  rewrite (append_assoc r), (cdc_token r) by assumption. exact IH.
Qed.

Lemma cdc_join (ts : list string) (rest : string) :
  Forall (fun t => groupText t = true) ts ->
  Encoder.countDoubleColon (join ":" ts +++ rest) = Encoder.countDoubleColon rest.
Proof.
  intros H. destruct ts as [|t ts]; [reflexivity|].
  inversion H as [|? ? Ht Hts]; subst.
  rewrite join_cons, (append_assoc t), (cdc_token t) by now apply groupText_chars.
  now apply cdc_tail.
Qed.

Lemma endsWith_append_long (a b suf : string) :
  (String.length suf <= String.length b)%nat ->
  endsWith (a +++ b) suf = endsWith b suf.
Proof.
  intros H. unfold endsWith. rewrite length_append.
  destruct (Nat.leb_spec (String.length suf) (String.length a + String.length b));
    [|lia].
  destruct (Nat.leb_spec (String.length suf) (String.length b)); [|lia].
  replace (String.length a + String.length b - String.length suf)%nat
    with (String.length a + (String.length b - String.length suf))%nat by lia.
  now rewrite substring_append_shift.
Qed.

(** A text that ends with a group does not end with a colon. *)
Lemma endsWith_colon_group (a t : string) :
  groupText t = true -> endsWith (a +++ t) ":" = false.
Proof.
  intros Ht. destruct (groupText_head t Ht) as (c & r & E & _).
  rewrite endsWith_append_long by (rewrite E; cbn; lia).
  apply (endsWith_class isLowerHex); [now apply groupText_chars|reflexivity].
Qed.

Lemma tailText_last (R : list string) :
  R <> [] -> Forall (fun t => groupText t = true) R ->
  exists a t, groupText t = true /\ tailText R = a +++ t.
Proof.
  induction R as [|u R IH]; intros Hne H; [contradiction|].
  inversion H as [|? ? Hu HR]; subst.
  destruct R as [|v R].
  - exists ":", u. split; [assumption|]. cbn. now rewrite append_nil_r.
  - destruct (IH ltac:(discriminate) HR) as (a & t & Ht & E).
    exists (String ":" (u +++ a)), t. split; [assumption|].
    cbn [tailText] in *. rewrite E. cbn [String.append]. now rewrite append_assoc.
Qed.

Lemma splitGo2_char c (cur rest : string) :
  c <> ":"%char ->
  splitGo "::" 0 cur (String c rest) = splitGo "::" 0 (cur +++ String c "") rest.
Proof.
  intros H. cbn [splitGo]. rewrite prefix_cons_ne by congruence. reflexivity.
Qed.

Lemma splitGo2_token (t cur rest : string) :
  allChars isLowerHex t = true ->
  splitGo "::" 0 cur (t +++ rest) = splitGo "::" 0 (cur +++ t) rest.
Proof.
  revert cur. induction t as [|c t IH]; intros cur H.
  - cbn. now rewrite append_nil_r.
  - cbn [allChars] in H. apply andb_prop in H as [Hc Ht].
    cbn [String.append]. rewrite splitGo2_char by now apply lowerHex_not_colon.
    rewrite IH by assumption. now rewrite append_assoc.
Qed.

Lemma splitGo2_colon d (cur r : string) :
  d <> ":"%char ->
  splitGo "::" 0 cur (String ":" (String d r))
  = splitGo "::" 0 (cur +++ ":") (String d r).
Proof.
  intros H. cbn [splitGo]. rewrite prefix_cons_eq, prefix_cons_ne by congruence.
  reflexivity.
Qed.

Lemma splitGo2_tail (ts : list string) : forall cur rest,
  Forall (fun t => groupText t = true) ts ->
  splitGo "::" 0 cur (tailText ts +++ rest)
  = splitGo "::" 0 (cur +++ tailText ts) rest.
Proof.
  induction ts as [|t ts IH]; intros cur rest H.
  - cbn. now rewrite append_nil_r.
  - pose proof (Forall_inv H) as Ht. pose proof (Forall_inv_tail H) as Hts.
    cbv beta in Ht. clear H.
    destruct (groupText_head t Ht) as (c & r & -> & Hc & Hr & _).
    cbn [tailText String.append].
    rewrite splitGo2_colon by now apply lowerHex_not_colon.
    rewrite splitGo2_char by now apply lowerHex_not_colon.
    rewrite (append_assoc r), (splitGo2_token r) by assumption.
    rewrite IH by assumption. f_equal.
    rewrite !append_assoc. reflexivity.
Qed.

Lemma splitGo2_join (ts : list string) (cur rest : string) :
  Forall (fun t => groupText t = true) ts ->
  splitGo "::" 0 cur (join ":" ts +++ rest)
  = splitGo "::" 0 (cur +++ join ":" ts) rest.
Proof.
  intros H. destruct ts as [|t ts].
  - cbn. now rewrite append_nil_r.
  - inversion H as [|? ? Ht Hts]; subst.
    rewrite join_cons, (append_assoc t), (splitGo2_token t)
      by now apply groupText_chars.
    rewrite splitGo2_tail by assumption. now rewrite append_assoc.
Qed.

Lemma splitGo2_separator (cur rest : string) :
  splitGo "::" 0 cur (String ":" (String ":" rest))
  = cur :: splitGo "::" 0 EmptyString rest.
Proof.
  cbn [splitGo]. rewrite !prefix_cons_eq, prefix_nil. reflexivity.
Qed.

Lemma nonEmpty_groups (ts : list string) :
  Forall (fun t => groupText t = true) ts -> filter Encoder.nonEmpty ts = ts.
Proof.
  induction 1 as [|t ts Ht _ IH]; [reflexivity|].
  destruct (groupText_head t Ht) as (c & r & -> & _).
  cbn. now rewrite IH.
Qed.

Lemma groups_no_colon (ts : list string) :
  Forall (fun t => groupText t = true) ts ->
  Forall (fun t => allChars (fun c => negb (Ascii.eqb ":" c)) t = true) ts.
Proof. apply Forall_impl. intros t. apply groupText_no_colon. Qed.

Lemma colonParts_join (L : list string) :
  Forall (fun t => groupText t = true) L ->
  Encoder.colonParts (Some (join ":" L)) = L.
Proof.
  intros H. destruct L as [|t L]; [reflexivity|].
  unfold Encoder.colonParts.
  assert (Hne : Encoder.nonEmpty (join ":" (t :: L)) = true).
  { inversion H as [|? ? Ht _]; subst. rewrite join_cons.
    destruct (groupText_head t Ht) as (c & r & -> & _). reflexivity. }
  rewrite Hne, (split_join ":") by (try discriminate; now apply groups_no_colon).
  now apply nonEmpty_groups.
Qed.

Lemma colonParts_tail (R : list string) :
  R <> [] -> Forall (fun t => groupText t = true) R ->
  Encoder.colonParts (Some (tailText R)) = R.
Proof.
  intros Hne H. destruct R as [|t R]; [contradiction|].
  cbn [tailText]. rewrite <- join_cons.
  unfold Encoder.colonParts. cbn [Encoder.nonEmpty].
  unfold split. rewrite splitGo_separator.
  change (splitGo ":" 0 "" (join ":" (t :: R))) with (split (join ":" (t :: R)) ":").
  rewrite (split_join ":") by (try discriminate; now apply groups_no_colon).
  exact (nonEmpty_groups (t :: R) H).
Qed.

Lemma join_last (ts : list string) :
  ts <> [] -> Forall (fun t => groupText t = true) ts ->
  exists a t, groupText t = true /\ join ":" ts = a +++ t.
Proof.
  intros Hne H. destruct ts as [|u ts]; [contradiction|].
  pose proof (Forall_inv H) as Hu. pose proof (Forall_inv_tail H) as Hts.
  cbv beta in Hu. rewrite join_cons.
  destruct ts as [|v ts].
  - exists EmptyString, u. split; [assumption|]. cbn. now rewrite append_nil_r.
  - destruct (tailText_last (v :: ts) ltac:(discriminate) Hts) as (a & t & Ht & E).
    exists (u +++ a), t. split; [assumption|]. now rewrite E, append_assoc.
Qed.

Lemma compressed_class (ts : list string) (text : string) :
  Forall (fun t => groupText t = true) ts ->
  compressedText ts text -> allChars isHexColon text = true.
Proof.
  intros Hts Hc. destruct Hc as [|L R k x Hk2 E Hx].
  - now apply join_class.
  - subst ts. apply Forall_app in Hts as [HL Hts].
    apply Forall_app in Hts as [_ HR].
    rewrite !allChars_append, (join_class L HL). cbn [allChars andb].
    destruct Hx as [->|[_ ->]]; [now apply join_class|now apply tailText_class].
Qed.

Lemma compressed_valid (ts : list string) (text : string) :
  Forall (fun t => groupText t = true) ts -> ts <> [] ->
  compressedText ts text -> Encoder.isValidIPv6Format text = true.
Proof.
  intros Hts Hne Hc.
  pose proof (compressed_class ts text Hts Hc) as Hclass.
  unfold Encoder.isValidIPv6Format.
  rewrite (stripBrackets_id text Hclass), (matchIPv4Mapped_none text Hclass).
  rewrite (allChars_impl _ _ text hexColon_accepted Hclass), andb_true_r.
  destruct Hc as [|L R k x Hk2 E Hx].
  - destruct (join_last ts Hne Hts) as (a & tl & Htl & Elast).
    destruct ts as [|t ts']; [contradiction|].
    pose proof (Forall_inv Hts) as Ht. cbv beta in Ht.
    destruct (groupText_head t Ht) as (c & r & Et & Hc & _).
    assert (Hcdc : Encoder.countDoubleColon (join ":" (t :: ts')) = 0%nat).
    { rewrite <- (append_nil_r (join ":" (t :: ts'))).
      now rewrite (cdc_join (t :: ts') "" Hts). }
    assert (Hend : endsWith (join ":" (t :: ts')) ":" = false).
    { rewrite Elast. now apply endsWith_colon_group. }
    assert (Hstart : startsWith (join ":" (t :: ts')) ":" = false).
    { rewrite join_cons, Et. cbn [String.append]. unfold startsWith.
      now rewrite prefix_cons_ne by (intros <-; discriminate Hc). }
    assert (Hnon : Encoder.nonEmpty (join ":" (t :: ts')) = true).
    { rewrite join_cons, Et. reflexivity. }
    rewrite Hcdc, Hend, Hstart, Hnon. reflexivity.
  - subst ts. apply Forall_app in Hts as [HL Hts].
    apply Forall_app in Hts as [_ HR].
    assert (Hcdc : Encoder.countDoubleColon (join ":" L +++ "::" +++ x) = 1%nat).
    { rewrite (cdc_join L _ HL). cbn [String.append Encoder.countDoubleColon].
      cbn [Ascii.eqb Bool.eqb andb]. f_equal.
      destruct Hx as [->|[_ ->]].
      - rewrite <- (append_nil_r (join ":" R)). now apply cdc_join.
      - rewrite <- (append_nil_r (tailText R)). now apply cdc_tail. }
    rewrite Hcdc.
    assert (Hne' : Encoder.nonEmpty (join ":" L +++ "::" +++ x) = true).
    { destruct (join ":" L); reflexivity. }
    rewrite Hne'. cbn [negb Nat.ltb Nat.leb].
    assert (Hstart : (startsWith (join ":" L +++ "::" +++ x) ":"
                      && negb (startsWith (join ":" L +++ "::" +++ x) "::")) = false).
    { unfold startsWith. destruct L as [|t L].
      - cbn [join String.concat String.append].
        rewrite !prefix_cons_eq, !prefix_nil. reflexivity.
      - pose proof (Forall_inv HL) as Ht. cbv beta in Ht.
        destruct (groupText_head t Ht) as (c & r & Et & Hc & _).
        rewrite join_cons, Et. cbn [String.append].
        rewrite prefix_cons_ne by (intros <-; discriminate Hc). reflexivity. }
    assert (Hend : (endsWith (join ":" L +++ "::" +++ x) ":"
                    && negb (endsWith (join ":" L +++ "::" +++ x) "::")) = false).
    { destruct R as [|u R].
      - assert (x = EmptyString) as ->
            by (destruct Hx as [->|[Hn _]]; [reflexivity|contradiction]).
        change ("::" +++ "") with "::".
        rewrite (endsWith_append (join ":" L) "::"). now rewrite andb_false_r.
      - assert (Hlast : exists a tl, groupText tl = true /\ x = a +++ tl).
        { destruct Hx as [->|[_ ->]].
          - now apply join_last.
          - now apply tailText_last. }
        destruct Hlast as (a & tl & Htl & ->).
        replace (join ":" L +++ "::" +++ a +++ tl)
          with ((join ":" L +++ "::" +++ a) +++ tl)
          by (now rewrite !append_assoc).
        now rewrite endsWith_colon_group. }
    rewrite Hstart, Hend. reflexivity.
Qed.

(** The two sides that [parseIPv6] cuts a compressed text into. *)
Lemma compressed_sides (L R : list string) (x : string) :
  Forall (fun t => groupText t = true) L ->
  Forall (fun t => groupText t = true) R ->
  x = join ":" R \/ (R <> [] /\ x = tailText R) ->
  split (join ":" L +++ "::" +++ x) "::" = [join ":" L; x]
  /\ Encoder.colonParts (Some (join ":" L)) = L
  /\ Encoder.colonParts (Some x) = R.
Proof.
  intros HL HR Hx. split; [|split].
  - unfold split. rewrite (splitGo2_join L) by assumption.
    cbn [String.append]. rewrite splitGo2_separator. f_equal.
    destruct Hx as [->|[_ ->]].
    + rewrite <- (append_nil_r (join ":" R)) at 1.
      now rewrite (splitGo2_join R).
    + rewrite <- (append_nil_r (tailText R)) at 1.
      now rewrite (splitGo2_tail R).
  - now apply colonParts_join.
  - destruct Hx as [->|[Hne ->]]; [now apply colonParts_join|now apply colonParts_tail].
Qed.

(** [parseIPv6] on a text that [formatIPv6] can leave for eight groups:
    the groups themselves are what the conversion loop reads. *)
Lemma parseIPv6_compressed (ts : list string) (text : string) :
  Forall (fun t => groupText t = true) ts -> List.length ts = 8%nat ->
  compressedText ts text ->
  Encoder.parseIPv6 text
  = (let* pairs := mapM (Encoder.parseGroup text ts) (seq 0 8) in
     Ok (List.concat pairs)).
Proof.
  intros Hts Hlen Hc.
  assert (Hne : ts <> []) by (intros ->; discriminate).
  pose proof (compressed_class ts text Hts Hc) as Hclass.
  pose proof (compressed_valid ts text Hts Hne Hc) as Hvalid.
  unfold Encoder.parseIPv6.
  rewrite (stripBrackets_id text Hclass), Hvalid, (matchIPv4Mapped_none text Hclass).
  cbn [negb].
  destruct Hc as [|L R k x Hk2 E Hx].
  - assert (Hsplit : split (join ":" ts) "::" = [join ":" ts]).
    { unfold split. rewrite <- (append_nil_r (join ":" ts)) at 1.
      rewrite (splitGo2_join ts "" "" Hts). reflexivity. }
    rewrite Hsplit. cbn [List.length Nat.ltb Nat.leb nth_error].
    rewrite (colonParts_join ts Hts), Hlen.
    cbn [List.length Nat.add Nat.ltb Nat.leb Nat.eqb negb andb orb Nat.sub repeat].
    now rewrite !app_nil_r.
  - pose proof Hts as Hall. rewrite E in Hall.
    apply Forall_app in Hall as [HL Hall]. apply Forall_app in Hall as [_ HR].
    destruct (compressed_sides L R x HL HR Hx) as (Hsplit & Hleft & Hright).
    rewrite Hsplit. cbn [List.length nth_error].
    change (2 <? 2)%nat with false. change (1 <? 2)%nat with true.
    change (2 =? 1)%nat with false. cbv iota.
    rewrite Hleft, Hright.
    assert (Hk : (List.length L + List.length R + k = 8)%nat).
    { rewrite E, !length_app, repeat_length in Hlen. lia. }
    destruct (Nat.ltb_spec 8 (List.length L + List.length R)); [lia|].
    cbn [andb orb].
    replace (8 - (List.length L + List.length R))%nat with k by lia.
    now rewrite <- E.
Qed.

(** *** IPv6: sixteen bytes, eight groups *)

Lemma group_reads_back hi lo :
  isByte hi -> isByte lo -> groupReadsBack hi lo = true.
Proof.
  intros Hh Hl. apply (byte_forall2 groupReadsBack); [|assumption|assumption].
  vm_compute. reflexivity.
Qed.

Lemma groupTexts_ok (bytes : Uint8Array) :
  Forall isByte bytes -> Forall (fun t => groupText t = true) (groupTexts bytes).
Proof.
  assert (H : forall n (bytes : Uint8Array), (List.length bytes <= n)%nat ->
             Forall isByte bytes ->
             Forall (fun t => groupText t = true) (groupTexts bytes)).
  { induction n as [|n IH]; intros b Hn Hb.
    - destruct b; [constructor|cbn in Hn; lia].
    - destruct b as [|hi [|lo rest]]; try constructor.
      + pose proof (Forall_inv Hb) as Hh.
        pose proof (Forall_inv (Forall_inv_tail Hb)) as Hl.
        pose proof (group_reads_back hi lo Hh Hl) as G.
        unfold groupReadsBack in G. cbv zeta in G.
        do 4 (apply andb_prop in G as [G _]). exact G.
      + apply IH; [cbn in Hn; lia|].
        exact (Forall_inv_tail (Forall_inv_tail Hb)). }
  intros Hb. now apply (H (List.length bytes)).
Qed.

Lemma length_groupTexts (bytes : Uint8Array) :
  List.length bytes = 16%nat -> List.length (groupTexts bytes) = 8%nat.
Proof.
  intros H. do 17 (destruct bytes as [|? bytes]; try discriminate H). reflexivity.
Qed.

Lemma formatGroups (bytes : Uint8Array) :
  List.length bytes = 16%nat ->
  mapM (Decoder.formatGroup bytes) (seq 0 8) = Ok (groupTexts bytes).
Proof.
  intros H. do 17 (destruct bytes as [|? bytes]; try discriminate H). reflexivity.
Qed.

Lemma parseGroup_reads ip (ts : list string) i hi lo :
  nth_error ts i = Some (toString (Z.lor (Z.shiftl hi 8) lo) 16) ->
  isByte hi -> isByte lo ->
  Encoder.parseGroup ip ts i = Ok [hi; lo].
Proof.
  intros Hn Hh Hl. pose proof (group_reads_back hi lo Hh Hl) as G.
  unfold groupReadsBack in G. cbv zeta in G.
  apply andb_prop in G as [G G5]. apply andb_prop in G as [G G4].
  apply andb_prop in G as [G G3]. apply andb_prop in G as [G1 G2].
  unfold Encoder.parseGroup. rewrite Hn.
  set (t := toString (Z.lor (Z.shiftl hi 8) lo) 16) in *.
  destruct (groupText_head t G1) as (c & r & Et & _).
  assert (Hne : Encoder.nonEmpty t = true) by (rewrite Et; reflexivity).
  rewrite Hne.
  unfold groupText in G1. apply andb_prop in G1 as [G1 _].
  apply andb_prop in G1 as [_ Hlen]. apply Nat.leb_le in Hlen.
  destruct (Nat.ltb_spec 4 (String.length t)); [lia|].
  destruct (parseInt t 16) as [v|]; [|discriminate].
  apply Z.eqb_eq in G2. subst v.
  apply negb_true_iff in G3. rewrite G3.
  apply Z.eqb_eq in G4. apply Z.eqb_eq in G5. now rewrite G4, G5.
Qed.

Lemma parseGroups ip (bytes : Uint8Array) :
  List.length bytes = 16%nat -> Forall isByte bytes ->
  (let* pairs := mapM (Encoder.parseGroup ip (groupTexts bytes)) (seq 0 8) in
   Ok (List.concat pairs)) = Ok bytes.
Proof.
  intros H Hb. do 17 (destruct bytes as [|? bytes]; try discriminate H).
  repeat match goal with
         | Hf : Forall isByte (_ :: _) |- _ =>
             let Hx := fresh "Hx" in
             pose proof (Forall_inv Hf) as Hx;
             apply Forall_inv_tail in Hf
         end.
  cbn [mapM seq groupTexts].
  repeat (erewrite parseGroup_reads; [|reflexivity|assumption|assumption];
          cbn [bind]).
  reflexivity.
Qed.

(** What [formatIPv6] leaves of the eight groups of sixteen bytes. *)
Lemma formatIPv6_compressed (bytes : Uint8Array) :
  List.length bytes = 16%nat -> Forall isByte bytes ->
  exists text,
    Decoder.formatIPv6 bytes = Ok text
    /\ compressedText (groupTexts bytes) text.
Proof.
  intros Hlen Hb.
  pose proof (groupTexts_ok bytes Hb) as Hts.
  unfold Decoder.formatIPv6. rewrite (formatGroups bytes Hlen). cbn [bind].
  destruct (Decoder.zeroRuns (join ":" (groupTexts bytes))) as [|first rest] eqn:Ez.
  - eexists. split; [reflexivity|constructor].
  - eexists. split; [reflexivity|]. apply replace_run_forms; [assumption|].
    rewrite Ez. apply longestRun_In.
Qed.

(** The text printed for any sixteen bytes is read back as those bytes. *)
Lemma formatIPv6_printed (bytes : Uint8Array) :
  List.length bytes = 16%nat -> Forall isByte bytes ->
  exists text,
    Decoder.formatIPv6 bytes = Ok text
    /\ Encoder.isMdns text = false
    /\ Encoder.isIPv6 text = true
    /\ Encoder.parseIPv6 text = Ok bytes
    /\ printedAs text = true.
Proof.
  intros Hlen Hb.
  pose proof (groupTexts_ok bytes Hb) as Hts.
  pose proof (length_groupTexts bytes Hlen) as Hl8.
  destruct (formatIPv6_compressed bytes Hlen Hb) as (text & Hf & Hc).
  set (ts := groupTexts bytes) in *. exists text.
  pose proof (compressed_class ts text Hts Hc) as Hclass.
  assert (Hparse : Encoder.parseIPv6 text = Ok bytes).
  { rewrite (parseIPv6_compressed ts text Hts Hl8 Hc). unfold ts.
    now apply parseGroups. }
  assert (Hm : Encoder.isMdns text = false).
  { unfold Encoder.isMdns. now apply (endsWith_class isHexColon). }
  assert (H6 : Encoder.isIPv6 text = true).
  { unfold Encoder.isIPv6.
    assert (Hinc : forall a b : string, includes (a +++ String ":" b) ":" = true).
    { induction a as [|c a IH]; intros b; cbn [String.append includes].
      - now rewrite prefix_cons_eq, prefix_nil.
      - rewrite IH. apply orb_true_r. }
    destruct Hc as [|L R k x Hk2 E Hx].
    - destruct ts as [|t [|u ts']]; try discriminate Hl8.
      rewrite join_cons. cbn [tailText]. apply Hinc.
    - apply Hinc. }
  repeat split; try assumption.
  unfold printedAs. rewrite Hm, H6, Hparse, Hf. apply String.eqb_refl.
Qed.

(** ** encode after decode *)

Lemma get_byte (data : Uint8Array) i v :
  Forall isByte data -> get data i = Ok v -> isByte v.
Proof.
  intros Hb H. unfold get in H.
  destruct (nth_error data i) as [x|] eqn:E; [|discriminate].
  injection H as <-. rewrite Forall_forall in Hb. apply Hb.
  now apply nth_error_In with i.
Qed.

Lemma slice_bytes (data : Uint8Array) a b :
  Forall isByte data -> Forall isByte (slice data a b).
Proof.
  intros Hb. unfold slice.
  assert (Hs : Forall isByte (skipn a data)).
  { rewrite <- (firstn_skipn a data) in Hb. now apply Forall_app in Hb. }
  rewrite <- (firstn_skipn (b - a) (skipn a data)) in Hs.
  now apply Forall_app in Hs.
Qed.

Lemma Ok_pair_inj {A B} (a a' : A) (b b' : B) :
  Ok (a, b) = Ok (a', b') -> a = a' /\ b = b'.
Proof. intros H. inversion H. now split. Qed.

(** What [decodeCandidate] returns fits the wire format, and the number of
    bytes it reports is the size [encode] reserves for the candidate. *)
Lemma decodeCandidate_wire (data : Uint8Array) o c n :
  Forall isByte data -> Decoder.decodeCandidate data o = Ok (c, n) ->
  wireCandidate c /\ Encoder.getCandidateSize c = n
  /\ (o + n <= List.length data)%nat /\ (7 <= n)%nat.
Proof.
  intros Hb H. unfold Decoder.decodeCandidate in H.
  destruct (Nat.leb_spec (List.length data) o); [discriminate|].
  destruct (get data o) as [flags|] eqn:Ef; [|discriminate]. unfold bind in H.
  destruct (Decoder.decodeAddress data o (Z.land flags 3)) as [[len text]|] eqn:Ea;
    [|discriminate].
  destruct (get data (o + 1 + len)) as [hi|] eqn:Eh; [|discriminate].
  destruct (get data (o + 1 + len + 1)) as [lo|] eqn:El; [|discriminate].
  apply Ok_pair_inj in H as [<- <-].
  pose proof (get_byte _ _ _ Hb Eh) as Hhi. pose proof (get_byte _ _ _ Hb El) as Hlo.
  assert (Haddr : printedAs text = true
                  /\ (if Encoder.isMdns text then 19
                      else if Encoder.isIPv6 text then 19 else 7)%nat
                     = (1 + len + 2)%nat
                  /\ (o + (1 + len + 2) <= List.length data)%nat).
  { unfold Decoder.decodeAddress in Ea.
    destruct (land3_cases flags) as [E|[E|[E|E]]]; rewrite E in Ea.
    - destruct (Nat.ltb_spec (List.length data) (o + 1 + 4 + 2)); [discriminate|].
      injection Ea as <- <-.
      destruct (formatIPv4_printed (slice data (o + 1) (o + 1 + 4)))
        as (Hm & H6 & _ & Hp).
      + rewrite length_slice by lia. lia.
      + now apply slice_bytes.
      + rewrite Hm, H6. repeat split; [assumption|lia].
    - destruct (Nat.ltb_spec (List.length data) (o + 1 + 16 + 2)); [discriminate|].
      destruct (formatIPv6_printed (slice data (o + 1) (o + 1 + 16)))
        as (t & Hf & Hm & H6 & _ & Hp).
      + rewrite length_slice by lia. lia.
      + now apply slice_bytes.
      + rewrite Hf in Ea. cbn [bind] in Ea. injection Ea as <- <-.
        rewrite Hm, H6. repeat split; [assumption|lia].
    - destruct (Nat.ltb_spec (List.length data) (o + 1 + 16 + 2)); [discriminate|].
      injection Ea as <- <-.
      destruct (formatMdns_printed (slice data (o + 1) (o + 1 + 16)))
        as (Hm & _ & Hp).
      + rewrite length_slice by lia. lia.
      + now apply slice_bytes.
      + rewrite Hm. repeat split; [assumption|lia].
    - discriminate. }
  destruct Haddr as (Hp & Hsize & Hfit).
  pose proof (shift_or_bytes hi lo Hhi Hlo) as Hport. unfold isByte in Hhi, Hlo.
  set (p := Z.lor (Z.shiftl hi 8) lo) in *. clearbody p.
  unfold wireCandidate, Encoder.getCandidateSize. cbn [ip port protocol tcpType].
  repeat split; try assumption; try lia.
  - destruct (Z.land (Z.shiftr flags 2) 1 =? 1); intros X;
      [intros Y; discriminate Y|discriminate X].
  - destruct (Z.land (Z.shiftr flags 2) 1 =? 1); intros X;
      [reflexivity|now contradiction X].
  - destruct (Encoder.isMdns text); [lia|]. destruct (Encoder.isIPv6 text); lia.
Qed.

(** The candidates that the loop appends fit the wire format, and their
    sizes add up to the bytes that were left. *)
Lemma decodeLoop_wire (data : Uint8Array) :
  Forall isByte data ->
  forall fuel o acc cs,
    (o <= List.length data)%nat ->
    Decoder.decodeLoop fuel data o acc = Ok cs ->
    exists new,
      cs = acc ++ new /\ Forall wireCandidate new
      /\ list_sum (map Encoder.getCandidateSize new) = (List.length data - o)%nat.
Proof.
  intros Hb. induction fuel as [|fuel IH]; intros o acc cs Ho H;
    cbn [Decoder.decodeLoop] in H;
    destruct (Nat.ltb_spec o (List.length data)) as [Hlt|Hge].
  - discriminate.
  - injection H as <-. exists []. rewrite app_nil_r.
    repeat split; [constructor|cbn; lia].
  - destruct (Decoder.decodeCandidate data o) as [[c n]|] eqn:Ec; [|discriminate].
    cbn [bind] in H.
    destruct (decodeCandidate_wire data o c n Hb Ec) as (Hw & Hsize & Hfit & _).
    destruct (IH (o + n)%nat (acc ++ [c]) cs Hfit H) as (new & -> & Hnew & Hsum).
    exists (c :: new). rewrite <- app_assoc. repeat split.
    + now constructor.
    + change (list_sum (map Encoder.getCandidateSize (c :: new)))
        with (Encoder.getCandidateSize c
              + list_sum (map Encoder.getCandidateSize new))%nat.
      rewrite Hsize, Hsum. lia.
  - injection H as <-. exists []. rewrite app_nil_r.
    repeat split; [constructor|cbn; lia].
Qed.

Lemma records_length cs : forall records,
  mapM Encoder.encodeCandidate cs = Ok records ->
  List.length (List.concat records) = list_sum (map Encoder.getCandidateSize cs).
Proof.
  induction cs as [|c cs IH]; intros records Hm; cbn [mapM] in Hm.
  - injection Hm as <-. reflexivity.
  - destruct (Encoder.encodeCandidate c) as [r|] eqn:Er; [|discriminate].
    cbn [bind] in Hm.
    destruct (mapM Encoder.encodeCandidate cs) as [rs|] eqn:Ers; [|discriminate].
    cbn [bind] in Hm. injection Hm as <-.
    assert (Ha : addressAccepted (ip c) = true).
    { destruct (addressAccepted (ip c)) eqn:Ea; [reflexivity|].
      destruct (encodeCandidate_rejects c Ea) as [m Hr]. congruence. }
    destruct (encodeCandidate_accepts c Ha) as (r' & Er' & Hl).
    assert (r' = r) by congruence. subst r'.
    change (list_sum (map Encoder.getCandidateSize (c :: cs)))
      with (Encoder.getCandidateSize c
            + list_sum (map Encoder.getCandidateSize cs))%nat.
    cbn [List.concat]. rewrite length_app, Hl, (IH rs eq_refl).
    reflexivity.
Qed.

Lemma wire_accepted c : wireCandidate c -> addressAccepted (ip c) = true.
Proof.
  intros (Hip & _).
  destruct (addressAccepted (ip c)) eqn:Ea; [reflexivity|].
  destruct (encodeCandidate_rejects c Ea) as [m Hr].
  destruct (encodeAddress_printed c Hip)
    as [(a & He & _)|[(a & He & _)|(a & He & _)]];
    rewrite (encodeCandidate_layout c _ a He) in Hr; discriminate.
Qed.

Lemma candidateSize_min c : (7 <= Encoder.getCandidateSize c)%nat.
Proof.
  unfold Encoder.getCandidateSize.
  destruct (Encoder.isMdns _); [lia|]. destruct (Encoder.isIPv6 _); lia.
Qed.

(** [encode] then [decode], for candidates that fit the wire format. *)
Lemma roundtrip_wire (fp : Uint8Array) (cs : list QWBPCandidate) :
  List.length fp = 32%nat -> cs <> [] -> Forall wireCandidate cs ->
  exists bytes,
    Encoder.encode fp cs = Ok bytes
    /\ Decoder.decode bytes = Ok (mkPacket 0 fp cs)
    /\ List.length bytes = (34 + list_sum (map Encoder.getCandidateSize cs))%nat.
Proof.
  intros Hfp Hne Hall.
  assert (Hacc : forallb (fun c => addressAccepted (ip c)) cs = true).
  { apply forallb_forall. intros c Hin. rewrite Forall_forall in Hall.
    apply wire_accepted. now apply Hall. }
  destruct (encode_spec fp cs Hfp) as [[_ (records & Hm & He)]|[Hrej _]];
    [|rewrite Hacc in Hrej; discriminate].
  pose proof (records_length cs records Hm) as Hrl.
  exists ([0x51; 0] ++ fp ++ List.concat records).
  set (data := [0x51; 0] ++ fp ++ List.concat records).
  assert (Hlen : List.length data = (34 + List.length (List.concat records))%nat).
  { unfold data. rewrite !length_app, Hfp. reflexivity. }
  assert (Hrec : (7 <= List.length (List.concat records))%nat).
  { rewrite Hrl. destruct cs as [|c cs]; [contradiction|].
    change (list_sum (map Encoder.getCandidateSize (c :: cs)))
      with (Encoder.getCandidateSize c
            + list_sum (map Encoder.getCandidateSize cs))%nat.
    pose proof (candidateSize_min c). lia. }
  split; [exact He|]. split; [|now rewrite Hlen, Hrl].
  unfold Decoder.decode. rewrite decode_body.
  2:{ intros [H|[H|H]]; [lia|apply H; reflexivity|apply H; reflexivity]. }
  replace data with (([0x51; 0] ++ fp) ++ List.concat records) at 2
    by (unfold data; now rewrite <- app_assoc).
  replace 34%nat with (List.length ([0x51; 0] ++ fp)) at 1
    by (rewrite length_app, Hfp; reflexivity).
  rewrite (decodeLoop_written cs records _ [] (List.length data) Hall Hm ltac:(lia)).
  cbn [bind app].
  pose proof (slice_app_mid [0x51; 0] fp (List.concat records)) as Hs.
  rewrite Hfp in Hs. cbn [List.length Nat.add] in Hs.
  fold data in Hs. rewrite Hs. reflexivity.
Qed.

(** What [decode] needs of the header is what [isValidPacket] tests. *)
Lemma isValidPacket_header (data : Uint8Array) :
  Decoder.isValidPacket data = true
  <-> ~ ((List.length data < 41)%nat \/ nth 0 data 0 <> 0x51
         \/ Z.land (nth 1 data 0) 7 <> 0).
Proof.
  unfold Decoder.isValidPacket, MIN_PACKET_SIZE, HEADER_SIZE, FINGERPRINT_SIZE,
    MAGIC_BYTE.
  cbn [Nat.add].
  destruct (Nat.ltb_spec (List.length data) 41).
  - split; [discriminate|]. intros X. exfalso. apply X. now left.
  - destruct (Z.eqb_spec (nth 0 data 0) 81); cbn [negb].
    + destruct (Z.eqb_spec (Z.land (nth 1 data 0) 7) 0); cbn [negb].
      * split; [|reflexivity]. intros _ [X|[X|X]]; [lia|now apply X|now apply X].
      * split; [discriminate|]. intros X. exfalso. apply X. now right; right.
    + split; [discriminate|]. intros X. exfalso. apply X. now right; left.
Qed.

(** The packet that [decode] returns, read off the bytes. *)
Lemma decode_packet (data : Uint8Array) (p : QWBPPacket) :
  Forall isByte data -> Decoder.decode data = Ok p ->
  Decoder.isValidPacket data = true
  /\ p = mkPacket 0 (slice data 2 34) (candidates p)
  /\ List.length (slice data 2 34) = 32%nat
  /\ candidates p <> []
  /\ Forall wireCandidate (candidates p)
  /\ (34 + list_sum (map Encoder.getCandidateSize (candidates p)))%nat
     = List.length data.
Proof.
  intros Hb H.
  destruct (header_dec data) as [Hbad|Hgood].
  { destruct (decode_header data (List.length data) Hbad) as [m Hm].
    unfold Decoder.decode in H. congruence. }
  unfold Decoder.decode in H. rewrite (decode_body data _ Hgood) in H.
  destruct (Decoder.decodeLoop (List.length data) data 34 []) as [cs|] eqn:El;
    [|discriminate].
  cbn [bind] in H. injection H as <-. cbn [candidates].
  assert (H41 : (41 <= List.length data)%nat).
  { destruct (Nat.ltb_spec (List.length data) 41); [|assumption].
    exfalso. apply Hgood. now left. }
  destruct (decodeLoop_wire data Hb _ 34%nat [] cs ltac:(lia) El)
    as (new & -> & Hnew & Hsum).
  cbn [app]. split; [now apply isValidPacket_header|].
  split; [reflexivity|]. split; [rewrite length_slice; lia|].
  split; [|split; [assumption|lia]].
  intros ->. cbn in Hsum. lia.
Qed.

(** ** encode: the addresses it accepts, described by their shape *)





(** *** IPv4 and mDNS *)



(** *** IPv6: brackets and the IPv4-mapped form *)





(** *** IPv6: the format check *)




(** *** IPv6: the numbers of the IPv4-mapped form *)







(** *** IPv6: the groups *)





(** *** The three families together *)






(** ** buildCandidateString *)

(** What [buildCandidateString] appends after [typ srflx]. *)
Lemma buildCandidateString_srflx {SC : SubtleCrypto} (c : QWBPCandidate) :
  type c = srflx ->
  Sdp.buildCandidateString c
  = (("candidate:"
      +++ Sdp.generateFoundation srflx (protocol c) (ip c) (port c)
      +++ " 1 " +++ Sdp.protocolName (protocol c)
      +++ " " +++ toString SRFLX 10 +++ " " +++ ip c
      +++ " " +++ toString (port c) 10 +++ " typ srflx")
     +++ " raddr " +++ ip c +++ " rport " +++ toString (port c) 10)
    +++ match protocol c, tcpType c with
        | tcp, Some t => " tcptype " +++ Sdp.tcpTypeName t
        | _, _ => ""
        end.
Proof.
  intros Ht. unfold Sdp.buildCandidateString. rewrite Ht.
  destruct (protocol c), (tcpType c); rewrite ?append_nil_r; reflexivity.
Qed.

(** C4 on the code: for the server-reflexive candidate 203.0.113.50:54322
    over udp, [buildCandidateString] ends the line with the candidate's own
    address and port, [raddr 203.0.113.50 rport 54322], and not with the
    placeholder [raddr 0.0.0.0 rport 9]. *)
Theorem buildCandidateString_srflx_own_address {SC : SubtleCrypto} :
  let c := mkCandidate "203.0.113.50" 54322 srflx udp None in
  let line :=
    "candidate:" +++ Sdp.generateFoundation srflx udp "203.0.113.50" 54322
    +++ " 1 udp 1686052607 203.0.113.50 54322 typ srflx" in
  Sdp.buildCandidateString c = line +++ " raddr 203.0.113.50 rport 54322"
  /\ Sdp.buildCandidateString c <> line +++ " raddr 0.0.0.0 rport 9".
Proof.
  cbv zeta.
  assert (E : Sdp.buildCandidateString
                (mkCandidate "203.0.113.50" 54322 srflx udp None)
              = ("candidate:"
                 +++ Sdp.generateFoundation srflx udp "203.0.113.50" 54322
                 +++ " 1 udp 1686052607 203.0.113.50 54322 typ srflx")
                +++ " raddr 203.0.113.50 rport 54322").
  { rewrite buildCandidateString_srflx by reflexivity.
    cbn [protocol ip port tcpType Sdp.protocolName].
    replace (toString SRFLX 10) with "1686052607" by (vm_compute; reflexivity).
    replace (toString 54322 10) with "54322" by (vm_compute; reflexivity).
    rewrite append_nil_r, !append_assoc. reflexivity. }
  split; [exact E|].
  rewrite E. intros H. apply append_inj_l in H. discriminate.
Qed.

(** ** processScannedPayload *)

Lemma lexCompare_refl a : lexCompare a a = 0.
Proof. induction a as [|x a IH]; cbn; [reflexivity|]. now rewrite Z.ltb_irrefl. Qed.

Lemma deriveCredentials_ok {SC : SubtleCrypto} (f : Uint8Array) :
  List.length f = 32%nat ->
  exists credentials, Crypto.deriveCredentials f = Ok credentials.
Proof.
  intros Hlen. unfold Crypto.deriveCredentials. rewrite Hlen.
  cbn [Nat.eqb negb]. eauto.
Qed.

(** C3, as the code has it: a session in state Displaying or ScannedOne
    that has no peer recorded and whose local fingerprint is the 32-byte
    [f], given a valid packet whose fingerprint is [f], raises the
    self-connection error; afterwards its connection state is unchanged and
    its assigned role is still what it was (unset before negotiation). *)
Theorem processScannedPayload_self_scan {SC : SubtleCrypto} {T : Transport}
  (c : Connection.QWBPConnection) (data : Uint8Array) (packet : QWBPPacket)
  (f : Uint8Array) :
  Connection.inScanState (Connection.state c) = true ->
  Connection.remoteInfo c = None ->
  Connection.localFingerprint c = Some f ->
  List.length f = 32%nat ->
  Decoder.isValidPacket data = true ->
  Decoder.decode data = Ok packet ->
  fingerprint packet = f ->
  exists c',
    Connection.processScannedPayload c data = (c', Throw QWBPSelfConnectionError)
    /\ Connection.connectionState c' = Connection.connectionState c
    /\ Connection.assignedRole c' = Connection.assignedRole c.
Proof.
  intros Hstate Hremote Hlocal Hlen Hvalid Hdec Hfp.
  destruct (deriveCredentials_ok f Hlen) as [credentials Hcred].
  exists (Connection.setRemoteInfo c (mkPeerInfo f (candidates packet) credentials)).
  split; [|split; reflexivity].
  unfold Connection.processScannedPayload.
  rewrite Hstate, Hremote, Hvalid, Hdec, Hfp, Hcred. cbn [negb].
  cbn [Connection.setRemoteInfo Connection.localFingerprint]. rewrite Hlocal.
  rewrite (compareFingerprints_lex f f Hlen Hlen), lexCompare_refl.
  reflexivity.
Qed.

(** C3 as stated fails in state ScannedOne: the peer is recorded by then,
    and a packet with the session's own fingerprint is refused as "Peer
    already scanned", a plain connection error, with nothing changed. *)
Lemma self_scan_after_peer_counterexample :
  Connection.inScanState (Connection.state scannedSession) = true
  /\ Connection.localFingerprint scannedSession = Some TEST_FINGERPRINT
  /\ Decoder.isValidPacket selfPayload = true
  /\ Decoder.decode selfPayload
     = Ok (mkPacket 0 TEST_FINGERPRINT TEST_PEER_CANDIDATES)
  /\ Connection.processScannedPayload (SC := toyCrypto) (T := readyTransport)
       scannedSession selfPayload
     = (scannedSession,
        Throw (QWBPConnectionError "Peer already scanned" ScannedOne))
  /\ snd (Connection.processScannedPayload (SC := toyCrypto) (T := readyTransport)
            scannedSession selfPayload)
     <> Throw QWBPSelfConnectionError.
Proof.
  repeat split; try reflexivity. cbn. discriminate.
Qed.

(** Where the self-connection error is raised, the packet has already been
    stored as the peer: the next scan is refused. *)
Lemma processScannedPayload_self_scan_stores_peer
  {SC : SubtleCrypto} {T : Transport}
  (c : Connection.QWBPConnection) (data : Uint8Array) (packet : QWBPPacket)
  (f : Uint8Array) :
  Connection.inScanState (Connection.state c) = true ->
  Connection.remoteInfo c = None ->
  Connection.localFingerprint c = Some f ->
  List.length f = 32%nat ->
  Decoder.isValidPacket data = true ->
  Decoder.decode data = Ok packet ->
  fingerprint packet = f ->
  exists credentials c',
    Crypto.deriveCredentials f = Ok credentials
    /\ Connection.processScannedPayload c data = (c', Throw QWBPSelfConnectionError)
    /\ Connection.remoteInfo c'
       = Some (mkPeerInfo f (candidates packet) credentials)
    /\ forall data',
         Connection.processScannedPayload c' data'
         = (c', Throw (QWBPConnectionError "Peer already scanned"
                         (Connection.state c))).
Proof.
  intros Hstate Hremote Hlocal Hlen Hvalid Hdec Hfp.
  destruct (deriveCredentials_ok f Hlen) as [credentials Hcred].
  exists credentials,
    (Connection.setRemoteInfo c (mkPeerInfo f (candidates packet) credentials)).
  split; [exact Hcred|].
  split.
  { unfold Connection.processScannedPayload.
    rewrite Hstate, Hremote, Hvalid, Hdec, Hfp, Hcred. cbn [negb].
    cbn [Connection.setRemoteInfo Connection.localFingerprint]. rewrite Hlocal.
    rewrite (compareFingerprints_lex f f Hlen Hlen), lexCompare_refl.
    reflexivity. }
  split; [reflexivity|].
  intros data'. unfold Connection.processScannedPayload.
  cbn [Connection.setRemoteInfo Connection.state Connection.remoteInfo].
  now rewrite Hstate.
Qed.

(** ** Further properties of the wire format *)

(** X1: the dotted text that [formatIPv4] prints for any four bytes is read
    back by [parseIPv4] as the same four bytes, and is classified as
    neither an mDNS name nor an IPv6 address. *)
Theorem formatIPv4_roundtrip (bytes : Uint8Array) :
  List.length bytes = 4%nat -> Forall isByte bytes ->
  Encoder.parseIPv4 (Decoder.formatIPv4 bytes) = Ok bytes
  /\ Encoder.isMdns (Decoder.formatIPv4 bytes) = false
  /\ Encoder.isIPv6 (Decoder.formatIPv4 bytes) = false.
Proof.
  intros Hlen Hb.
  destruct (formatIPv4_printed bytes Hlen Hb) as (Hm & H6 & Hp & _).
  now repeat split.
Qed.

(** X2: the host name that [formatMdns] prints for any sixteen bytes ends
    in .local, and [parseMdnsUUID] reads the same sixteen bytes back from
    it. *)
Theorem formatMdns_roundtrip (bytes : Uint8Array) :
  List.length bytes = 16%nat -> Forall isByte bytes ->
  Encoder.parseMdnsUUID (Decoder.formatMdns bytes) = Ok bytes
  /\ Encoder.isMdns (Decoder.formatMdns bytes) = true.
Proof.
  intros Hlen Hb.
  destruct (formatMdns_printed bytes Hlen Hb) as (Hm & Hp & _).
  now split.
Qed.

(** X3: for any sixteen bytes [formatIPv6] returns a text that [parseIPv6]
    reads back as the same sixteen bytes, that holds a colon and does not
    end in .local, and that [isValidIPv6Format] accepts.  The bytes make
    eight groups, each of one to four lowercase hex digits without a
    leading zero; the text is these groups joined by colons, or these
    groups with one run of two or more groups "0" replaced by "::", where a
    colon before the groups after the run may remain. *)
Theorem formatIPv6_roundtrip (bytes : Uint8Array) :
  List.length bytes = 16%nat -> Forall isByte bytes ->
  exists text,
    Decoder.formatIPv6 bytes = Ok text
    /\ Encoder.parseIPv6 text = Ok bytes
    /\ Encoder.isIPv6 text = true
    /\ Encoder.isMdns text = false
    /\ Encoder.isValidIPv6Format text = true
    /\ List.length (groupTexts bytes) = 8%nat
    /\ Forall (fun t => groupText t = true) (groupTexts bytes)
    /\ compressedText (groupTexts bytes) text.
Proof.
  intros Hlen Hb.
  pose proof (groupTexts_ok bytes Hb) as Hts.
  pose proof (length_groupTexts bytes Hlen) as Hl8.
  destruct (formatIPv6_compressed bytes Hlen Hb) as (text & Hf & Hc).
  destruct (formatIPv6_printed bytes Hlen Hb) as (text' & Hf' & Hm & H6 & Hp & _).
  assert (text' = text) by congruence. subst text'.
  assert (Hne : groupTexts bytes <> []).
  { intros E. rewrite E in Hl8. discriminate Hl8. }
  exists text. repeat split; try assumption.
  exact (compressed_valid (groupTexts bytes) text Hts Hne Hc).
Qed.

(** X4: whatever packet [decode] returns for an array of bytes, [encode]
    accepts its fingerprint and candidates, the bytes it writes are as many
    as were read, and [decode] reads the same packet from them. *)
Theorem decode_reencode (data : Uint8Array) (p : QWBPPacket) :
  Forall isByte data -> Decoder.decode data = Ok p ->
  exists bytes,
    Encoder.encode (fingerprint p) (candidates p) = Ok bytes
    /\ Decoder.decode bytes = Ok p
    /\ List.length bytes = List.length data.
Proof.
  intros Hb H.
  destruct (decode_packet data p Hb H) as (_ & Hp & Hfp & Hne & Hw & Hsum).
  destruct (roundtrip_wire (slice data 2 34) (candidates p) Hfp Hne Hw)
    as (bytes & He & Hd & Hl).
  exists bytes. rewrite Hp. cbn [fingerprint candidates].
  rewrite <- Hp. repeat split; try assumption.
  - now rewrite Hd, <- Hp.
  - now rewrite Hl.
Qed.

(** X5: a packet that [decode] returns has version 0, a fingerprint of 32
    bytes cut from offsets 2..33, and at least one candidate; every
    candidate has a port in 0..65535 and an address in the decoder's
    printed form, carries a tcp subtype exactly when its protocol is tcp,
    and the sizes of the candidates add up to the bytes after the
    fingerprint.  [isValidPacket] accepts every array that [decode]
    accepts. *)
Theorem decode_wellformed (data : Uint8Array) (p : QWBPPacket) :
  Forall isByte data -> Decoder.decode data = Ok p ->
  Decoder.isValidPacket data = true
  /\ version p = 0
  /\ fingerprint p = slice data 2 34
  /\ List.length (fingerprint p) = 32%nat
  /\ candidates p <> []
  /\ Forall wireCandidate (candidates p)
  /\ (34 + list_sum (map Encoder.getCandidateSize (candidates p)))%nat
     = List.length data.
Proof.
  intros Hb H.
  destruct (decode_packet data p Hb H) as (Hv & Hp & Hfp & Hne & Hw & Hsum).
  rewrite Hp at 1 2 3. cbn [version fingerprint].
  repeat split; assumption.
Qed.

(** X6: the bytes that [encode] returns are the two header bytes 0x51 and
    0x00, the fingerprint, and the records of the candidates in order;
    their number is 34 plus the sizes [getCandidateSize] gives; and
    [isValidPacket] accepts them exactly when there is at least one
    candidate. *)
Theorem encode_layout (fp : Uint8Array) (cs : list QWBPCandidate)
  (bytes : Uint8Array) :
  Encoder.encode fp cs = Ok bytes ->
  (exists records,
      mapM Encoder.encodeCandidate cs = Ok records
      /\ bytes = [0x51; 0x00] ++ fp ++ List.concat records)
  /\ List.length bytes
     = (34 + list_sum (map Encoder.getCandidateSize cs))%nat
  /\ (Decoder.isValidPacket bytes = true <-> cs <> []).
Proof.
  intros H.
  assert (Hfp : List.length fp = 32%nat).
  { destruct (Nat.eqb_spec (List.length fp) 32) as [E|E]; [assumption|].
    unfold Encoder.encode in H. apply Nat.eqb_neq in E.
    unfold FINGERPRINT_SIZE in H. rewrite E in H. discriminate. }
  destruct (encode_spec fp cs Hfp) as [[_ (records & Hm & He)]|[_ [msg He]]];
    [|congruence].
  assert (bytes = [0x51; 0] ++ fp ++ List.concat records) by congruence.
  subst bytes. pose proof (records_length cs records Hm) as Hrl.
  assert (Hlen : List.length ([0x51; 0] ++ fp ++ List.concat records)
                 = (34 + list_sum (map Encoder.getCandidateSize cs))%nat).
  { rewrite !length_app, Hfp, Hrl. reflexivity. }
  split; [exists records; now split|]. split; [assumption|].
  rewrite isValidPacket_header, Hlen. cbn [app nth].
  split.
  - intros Hv ->. apply Hv. left. cbn. lia.
  - intros Hne [Hs|[Hs|Hs]].
    + destruct cs as [|c cs]; [contradiction|].
      change (list_sum (map Encoder.getCandidateSize (c :: cs)))
        with (Encoder.getCandidateSize c
              + list_sum (map Encoder.getCandidateSize cs))%nat in Hs.
      pose proof (candidateSize_min c). lia.
    + now apply Hs.
    + now apply Hs.
Qed.

(** ** Sessions: scanning, roles and the verification code *)

Lemma decode_valid (data : Uint8Array) (p : QWBPPacket) :
  Decoder.decode data = Ok p -> Decoder.isValidPacket data = true.
Proof.
  intros H. apply isValidPacket_header. intros Hbad.
  destruct (decode_header data (List.length data) Hbad) as [m Hm].
  unfold Decoder.decode in H. congruence.
Qed.

Lemma compare_differs (fa fb : Uint8Array) :
  List.length fa = 32%nat -> List.length fb = 32%nat -> fa <> fb ->
  Crypto.compareFingerprints fa fb <> 0.
Proof.
  intros Ha Hb Hne H. rewrite compareFingerprints_lex in H by assumption.
  apply Hne. apply lexCompare_eq; [lia|assumption].
Qed.

Lemma compare_flip (fa fb : Uint8Array) :
  List.length fa = 32%nat -> List.length fb = 32%nat ->
  Crypto.compareFingerprints fb fa = - Crypto.compareFingerprints fa fb.
Proof.
  intros Ha Hb. rewrite !compareFingerprints_lex by assumption.
  apply lexCompare_antisym.
Qed.

(** The whole of a first scan of a readable payload of another device. *)
Lemma scan_outcome {SC : SubtleCrypto} {T : Transport}
  (c : Connection.QWBPConnection) (fa : Uint8Array) (data : Uint8Array)
  (p : QWBPPacket) (creds : IceCredentials) :
  Connection.inScanState (Connection.state c) = true ->
  Connection.remoteInfo c = None ->
  Connection.localFingerprint c = Some fa ->
  Connection.localCredentials c <> None ->
  Connection.pc c = true ->
  Decoder.decode data = Ok p ->
  Crypto.deriveCredentials (fingerprint p) = Ok creds ->
  Crypto.compareFingerprints fa (fingerprint p) <> 0 ->
  let r := if 0 <? Crypto.compareFingerprints fa (fingerprint p)
           then Offerer else Answerer in
  let info := mkPeerInfo (fingerprint p) (candidates p) creds in
  Connection.processScannedPayload c data
  = (if negotiate r info
     then Connection.mkConnection true Connecting (Some fa)
            (Connection.localCredentials c) (Connection.localCandidates c)
            (Some info) (Some r) (Connection.reported c)
     else Connection.mkConnection true Failed (Some fa)
            (Connection.localCredentials c) (Connection.localCandidates c)
            (Some info) (Some r)
            (PlainError "transport failure" :: Connection.reported c),
     Ok tt).
Proof.
  intros Hst Hri Hfp Hcr Hpc Hd Hder Hcmp r info.
  destruct c as [pc0 st lf lc cands ri ro rep].
  cbn [Connection.state Connection.remoteInfo Connection.localFingerprint
       Connection.localCredentials Connection.pc Connection.localCandidates
       Connection.reported] in *.
  subst ri lf pc0. destruct lc as [lc|]; [|contradiction].
  apply Z.eqb_neq in Hcmp.
  unfold Connection.processScannedPayload.
  cbn [Connection.state Connection.remoteInfo]. rewrite Hst. cbn [negb].
  rewrite (decode_valid data p Hd), Hd, Hder. cbn [negb].
  unfold Connection.setRemoteInfo.
  cbn [Connection.state Connection.remoteInfo Connection.localFingerprint
       Connection.localCredentials Connection.pc Connection.localCandidates
       Connection.reported Connection.role].
  rewrite Hcmp.
  assert (Hstep : forall st',
             Connection.tryEstablishConnection
               (Connection.mkConnection true st' (Some fa) (Some lc) cands
                  (Some info) ro rep)
             = if negotiate r info
               then Connection.mkConnection true Connecting (Some fa) (Some lc)
                      cands (Some info) (Some r) rep
               else Connection.mkConnection true Failed (Some fa) (Some lc)
                      cands (Some info) (Some r)
                      (PlainError "transport failure" :: rep)).
  { intros st'. unfold Connection.tryEstablishConnection.
    cbn [Connection.state Connection.remoteInfo Connection.localFingerprint
         Connection.localCredentials Connection.pc Connection.localCandidates
         Connection.reported Connection.role peerFingerprint].
    unfold info at 1. cbn [peerFingerprint]. rewrite Hcmp.
    fold r. fold info.
    unfold Connection.setRole, Connection.setState, Connection.handleError.
    cbn [Connection.state Connection.remoteInfo Connection.localFingerprint
         Connection.localCredentials Connection.pc Connection.localCandidates
         Connection.reported Connection.role].
    fold info. unfold Connection.setState.
    cbn [Connection.state Connection.remoteInfo Connection.localFingerprint
         Connection.localCredentials Connection.pc Connection.localCandidates
         Connection.reported Connection.role].
    reflexivity. }
  fold info.
  destruct st; try discriminate Hst; unfold Connection.setState;
    cbn [Connection.state Connection.remoteInfo Connection.localFingerprint
         Connection.localCredentials Connection.pc Connection.localCandidates
         Connection.reported Connection.role];
    rewrite Hstep; reflexivity.
Qed.

(** The payload of a ready session and what a peer reads from it. *)
Lemma ready_payload (c : Connection.QWBPConnection) (fp : Uint8Array) :
  ready c fp ->
  exists payload,
    Connection.getQRPayload c = Ok payload
    /\ Decoder.decode payload = Ok (mkPacket 0 fp (Connection.localCandidates c)).
Proof.
  intros (Hst & _ & Hfp & _ & _ & Hlen & Hne & Hw).
  destruct (roundtrip_wire fp (Connection.localCandidates c) Hlen Hne Hw)
    as (bytes & He & Hd & _).
  exists bytes. split; [|assumption].
  unfold Connection.getQRPayload. now rewrite Hst, Hfp.
Qed.

(** Two ready sessions with different fingerprints scan each other. *)
Lemma mutual_scan {SC : SubtleCrypto} {T : Transport}
  (a b : Connection.QWBPConnection) (fa fb : Uint8Array) :
  ready a fa -> ready b fb -> fa <> fb ->
  exists pa pb a' b' ia ib,
    Connection.getQRPayload a = Ok pa
    /\ Connection.getQRPayload b = Ok pb
    /\ Connection.processScannedPayload a pb = (a', Ok tt)
    /\ Connection.processScannedPayload b pa = (b', Ok tt)
    /\ Connection.localFingerprint a' = Some fa
    /\ Connection.localFingerprint b' = Some fb
    /\ Connection.remoteInfo a' = Some ia /\ peerFingerprint ia = fb
    /\ Connection.remoteInfo b' = Some ib /\ peerFingerprint ib = fa
    /\ Connection.role a'
       = Some (if 0 <? Crypto.compareFingerprints fa fb then Offerer else Answerer)
    /\ Connection.role b'
       = Some (if 0 <? Crypto.compareFingerprints fb fa then Offerer else Answerer).
Proof.
  intros Ha Hb Hne.
  destruct (ready_payload a fa Ha) as (pa & Hpa & Hda).
  destruct (ready_payload b fb Hb) as (pb & Hpb & Hdb).
  destruct Ha as (Hsa & Hra & Hfa & Hca & Hpca & Hla & _).
  destruct Hb as (Hsb & Hrb & Hfb & Hcb & Hpcb & Hlb & _).
  destruct (deriveCredentials_ok fa Hla) as [ca Hca'].
  destruct (deriveCredentials_ok fb Hlb) as [cb Hcb'].
  pose proof (scan_outcome a fa pb _ cb ltac:(now rewrite Hsa) Hra Hfa Hca Hpca Hdb
                Hcb' (compare_differs fa fb Hla Hlb Hne)) as Oa.
  pose proof (scan_outcome b fb pa _ ca ltac:(now rewrite Hsb) Hrb Hfb Hcb Hpcb Hda
                Hca' (compare_differs fb fa Hlb Hla (not_eq_sym Hne))) as Ob.
  cbn [fingerprint candidates] in Oa, Ob. cbv zeta in Oa, Ob.
  eexists pa, pb, _, _, _, _.
  split; [exact Hpa|]. split; [exact Hpb|].
  split; [exact Oa|]. split; [exact Ob|].
  repeat split;
    match goal with
    | |- context [if negotiate ?r ?i then _ else _] =>
        destruct (negotiate r i); reflexivity
    | |- _ => reflexivity
    end.
Qed.

(** X7: when two sessions that are displaying their payloads, with
    different 32-byte fingerprints and candidates that fit the wire format,
    scan each other's payload, both scans succeed and the two get opposite
    roles: the session whose fingerprint is the greater one in byte order
    becomes the offerer, the other the answerer. *)
Theorem mutual_scan_roles {SC : SubtleCrypto} {T : Transport}
  (a b : Connection.QWBPConnection) (fa fb : Uint8Array) :
  ready a fa -> ready b fb -> fa <> fb ->
  exists pa pb a' b',
    Connection.getQRPayload a = Ok pa
    /\ Connection.getQRPayload b = Ok pb
    /\ Connection.processScannedPayload a pb = (a', Ok tt)
    /\ Connection.processScannedPayload b pa = (b', Ok tt)
    /\ ((Connection.assignedRole a' = Some Offerer
         /\ Connection.assignedRole b' = Some Answerer)
        \/ (Connection.assignedRole a' = Some Answerer
            /\ Connection.assignedRole b' = Some Offerer))
    /\ (Connection.assignedRole a' = Some Offerer
        <-> Crypto.compareFingerprints fa fb = 1).
Proof.
  intros Ha Hb Hne.
  destruct (mutual_scan a b fa fb Ha Hb Hne)
    as (pa & pb & a' & b' & ia & ib & Hpa & Hpb & Oa & Ob & _ & _ & _ & _ & _ & _
        & Hra & Hrb).
  destruct Ha as (_ & _ & _ & _ & _ & Hla & _).
  destruct Hb as (_ & _ & _ & _ & _ & Hlb & _).
  exists pa, pb, a', b'. repeat (split; [assumption|]).
  unfold Connection.assignedRole. rewrite Hra, Hrb.
  rewrite (compare_flip fa fb Hla Hlb).
  pose proof (compare_differs fa fb Hla Hlb Hne) as Hd.
  rewrite compareFingerprints_lex in * by assumption.
  destruct (lexCompare_range fa fb) as [E|[E|E]]; rewrite E in *.
  - split; [left; now split|]. split; reflexivity.
  - split; [right; now split|]. split; intros X; discriminate X.
  - contradiction.
Qed.

(** The code of two fingerprints: the digest of the greater-or-equal one
    followed by the other. *)
Lemma generateSAS_sorted {SC : SubtleCrypto} (x y : Uint8Array) :
  SubtleCryptoSpec SC ->
  List.length x = 32%nat -> List.length y = 32%nat ->
  let combined :=
    if 0 <=? Crypto.compareFingerprints x y then x ++ y else y ++ x in
  let hashBytes := digestSHA256 combined in
  Crypto.generateSAS x y
  = Ok (fourDigits ((nth 0 hashBytes 0 * 256 + nth 1 hashBytes 0) mod 10000)).
Proof.
  intros Hspec Hx Hy combined hashBytes. unfold Crypto.generateSAS.
  assert (Hc : (if 0 <=? Crypto.compareFingerprints x y
                then let* c := set (zeros 64) x 0 in set c y 32
                else let* c := set (zeros 64) y 0 in set c x 32)
               = Ok combined).
  { subst combined. destruct (0 <=? Crypto.compareFingerprints x y);
      now apply combine_fingerprints. }
  rewrite Hc. cbn [bind]. fold hashBytes.
  pose proof (digest_length SC Hspec combined) as Hlen.
  pose proof (digest_bytes SC Hspec combined) as Hbytes.
  fold hashBytes in Hlen, Hbytes.
  destruct hashBytes as [|h0 [|h1 rest]]; try discriminate.
  cbn [get nth_error bind nth].
  inversion Hbytes as [|? ? Hh0 Hrest]; subst.
  inversion Hrest as [|? ? Hh1 _]; subst.
  rewrite shift_or_bytes by assumption.
  unfold isByte in *.
  rewrite Z.rem_mod_nonneg by lia.
  rewrite padded_decimal; [reflexivity|].
  apply Z.mod_pos_bound. lia.
Qed.

Lemma generateSAS_flip {SC : SubtleCrypto} (x y : Uint8Array) :
  SubtleCryptoSpec SC ->
  List.length x = 32%nat -> List.length y = 32%nat ->
  Crypto.generateSAS x y = Crypto.generateSAS y x.
Proof.
  intros Hspec Hx Hy.
  rewrite (generateSAS_sorted x y Hspec Hx Hy), (generateSAS_sorted y x Hspec Hy Hx).
  rewrite (compare_flip x y Hx Hy).
  pose proof (lexCompare_eq x y ltac:(lia)) as Heq.
  rewrite <- (compareFingerprints_lex x y Hx Hy) in Heq.
  destruct (Z.leb_spec 0 (Crypto.compareFingerprints x y)) as [H|H];
    destruct (Z.leb_spec 0 (- Crypto.compareFingerprints x y)) as [H'|H'];
    try reflexivity; try lia.
  assert (E : x = y) by (apply Heq; lia). now subst.
Qed.

Lemma fourDigits_shape n :
  0 <= n < 10000 ->
  String.length (fourDigits n) = 4%nat /\ allChars isDigit (fourDigits n) = true.
Proof.
  intros Hn. split; [reflexivity|].
  assert (Hd : forall d, 0 <= d < 10 -> isDigit (digitChar d) = true).
  { intros d Hd.
    assert (d = 0 \/ d = 1 \/ d = 2 \/ d = 3 \/ d = 4 \/ d = 5 \/ d = 6 \/ d = 7
            \/ d = 8 \/ d = 9) as X by lia.
    repeat (destruct X as [->|X]; [reflexivity|]). now subst. }
  unfold fourDigits. cbn [allChars].
  rewrite !Hd by (apply Z.mod_pos_bound; lia). reflexivity.
Qed.

(** X8: before any scan [getSAS] answers null; once two sessions with
    different 32-byte fingerprints have scanned each other's payload,
    [getSAS] gives both the same code, made of four decimal digits. *)
Theorem mutual_scan_sas {SC : SubtleCrypto} {T : Transport}
  (a b : Connection.QWBPConnection) (fa fb : Uint8Array) :
  SubtleCryptoSpec SC ->
  ready a fa -> ready b fb -> fa <> fb ->
  Connection.getSAS a = Ok None
  /\ exists pa pb a' b' sas,
       Connection.getQRPayload a = Ok pa
       /\ Connection.getQRPayload b = Ok pb
       /\ Connection.processScannedPayload a pb = (a', Ok tt)
       /\ Connection.processScannedPayload b pa = (b', Ok tt)
       /\ Connection.getSAS a' = Ok (Some sas)
       /\ Connection.getSAS b' = Ok (Some sas)
       /\ String.length sas = 4%nat
       /\ allChars isDigit sas = true.
Proof.
  intros Hspec Ha Hb Hne.
  destruct (mutual_scan a b fa fb Ha Hb Hne)
    as (pa & pb & a' & b' & ia & ib & Hpa & Hpb & Oa & Ob & Hfa' & Hfb' & Hia & Hpia
        & Hib & Hpib & _ & _).
  destruct Ha as (_ & Hra & Hfa & _ & _ & Hla & _).
  destruct Hb as (_ & _ & _ & _ & _ & Hlb & _).
  split.
  { unfold Connection.getSAS. now rewrite Hfa, Hra. }
  pose proof (generateSAS_sorted fa fb Hspec Hla Hlb) as Hs. cbv zeta in Hs.
  eexists pa, pb, a', b', _.
  repeat (split; [eassumption|]).
  split; [|split].
  - unfold Connection.getSAS. rewrite Hfa', Hia, Hpia, Hs. reflexivity.
  - unfold Connection.getSAS. rewrite Hfb', Hib, Hpib.
    rewrite (generateSAS_flip fb fa Hspec Hlb Hla), Hs. reflexivity.
  - apply fourDigits_shape. apply Z.mod_pos_bound. lia.
Qed.

(** ** Sessions: every outcome of a scan *)

Lemma decode_fingerprint (data : Uint8Array) (p : QWBPPacket) :
  Decoder.decode data = Ok p ->
  fingerprint p = slice data 2 34 /\ List.length (fingerprint p) = 32%nat.
Proof.
  intros H.
  destruct (header_dec data) as [Hbad|Hgood].
  { destruct (decode_header data (List.length data) Hbad) as [m Hm].
    unfold Decoder.decode in H. congruence. }
  unfold Decoder.decode in H. rewrite (decode_body data _ Hgood) in H.
  destruct (Decoder.decodeLoop (List.length data) data 34 []) as [cs|];
    [|discriminate].
  cbn [bind] in H. injection H as <-. cbn [fingerprint].
  split; [reflexivity|]. rewrite length_slice; [lia|].
  destruct (Nat.ltb_spec (List.length data) 41); [|lia].
  exfalso. apply Hgood. now left.
Qed.

(** The three ways in which [tryEstablishConnection] ends. *)
Lemma tryEstablishConnection_cases {SC : SubtleCrypto} {T : Transport}
  (c : Connection.QWBPConnection) :
  (Connection.tryEstablishConnection c = c
   /\ (Connection.localFingerprint c = None \/ Connection.localCredentials c = None
       \/ Connection.remoteInfo c = None \/ Connection.pc c = false))
  \/ (exists fp info,
         Connection.localFingerprint c = Some fp
         /\ Connection.remoteInfo c = Some info
         /\ Crypto.compareFingerprints fp (peerFingerprint info) = 0
         /\ Connection.tryEstablishConnection c
            = Connection.handleError c QWBPSelfConnectionError)
  \/ (exists fp info r,
         Connection.localFingerprint c = Some fp
         /\ Connection.remoteInfo c = Some info
         /\ Connection.localCredentials c <> None
         /\ Connection.pc c = true
         /\ Crypto.compareFingerprints fp (peerFingerprint info) <> 0
         /\ r = (if 0 <? Crypto.compareFingerprints fp (peerFingerprint info)
                 then Offerer else Answerer)
         /\ (Connection.tryEstablishConnection c
             = Connection.setState (Connection.setRole c r) Connecting
             \/ Connection.tryEstablishConnection c
                = Connection.handleError
                    (Connection.setState (Connection.setRole c r) Connecting)
                    (PlainError "transport failure"))).
Proof.
  unfold Connection.tryEstablishConnection.
  destruct (Connection.localFingerprint c) as [fp|]; [|left; split; auto].
  destruct (Connection.localCredentials c) as [lc|]; [|left; split; auto].
  destruct (Connection.remoteInfo c) as [info|]; [|left; split; auto].
  destruct (Connection.pc c); [|left; split; auto].
  destruct (Z.eqb_spec (Crypto.compareFingerprints fp (peerFingerprint info)) 0)
    as [E|E].
  - right; left. exists fp, info. auto.
  - right; right. eexists fp, info, _.
    repeat (split; [reflexivity || assumption || discriminate|]).
    destruct (negotiate _ info); [left|right]; reflexivity.
Qed.

(** X9: a call of [processScannedPayload] that fails raises a
    QWBPConnectionError, a QWBPDecodeError or the self-connection error,
    and nothing else; it never changes the state or the role and never
    reports through [onError].  Unless the error is the self-connection
    error the session is left exactly as it was; with that error the
    scanned fingerprint and candidates have been recorded as the peer. *)
Theorem processScannedPayload_failure {SC : SubtleCrypto} {T : Transport}
  (c c' : Connection.QWBPConnection) (data : Uint8Array) (e : Error) :
  Connection.processScannedPayload c data = (c', Throw e) ->
  Connection.connectionState c' = Connection.connectionState c
  /\ Connection.assignedRole c' = Connection.assignedRole c
  /\ Connection.reported c' = Connection.reported c
  /\ ((c' = c
       /\ ((exists msg, e = QWBPConnectionError msg (Connection.state c))
           \/ (exists msg, e = QWBPDecodeError msg)))
      \/ (e = QWBPSelfConnectionError
          /\ Connection.remoteInfo c = None
          /\ exists p credentials,
               Decoder.decode data = Ok p
               /\ c' = Connection.setRemoteInfo c
                         (mkPeerInfo (fingerprint p) (candidates p) credentials))).
Proof.
  unfold Connection.processScannedPayload, Connection.connectionState,
    Connection.assignedRole.
  destruct (Connection.inScanState (Connection.state c)); cbn [negb].
  2:{ intros H. injection H as <- <-. repeat split; eauto. }
  destruct (Connection.remoteInfo c) as [info|] eqn:Hri.
  { intros H. injection H as <- <-. repeat split; eauto. }
  destruct (Decoder.isValidPacket data); cbn [negb].
  2:{ intros H. injection H as <- <-. repeat split; eauto. }
  destruct (decode_outcome data) as [[[msg Hd] _]|[[p Hd] _]]; rewrite Hd.
  { intros H. injection H as <- <-. repeat split; eauto. }
  destruct (decode_fingerprint data p Hd) as [_ Hlen].
  destruct (deriveCredentials_ok (fingerprint p) Hlen) as [creds Hc]. rewrite Hc.
  match goal with
  | |- context [if ?b then (_, Throw QWBPSelfConnectionError) else _] =>
      destruct b
  end.
  - intros H. injection H as <- <-.
    repeat split; try reflexivity. right. repeat split; eauto.
  - intros H. discriminate H.
Qed.

(** X10: a call of [processScannedPayload] that succeeds was made in state
    Displaying or ScannedOne with no peer recorded, on bytes that [decode]
    accepts; it records the decoded fingerprint and candidates with the
    credentials derived from that fingerprint, and keeps the local
    fingerprint, credentials and candidates.  Either the session lacks a
    local fingerprint, credentials or peer connection and rests in
    ScannedOne with no role; or the two fingerprints compare as different,
    the role is offerer when the local one is greater and answerer
    otherwise, and the state is Connecting, or Failed with the transport
    error reported.  The self-connection error is never reported through
    [onError]. *)
Theorem processScannedPayload_success {SC : SubtleCrypto} {T : Transport}
  (c c' : Connection.QWBPConnection) (data : Uint8Array) :
  Connection.processScannedPayload c data = (c', Ok tt) ->
  exists p credentials,
    Connection.inScanState (Connection.state c) = true
    /\ Connection.remoteInfo c = None
    /\ Decoder.decode data = Ok p
    /\ Crypto.deriveCredentials (fingerprint p) = Ok credentials
    /\ Connection.remoteInfo c'
       = Some (mkPeerInfo (fingerprint p) (candidates p) credentials)
    /\ Connection.localFingerprint c' = Connection.localFingerprint c
    /\ Connection.localCredentials c' = Connection.localCredentials c
    /\ Connection.localCandidates c' = Connection.localCandidates c
    /\ Connection.pc c' = Connection.pc c
    /\ ((Connection.state c' = ScannedOne
         /\ Connection.role c' = Connection.role c
         /\ Connection.reported c' = Connection.reported c
         /\ (Connection.localFingerprint c = None
             \/ Connection.localCredentials c = None
             \/ Connection.pc c = false))
        \/ (exists fp,
               Connection.localFingerprint c = Some fp
               /\ Crypto.compareFingerprints fp (fingerprint p) <> 0
               /\ Connection.role c'
                  = Some (if 0 <? Crypto.compareFingerprints fp (fingerprint p)
                          then Offerer else Answerer)
               /\ ((Connection.state c' = Connecting
                    /\ Connection.reported c' = Connection.reported c)
                   \/ (Connection.state c' = Failed
                       /\ Connection.reported c'
                          = PlainError "transport failure"
                            :: Connection.reported c)))).
Proof.
  destruct c as [pc0 st lf lc cands ri ro rep].
  unfold Connection.processScannedPayload.
  cbn [Connection.state Connection.remoteInfo].
  destruct (Connection.inScanState st) eqn:Hst; cbn [negb]; [|discriminate].
  destruct ri as [info|]; [discriminate|].
  destruct (Decoder.isValidPacket data); cbn [negb]; [|discriminate].
  destruct (Decoder.decode data) as [p|] eqn:Hd; [|discriminate].
  destruct (Crypto.deriveCredentials (fingerprint p)) as [creds|] eqn:Hc;
    [|discriminate].
  set (info := mkPeerInfo (fingerprint p) (candidates p) creds).
  unfold Connection.setRemoteInfo.
  cbn [Connection.state Connection.remoteInfo Connection.localFingerprint
       Connection.localCredentials Connection.pc Connection.localCandidates
       Connection.reported Connection.role].
  match goal with
  | |- context [if ?b then (_, Throw QWBPSelfConnectionError) else _] =>
      destruct b eqn:Hself
  end; [discriminate|].
  assert (Hc2 : match st with
                | Displaying =>
                    Connection.setState
                      (Connection.mkConnection pc0 st lf lc cands (Some info) ro rep)
                      ScannedOne
                | _ => Connection.mkConnection pc0 st lf lc cands (Some info) ro rep
                end
                = Connection.mkConnection pc0 ScannedOne lf lc cands
                    (Some info) ro rep).
  { destruct st; try discriminate Hst; reflexivity. }
  rewrite Hc2. clear Hc2.
  intros H. injection H as <-.
  exists p, creds.
  split; [reflexivity|]. split; [reflexivity|]. split; [reflexivity|].
  split; [assumption|].
  destruct (tryEstablishConnection_cases
              (Connection.mkConnection pc0 ScannedOne lf lc cands (Some info) ro rep))
    as [[E Hmiss]|[(fp & i & Hfp & Hi & Hz & E)|(fp & i & r & Hfp & Hi & Hlc & Hpc & Hnz
                                                  & Hr & E)]];
    cbn [Connection.state Connection.remoteInfo Connection.localFingerprint
         Connection.localCredentials Connection.pc Connection.localCandidates
         Connection.reported Connection.role] in *.
  - rewrite E.
    cbn [Connection.state Connection.remoteInfo Connection.localFingerprint
         Connection.localCredentials Connection.pc Connection.localCandidates
         Connection.reported Connection.role].
    repeat (split; [reflexivity|]). left. repeat (split; [reflexivity|]).
    destruct Hmiss as [X|[X|[X|X]]]; auto. discriminate X.
  - exfalso. subst lf. injection Hi as <-.
    unfold info in Hz. cbn [peerFingerprint] in Hz.
    rewrite Hz in Hself. discriminate Hself.
  - subst lf. injection Hi as <-. unfold info in Hnz, Hr.
    cbn [peerFingerprint] in Hnz, Hr.
    destruct E as [E|E]; rewrite E;
      unfold Connection.handleError, Connection.setState, Connection.setRole;
      cbn [Connection.state Connection.remoteInfo Connection.localFingerprint
           Connection.localCredentials Connection.pc Connection.localCandidates
           Connection.reported Connection.role];
      repeat (split; [reflexivity|]); right; exists fp;
      (split; [reflexivity|]); (split; [assumption|]);
      (split; [now rewrite Hr|]); [left|right]; split; reflexivity.
Qed.

(** ** Sessions: the life cycle *)

Lemma extractFingerprint_length (sdp : string) (fp : Uint8Array) :
  Crypto.extractFingerprintFromSDP sdp = Ok fp -> List.length fp = 32%nat.
Proof.
  unfold Crypto.extractFingerprintFromSDP.
  destruct (Crypto.matchFingerprint sdp) as [group|]; [|discriminate].
  destruct (negb _); [discriminate|].
  set (bytes := map _ (seq 0 32)). intros H.
  assert (E : fp = bytes) by congruence. rewrite E. unfold bytes.
  now rewrite length_map, length_seq.
Qed.

(** Every way in which [initialize] ends. *)
Lemma initialize_cases {SC : SubtleCrypto} {P : Platform}
  (c : Connection.QWBPConnection) :
  (Connection.state c <> Idle
   /\ Connection.initialize c
      = (c, Throw (QWBPConnectionError
                     ("Cannot initialize in state: "
                      +++ stateName (Connection.state c))
                     (Connection.state c))))
  \/ (Connection.state c = Idle
      /\ exists c' r,
           Connection.initialize c = (c', r)
           /\ Connection.remoteInfo c' = Connection.remoteInfo c
           /\ Connection.role c' = Connection.role c
           /\ Connection.reported c' = Connection.reported c
           /\ (forall fp, Connection.localFingerprint c' = Some fp ->
               Connection.localFingerprint c = Some fp \/ List.length fp = 32%nat)
           /\ ((exists e, r = Throw e /\ Connection.state c' = Gathering)
               \/ (r = Ok tt
                   /\ Connection.state c' = Displaying
                   /\ Connection.pc c' = true
                   /\ exists fp credentials offer sdp,
                        createOffer = Ok offer
                        /\ Crypto.extractFingerprintFromSDP offer = Ok fp
                        /\ Crypto.deriveCredentials fp = Ok credentials
                        /\ gatherCandidates
                             (Connection.patchSdpCredentials offer
                                (ufrag credentials) (pwd credentials))
                           = Ok sdp
                        /\ Connection.localFingerprint c' = Some fp
                        /\ Connection.localCredentials c' = Some credentials
                        /\ Connection.localCandidates c'
                           = Encoder.extractCandidatesFromSDP sdp
                               Connection.maxCandidates))).
Proof.
  destruct c as [pc0 st lf lc cands ri ro rep].
  unfold Connection.initialize.
  cbn [Connection.state].
  destruct st; try (left; split; [discriminate|reflexivity]).
  right. split; [reflexivity|].
  unfold Connection.setState.
  cbn [Connection.state Connection.remoteInfo Connection.localFingerprint
       Connection.localCredentials Connection.pc Connection.localCandidates
       Connection.reported Connection.role].
  destruct generateCertificate as [[]|e].
  2:{ eexists _, _. split; [reflexivity|]. cbn. repeat split; eauto. }
  destruct createOffer as [offer|e].
  2:{ eexists _, _. split; [reflexivity|]. cbn. repeat split; eauto. }
  destruct (Crypto.extractFingerprintFromSDP offer) as [fp|e] eqn:Ef.
  2:{ eexists _, _. split; [reflexivity|]. cbn. repeat split; eauto. }
  pose proof (extractFingerprint_length offer fp Ef) as Hlen.
  destruct (Crypto.deriveCredentials fp) as [creds|e] eqn:Ec.
  2:{ eexists _, _. split; [reflexivity|]. cbn.
      repeat split; eauto. intros fp' H. injection H as <-. now right. }
  destruct (gatherCandidates _) as [sdp|e] eqn:Eg.
  2:{ eexists _, _. split; [reflexivity|]. cbn.
      repeat split; eauto. intros fp' H. injection H as <-. now right. }
  eexists _, _. split; [reflexivity|]. cbn.
  repeat (split; [reflexivity|]).
  split; [intros fp' H; injection H as <-; now right|].
  right. repeat (split; [reflexivity|]).
  exists fp, creds, offer, sdp. repeat split; assumption.
Qed.

(** What a scan leaves of a session, whatever its outcome. *)
Lemma scan_effect {SC : SubtleCrypto} {T : Transport}
  (c : Connection.QWBPConnection) (data : Uint8Array) :
  let c' := fst (Connection.processScannedPayload c data) in
  c' = c
  \/ (Connection.inScanState (Connection.state c) = true
      /\ Connection.remoteInfo c = None
      /\ Connection.localFingerprint c' = Connection.localFingerprint c
      /\ Connection.localCredentials c' = Connection.localCredentials c
      /\ Connection.localCandidates c' = Connection.localCandidates c
      /\ Connection.pc c' = Connection.pc c
      /\ exists info,
           Connection.remoteInfo c' = Some info
           /\ List.length (peerFingerprint info) = 32%nat
           /\ Crypto.deriveCredentials (peerFingerprint info)
              = Ok (peerCredentials info)
           /\ ((Connection.state c' = Connection.state c
                /\ Connection.role c' = Connection.role c
                /\ exists fp, Connection.localFingerprint c = Some fp
                     /\ Crypto.compareFingerprints fp (peerFingerprint info) = 0)
               \/ (Connection.state c' = ScannedOne
                   /\ Connection.role c' = Connection.role c
                   /\ (Connection.localFingerprint c = None
                       \/ Connection.localCredentials c = None
                       \/ Connection.pc c = false))
               \/ (exists fp,
                      Connection.localFingerprint c = Some fp
                      /\ Crypto.compareFingerprints fp (peerFingerprint info) <> 0
                      /\ Connection.role c'
                         = Some (if 0 <? Crypto.compareFingerprints fp
                                           (peerFingerprint info)
                                 then Offerer else Answerer)
                      /\ (Connection.state c' = Connecting
                          \/ Connection.state c' = Failed)))).
Proof.
  destruct c as [pc0 st lf lc cands ri ro rep].
  unfold Connection.processScannedPayload.
  cbn [Connection.state Connection.remoteInfo].
  destruct (Connection.inScanState st) eqn:Hst; cbn [negb]; [|now left].
  destruct ri as [info0|]; [now left|].
  destruct (Decoder.isValidPacket data); cbn [negb]; [|now left].
  destruct (Decoder.decode data) as [p|] eqn:Hd; [|now left].
  destruct (decode_fingerprint data p Hd) as [_ Hlen].
  destruct (Crypto.deriveCredentials (fingerprint p)) as [creds|] eqn:Hc;
    [|now left].
  set (info := mkPeerInfo (fingerprint p) (candidates p) creds).
  unfold Connection.setRemoteInfo.
  cbn [Connection.state Connection.remoteInfo Connection.localFingerprint
       Connection.localCredentials Connection.pc Connection.localCandidates
       Connection.reported Connection.role].
  right. split; [reflexivity|]. split; [reflexivity|].
  match goal with
  | |- context [if ?b then (_, Throw QWBPSelfConnectionError) else _] =>
      destruct b eqn:Hself
  end.
  - cbn [fst Connection.state Connection.remoteInfo Connection.localFingerprint
         Connection.localCredentials Connection.pc Connection.localCandidates
         Connection.reported Connection.role].
    repeat (split; [reflexivity|]). exists info.
    split; [reflexivity|]. split; [assumption|]. split; [assumption|].
    left. repeat (split; [reflexivity|]).
    destruct lf as [fp|]; [|discriminate]. exists fp. split; [reflexivity|].
    now apply Z.eqb_eq.
  - assert (Hc2 : match st with
                  | Displaying =>
                      Connection.setState
                        (Connection.mkConnection pc0 st lf lc cands (Some info) ro rep)
                        ScannedOne
                  | _ => Connection.mkConnection pc0 st lf lc cands (Some info) ro rep
                  end
                  = Connection.mkConnection pc0 ScannedOne lf lc cands
                      (Some info) ro rep).
    { destruct st; try discriminate Hst; reflexivity. }
    rewrite Hc2. clear Hc2. cbn [fst].
    destruct (tryEstablishConnection_cases
                (Connection.mkConnection pc0 ScannedOne lf lc cands (Some info) ro rep))
      as [[E Hmiss]|[(fp & i & Hfp & Hi & Hz & E)|(fp & i & r & Hfp & Hi & Hlc & Hpc
                                                    & Hnz & Hr & E)]];
      cbn [Connection.state Connection.remoteInfo Connection.localFingerprint
           Connection.localCredentials Connection.pc Connection.localCandidates
           Connection.reported Connection.role] in *.
    + rewrite E.
      cbn [Connection.state Connection.remoteInfo Connection.localFingerprint
           Connection.localCredentials Connection.pc Connection.localCandidates
           Connection.reported Connection.role].
      repeat (split; [reflexivity|]). exists info.
      split; [reflexivity|]. split; [assumption|]. split; [assumption|].
      right; left. repeat (split; [reflexivity|]).
      destruct Hmiss as [X|[X|[X|X]]]; auto. discriminate X.
    + exfalso. subst lf. injection Hi as <-.
      unfold info in Hz. cbn [peerFingerprint] in Hz.
      rewrite Hz in Hself. discriminate Hself.
    + subst lf. injection Hi as <-. unfold info in Hnz, Hr.
      cbn [peerFingerprint] in Hnz, Hr.
      destruct E as [E|E]; rewrite E;
        unfold Connection.handleError, Connection.setState, Connection.setRole;
        cbn [Connection.state Connection.remoteInfo Connection.localFingerprint
             Connection.localCredentials Connection.pc Connection.localCandidates
             Connection.reported Connection.role];
        repeat (split; [reflexivity|]); exists info;
        (split; [reflexivity|]); (split; [assumption|]); (split; [assumption|]);
        right; right; exists fp;
        (split; [reflexivity|]); (split; [assumption|]);
        (split; [now rewrite Hr|]); [left|right]; reflexivity.
Qed.

(** Goals about the fields of a session that follow by cases on the
    equations at hand. *)
Ltac session_facts :=
  repeat split; intros;
  repeat match goal with
         | H : _ \/ _ |- _ => destruct H
         | H : _ /\ _ |- _ => destruct H
         end;
  try discriminate; try assumption; try reflexivity; try congruence; try tauto.

Lemma newConnection_invariant {SC : SubtleCrypto} :
  sessionInvariant Connection.newConnection.
Proof.
  unfold sessionInvariant, Connection.newConnection.
  cbn [Connection.state Connection.remoteInfo Connection.localFingerprint
       Connection.localCredentials Connection.pc Connection.localCandidates
       Connection.reported Connection.role].
  session_facts.
Qed.

Lemma initialize_invariant {SC : SubtleCrypto} {P : Platform}
  (c : Connection.QWBPConnection) :
  sessionInvariant c -> sessionInvariant (fst (Connection.initialize c)).
Proof.
  intros Hinv.
  destruct (initialize_cases c) as [[_ E]|[Hidle (c' & r & E & Hri & Hro & _ & Hfp & Hout)]];
    rewrite E; cbn [fst]; [assumption|].
  destruct Hinv as (I1 & _).
  specialize (I1 Hidle). subst c.
  cbn [Connection.newConnection Connection.remoteInfo Connection.role
       Connection.localFingerprint] in Hri, Hro, Hfp.
  assert (Hlen : forall fp, Connection.localFingerprint c' = Some fp ->
                            List.length fp = 32%nat).
  { intros fp H. destruct (Hfp fp H) as [X|X]; [discriminate X|exact X]. }
  unfold sessionInvariant. rewrite Hri, Hro.
  destruct Hout as [(e & _ & Hst)|(_ & Hst & Hpc & fp & creds & offer & sdp & _ & _ & Hc
                                   & _ & Hlf & Hlc & _)];
    rewrite Hst.
  - session_facts. now apply Hlen.
  - split; [discriminate|]. split; [discriminate|].
    split; [intros _; split; [assumption|]; exists fp, creds; now repeat split|].
    split; [exact Hlen|]. session_facts.
Qed.

Lemma close_invariant {SC : SubtleCrypto} (c : Connection.QWBPConnection) :
  sessionInvariant c -> sessionInvariant (Connection.close c).
Proof.
  intros (_ & _ & _ & I4 & I5 & I6 & _ & _).
  unfold sessionInvariant, Connection.close, Connection.setState.
  cbn [Connection.state Connection.remoteInfo Connection.localFingerprint
       Connection.localCredentials Connection.pc Connection.localCandidates
       Connection.reported Connection.role].
  split; [discriminate|]. split; [discriminate|].
  split; [intros [X|X]; discriminate X|].
  split; [exact I4|]. split; [exact I5|]. split; [exact I6|].
  split; discriminate.
Qed.

Lemma scan_invariant {SC : SubtleCrypto} {T : Transport}
  (c : Connection.QWBPConnection) (data : Uint8Array) :
  sessionInvariant c ->
  sessionInvariant (fst (Connection.processScannedPayload c data)).
Proof.
  intros Hinv.
  destruct (scan_effect c data)
    as [E|(Hst & Hri & Hlf & Hlc & Hcs & Hpc & info & Hri' & Hlen & Hder & Hout)];
    [now rewrite E|].
  set (c' := fst (Connection.processScannedPayload c data)) in *.
  destruct Hinv as (I1 & I2 & I3 & I4 & I5 & I6 & I7 & I8).
  assert (Hdisp : Connection.state c = Displaying).
  { destruct (Connection.state c); try discriminate Hst; [reflexivity|].
    now contradiction I8. }
  destruct (I3 (or_introl Hdisp)) as (Hpc0 & fp & creds & Hfp0 & Hcr0 & Hd0).
  assert (Hro : Connection.role c = None).
  { destruct (Connection.role c) as [r|] eqn:Er; [|reflexivity].
    exfalso. apply I6; [discriminate|exact Hri]. }
  unfold sessionInvariant. rewrite Hri', Hlf, Hlc, Hpc.
  destruct Hout as [(Hs & Hr & fp' & Hfp' & Hz)|[(Hs & Hr & Hmiss)|(fp' & Hfp' & Hnz & Hr
                                                                    & Hs)]].
  - rewrite Hs, Hr, Hdisp, Hro.
    split; [discriminate|]. split; [discriminate|].
    split; [intros _; split; [assumption|]; exists fp, creds; now repeat split|].
    split; [exact I4|].
    split; [|session_facts].
    intros i Hi. injection Hi as <-.
    split; [assumption|]. split; [assumption|].
    exists fp'. split; [assumption|]. split; [intros _; assumption|].
    intros r X. discriminate X.
  - exfalso. destruct Hmiss as [X|[X|X]]; congruence.
  - rewrite Hr.
    split; [destruct Hs as [X|X]; rewrite X; discriminate|].
    split; [destruct Hs as [X|X]; rewrite X; discriminate|].
    split; [intros _; split; [assumption|]; exists fp, creds; now repeat split|].
    split; [exact I4|].
    split.
    { intros i Hi. injection Hi as <-.
      split; [assumption|]. split; [assumption|].
      exists fp'. split; [assumption|]. split; [intros X; discriminate X|].
      intros r X. injection X as <-. now split. }
    split; [intros _; discriminate|].
    split; [intros _; discriminate|].
    destruct Hs as [X|X]; rewrite X; discriminate.
Qed.

Lemma perform_invariant {SC : SubtleCrypto} {T : Transport} {P : Platform}
  (c : Connection.QWBPConnection) (call : Call) :
  sessionInvariant c -> sessionInvariant (perform c call).
Proof.
  destruct call; cbn [perform]; intros H.
  - now apply initialize_invariant.
  - assumption.
  - now apply scan_invariant.
  - assumption.
  - now apply close_invariant.
Qed.

(** X11: after any sequence of calls of [initialize], [getQRPayload],
    [processScannedPayload], [getSAS] and [close] on a new session, each
    call run to completion and no connection event in between: a session
    in Idle is still the new session; in Gathering no peer and no role are
    recorded; in the states Displaying and Connecting the peer connection
    exists and the local credentials are the ones derived from the local
    fingerprint; a local fingerprint has 32 bytes; a recorded peer has a
    fingerprint of 32 bytes and the credentials derived from it; a role is
    set only together with a peer whose fingerprint compares as different
    from the local one, and is offerer exactly when the local fingerprint
    is the greater; a peer recorded without a role is one whose fingerprint
    compares as equal to the local one; state Connecting comes with a
    role; and no call leaves the session in ScannedOne. *)
Theorem reachable_session_invariant
  {SC : SubtleCrypto} {T : Transport} {P : Platform} (calls : list Call) :
  sessionInvariant (performAll Connection.newConnection calls).
Proof.
  unfold performAll.
  assert (H : forall c, sessionInvariant c -> sessionInvariant (fold_left perform calls c)).
  { induction calls as [|call calls IH]; intros c Hc; cbn [fold_left];
      [assumption|].
    apply IH. now apply perform_invariant. }
  apply H. apply newConnection_invariant.
Qed.

Lemma perform_monotone {SC : SubtleCrypto} {T : Transport} {P : Platform}
  (c : Connection.QWBPConnection) (call : Call) :
  (stateRank (Connection.state c) <= stateRank (Connection.state (perform c call)))%nat
  /\ (forall info, Connection.remoteInfo c = Some info ->
      Connection.remoteInfo (perform c call) = Some info
      /\ Connection.role (perform c call) = Connection.role c)
  /\ (Connection.state c <> Idle ->
      Connection.localFingerprint (perform c call) = Connection.localFingerprint c
      /\ Connection.localCandidates (perform c call) = Connection.localCandidates c).
Proof.
  destruct call; cbn [perform]; try (repeat split; auto; fail).
  - destruct (initialize_cases c)
      as [[_ E]|[Hidle (c' & r & E & Hri & Hro & _ & _ & Hout)]];
      rewrite E; cbn [fst]; [repeat split; auto|].
    rewrite Hri, Hro, Hidle.
    split; [cbn; lia|]. split; [auto|]. intros X. now contradiction X.
  - destruct (scan_effect c data)
      as [E|(Hst & Hri & Hlf & Hlc & Hcs & Hpc & info & Hri' & _ & _ & Hout)];
      [rewrite E; repeat split; auto|].
    rewrite Hlf, Hcs.
    split; [|split; [intros i X; congruence|auto]].
    destruct Hout as [(Hs & _)|[(Hs & _)|(_ & _ & _ & _ & Hs)]].
    + rewrite Hs. lia.
    + rewrite Hs. destruct (Connection.state c); try discriminate Hst; cbn; lia.
    + destruct Hs as [Hs|Hs]; rewrite Hs;
        destruct (Connection.state c); try discriminate Hst; cbn; lia.
  - unfold Connection.close, Connection.setState.
    cbn [Connection.state Connection.remoteInfo Connection.localFingerprint
         Connection.localCredentials Connection.pc Connection.localCandidates
         Connection.reported Connection.role].
    split; [destruct (Connection.state c); cbn; lia|]. split; auto.
Qed.

(** X12: along any sequence of calls of [initialize], [getQRPayload],
    [processScannedPayload], [getSAS] and [close], from any session, each
    call run to completion and no connection event in between, the state
    never moves backwards in the order Idle, Gathering, Displaying,
    ScannedOne, Connecting, Connected, Failed, Closed; so a closed session
    stays closed.  A peer, once recorded, is never replaced and the role
    then never changes; and once the session has left Idle its local
    fingerprint and its candidates never change. *)
Theorem session_monotone {SC : SubtleCrypto} {T : Transport} {P : Platform}
  (c : Connection.QWBPConnection) (calls : list Call) :
  (stateRank (Connection.state c)
   <= stateRank (Connection.state (performAll c calls)))%nat
  /\ (Connection.state c = Closed ->
      Connection.state (performAll c calls) = Closed)
  /\ (forall info, Connection.remoteInfo c = Some info ->
      Connection.remoteInfo (performAll c calls) = Some info
      /\ Connection.role (performAll c calls) = Connection.role c)
  /\ (Connection.state c <> Idle ->
      Connection.localFingerprint (performAll c calls)
      = Connection.localFingerprint c
      /\ Connection.localCandidates (performAll c calls)
         = Connection.localCandidates c).
Proof.
  unfold performAll.
  assert (H : forall c,
             (stateRank (Connection.state c)
              <= stateRank (Connection.state (fold_left perform calls c)))%nat
             /\ (forall info, Connection.remoteInfo c = Some info ->
                 Connection.remoteInfo (fold_left perform calls c) = Some info
                 /\ Connection.role (fold_left perform calls c) = Connection.role c)
             /\ (Connection.state c <> Idle ->
                 Connection.localFingerprint (fold_left perform calls c)
                 = Connection.localFingerprint c
                 /\ Connection.localCandidates (fold_left perform calls c)
                    = Connection.localCandidates c)).
  { induction calls as [|call calls IH]; intros c0; cbn [fold_left].
    - repeat split; auto.
    - destruct (perform_monotone c0 call) as (M1 & M2 & M3).
      destruct (IH (perform c0 call)) as (J1 & J2 & J3).
      split; [lia|]. split.
      + intros info Hi. destruct (M2 info Hi) as [Hr Hro].
        destruct (J2 info Hr) as [Hr' Hro']. split; [assumption|congruence].
      + intros Hn. destruct (M3 Hn) as [Hf Hc].
        assert (Hn' : Connection.state (perform c0 call) <> Idle).
        { intros X. rewrite X in M1. destruct (Connection.state c0); cbn in M1;
            try lia. now contradiction Hn. }
        destruct (J3 Hn') as [Hf' Hc']. split; congruence. }
  destruct (H c) as (H1 & H2 & H3).
  split; [assumption|]. split; [|split; assumption].
  intros Hc. rewrite Hc in H1.
  destruct (Connection.state (fold_left perform calls c)); cbn in H1;
    try lia; reflexivity.
Qed.

(** X13: in any state but Idle, [initialize] throws a QWBPConnectionError
    and changes nothing.  In Idle, when it returns normally the session is
    in Displaying with a peer connection, the 32-byte fingerprint extracted
    from the offer, the credentials derived from that fingerprint, and the
    candidates extracted from the gathered SDP; when it throws, the session
    is left in Gathering with nothing reported through [onError], and from
    there [initialize], [getQRPayload] and [processScannedPayload] all
    throw a QWBPConnectionError: the session cannot be initialised
    again. *)
Theorem initialize_outcome {SC : SubtleCrypto} {T : Transport} {P : Platform}
  (c c' : Connection.QWBPConnection) (r : result unit) :
  Connection.initialize c = (c', r) ->
  (Connection.state c <> Idle ->
   c' = c
   /\ r = Throw (QWBPConnectionError
                   ("Cannot initialize in state: " +++ stateName (Connection.state c))
                   (Connection.state c)))
  /\ (Connection.state c = Idle ->
      Connection.reported c' = Connection.reported c
      /\ ((r = Ok tt
           /\ Connection.state c' = Displaying
           /\ Connection.pc c' = true
           /\ exists fp credentials offer sdp,
                createOffer = Ok offer
                /\ Crypto.extractFingerprintFromSDP offer = Ok fp
                /\ List.length fp = 32%nat
                /\ Crypto.deriveCredentials fp = Ok credentials
                /\ gatherCandidates
                     (Connection.patchSdpCredentials offer
                        (ufrag credentials) (pwd credentials)) = Ok sdp
                /\ Connection.localFingerprint c' = Some fp
                /\ Connection.localCredentials c' = Some credentials
                /\ Connection.localCandidates c'
                   = Encoder.extractCandidatesFromSDP sdp Connection.maxCandidates)
          \/ ((exists e, r = Throw e)
              /\ Connection.state c' = Gathering
              /\ Connection.initialize c'
                 = (c', Throw (QWBPConnectionError
                                 "Cannot initialize in state: gathering" Gathering))
              /\ Connection.getQRPayload c'
                 = Throw (QWBPConnectionError
                            "Cannot get QR payload in state: gathering" Gathering)
              /\ forall data,
                   Connection.processScannedPayload c' data
                   = (c', Throw (QWBPConnectionError
                                   "Cannot process payload in state: gathering"
                                   Gathering))))).
Proof.
  intros H.
  destruct (initialize_cases c)
    as [[Hn E]|[Hidle (c1 & r1 & E & _ & _ & Hrep & _ & Hout)]];
    rewrite E in H; injection H as <- <-.
  - split; [auto|]. intros X. now contradiction Hn.
  - split; [intros X; now contradiction X|]. intros _.
    split; [assumption|].
    destruct Hout as [(e & -> & Hst)|(-> & Hst & Hpc & fp & creds & offer & sdp & Ho & Hf
                                      & Hd & Hg & Hlf & Hlc & Hcs)].
    + right. split; [eauto|]. split; [assumption|].
      unfold Connection.initialize, Connection.getQRPayload,
        Connection.processScannedPayload.
      rewrite Hst. cbn [Connection.inScanState negb]. repeat split.
    + left. repeat (split; [assumption || reflexivity|]).
      exists fp, creds, offer, sdp.
      pose proof (extractFingerprint_length offer fp Hf).
      repeat split; assumption.
Qed.

(** ** base64urlDecode after base64urlEncode *)

Lemma sextet_forall (P : Z -> bool) :
  forallb P allSextets = true -> forall i, 0 <= i < 64 -> P i = true.
Proof.
  intros H i [H0 H1]. rewrite forallb_forall in H. apply H.
  unfold allSextets. rewrite <- (Z2Nat.id i H0). apply in_map, in_seq. lia.
Qed.

Lemma textOf_cons f x (l : list Z) : textOf f (x :: l) = String (f x) (textOf f l).
Proof. reflexivity. Qed.

Lemma textOf_app f (a b : list Z) : textOf f (a ++ b) = textOf f a +++ textOf f b.
Proof.
  induction a as [|x a IH]; [reflexivity|].
  change (textOf f ((x :: a) ++ b)) with (String (f x) (textOf f (a ++ b))).
  rewrite IH. reflexivity.
Qed.

Lemma length_textOf f (l : list Z) : String.length (textOf f l) = List.length l.
Proof. induction l as [|x l IH]; cbn; [reflexivity|]. now f_equal. Qed.

Lemma sextets_range_upto n : forall bytes,
  (List.length bytes <= n)%nat -> Forall isByte bytes ->
  Forall (fun i => 0 <= i < 64) (sextets bytes)
  /\ (List.length (sextets bytes) mod 4 <> 1)%nat.
Proof.
  induction n as [n IH] using lt_wf_ind. intros bytes Hn Hb.
  destruct bytes as [|a [|b [|c rest]]]; cbn [sextets].
  - split; [constructor|]. cbn. lia.
  - inversion Hb as [|? ? Ha _]; subst.
    split; [|cbn; lia].
    repeat constructor; auto using sextet_first, sextet_pad1;
      try apply sextet_first; try apply sextet_pad1; assumption.
  - inversion Hb as [|? ? Ha Hb']; subst. inversion Hb' as [|? ? Hb0 _]; subst.
    split; [|cbn; lia].
    constructor; [now apply sextet_first|].
    constructor; [now apply sextet_second|].
    constructor; [now apply sextet_pad2|constructor].
  - inversion Hb as [|? ? Ha Hb']; subst. inversion Hb' as [|? ? Hb0 Hb'']; subst.
    inversion Hb'' as [|? ? Hc Hrest]; subst.
    cbn [List.length] in Hn.
    destruct (IH (List.length rest) ltac:(lia) rest (le_n _) Hrest) as [IHr IHm].
    split.
    + constructor; [now apply sextet_first|].
      constructor; [now apply sextet_second|].
      constructor; [now apply sextet_third|].
      constructor; [now apply sextet_fourth|assumption].
    + cbn [List.length].
      replace (S (S (S (S (List.length (sextets rest))))))
        with (List.length (sextets rest) + 1 * 4)%nat by lia.
      now rewrite Nat.Div0.mod_add.
Qed.

(** The text of [base64urlEncode]: one URL-safe character per digit. *)
Lemma base64urlEncode_text_upto n : forall bytes,
  (List.length bytes <= n)%nat -> Forall isByte bytes ->
  Crypto.base64urlEncode bytes = textOf urlChar (sextets bytes).
Proof.
  induction n as [n IH] using lt_wf_ind. intros bytes Hn Hb.
  unfold Crypto.base64urlEncode.
  destruct bytes as [|a [|b [|c rest]]].
  - reflexivity.
  - inversion Hb as [|? ? Ha _]; subst. cbn [Crypto.btoa sextets].
    rewrite !url_cons by auto using sextet_first, sextet_pad1.
    rewrite url_padding by reflexivity. reflexivity.
  - inversion Hb as [|? ? Ha Hb']; subst. inversion Hb' as [|? ? Hb0 _]; subst.
    cbn [Crypto.btoa sextets].
    rewrite !url_cons by auto using sextet_first, sextet_second, sextet_pad2.
    rewrite url_padding by reflexivity. reflexivity.
  - inversion Hb as [|? ? Ha Hb']; subst. inversion Hb' as [|? ? Hb0 Hb'']; subst.
    inversion Hb'' as [|? ? Hc Hrest]; subst.
    cbn [Crypto.btoa sextets].
    rewrite !url_cons
      by auto using sextet_first, sextet_second, sextet_third, sextet_fourth.
    cbn [List.length] in Hn.
    pose proof (IH (List.length rest) ltac:(lia) rest (le_n _) Hrest) as IHr.
    unfold Crypto.base64urlEncode in IHr. rewrite IHr. reflexivity.
Qed.

(** The two replacements of [base64urlDecode] give the base64 text back. *)
Lemma base64url_unreplace (l : list Z) :
  Forall (fun i => 0 <= i < 64) l ->
  Crypto.replaceAll "_" "/" (Crypto.replaceAll "-" "+" (textOf urlChar l))
  = textOf Crypto.base64Char l.
Proof.
  induction 1 as [|i l Hi Hl IH]; [reflexivity|].
  rewrite !textOf_cons. unfold Crypto.replaceAll in *. cbn [mapString].
  rewrite IH. f_equal.
  pose proof (sextet_forall
    (fun i =>
       Ascii.eqb
         (let x := if Ascii.eqb (urlChar i) "-" then "+"%char else urlChar i in
          if Ascii.eqb x "_" then "/"%char else x)
         (Crypto.base64Char i))
    ltac:(vm_compute; reflexivity) i Hi) as H.
  cbv beta zeta in H. now apply Ascii.eqb_eq in H.
Qed.

Lemma base64_chars (l : list Z) :
  Forall (fun i => 0 <= i < 64) l ->
  allChars isBase64Char (textOf Crypto.base64Char l) = true
  /\ Crypto.sextetsOf (textOf Crypto.base64Char l) = Some l.
Proof.
  induction 1 as [|i l Hi Hl [IH1 IH2]]; [split; reflexivity|].
  rewrite textOf_cons. cbn [allChars Crypto.sextetsOf]. rewrite IH1, IH2.
  pose proof (sextet_forall
    (fun i => match Crypto.base64Index (Crypto.base64Char i) with
              | Some j => j =? i
              | None => false
              end)
    ltac:(vm_compute; reflexivity) i Hi) as H.
  cbv beta in H. unfold isBase64Char.
  destruct (Crypto.base64Index (Crypto.base64Char i)) as [j|]; [|discriminate].
  apply Z.eqb_eq in H. subst j. split; reflexivity.
Qed.

Lemma removeWhere_id p (s : string) :
  allChars (fun c => negb (p c)) s = true -> Crypto.removeWhere p s = s.
Proof.
  induction s as [|c s IH]; [reflexivity|]. cbn [allChars Crypto.removeWhere].
  intros H. apply andb_prop in H as [Hc Hs]. apply negb_true_iff in Hc.
  rewrite Hc. now rewrite IH.
Qed.

Lemma base64Char_class (c : ascii) :
  isBase64Char c = true ->
  negb (Crypto.isAsciiWhitespace c) = true /\ negb (Ascii.eqb c "=") = true.
Proof.
  destruct c as [[] [] [] [] [] [] [] []]; vm_compute; intros H;
    try discriminate H; split; reflexivity.
Qed.

Lemma string_last (s : string) :
  s <> EmptyString -> exists a c, s = a +++ String c EmptyString.
Proof.
  induction s as [|x s IH]; intros H; [contradiction|].
  destruct s as [|y s].
  - exists EmptyString, x. reflexivity.
  - destruct (IH ltac:(discriminate)) as (a & c & E).
    exists (String x a), c. cbn. now rewrite <- E.
Qed.

(** The padded text is stripped to the digits again. *)
Lemma stripPadding_padded (s : string) :
  allChars isBase64Char s = true ->
  (String.length s mod 4 <> 1)%nat ->
  Crypto.stripPadding (Crypto.removeWhere Crypto.isAsciiWhitespace
                         (Crypto.padToFour s)) = s.
Proof.
  intros Hs Hm.
  assert (Hne : allChars (fun c => negb (Ascii.eqb c "=")) s = true).
  { apply (allChars_impl isBase64Char); [|assumption].
    intros c Hc. now apply base64Char_class. }
  assert (Hws : forall pad, allChars (Ascii.eqb "=") pad = true ->
                 Crypto.removeWhere Crypto.isAsciiWhitespace (s +++ pad) = s +++ pad).
  { intros pad Hp. apply removeWhere_id. rewrite allChars_append.
    apply andb_true_intro. split.
    - apply (allChars_impl isBase64Char); [|assumption].
      intros c Hc. now apply base64Char_class.
    - apply (allChars_impl (Ascii.eqb "=")); [|assumption].
      intros c Hc. apply Ascii.eqb_eq in Hc. now subst c. }
  assert (Hno : forall suf, allChars (fun c => negb (Ascii.eqb c "=")) suf = false ->
                 endsWith s suf = false).
  { intros suf Hsuf. now apply (endsWith_class (fun c => negb (Ascii.eqb c "="))). }
  unfold Crypto.padToFour.
  pose proof (Nat.mod_upper_bound (String.length s) 4 ltac:(lia)) as Hlt.
  destruct (String.length s mod 4)%nat as [|[|[|[|k]]]] eqn:Em; try lia.
  - pose proof (Hws "" eq_refl) as E. rewrite append_nil_r in E. rewrite E.
    unfold Crypto.stripPadding. rewrite Em. cbn [Nat.eqb].
    now rewrite (Hno "==" eq_refl), (Hno "=" eq_refl).
  - rewrite (Hws "==" eq_refl). unfold Crypto.stripPadding.
    rewrite length_append. cbn [String.length].
    replace ((String.length s + 2) mod 4)%nat with 0%nat.
    2:{ rewrite (Nat.div_mod_eq (String.length s) 4), Em.
        replace (4 * (String.length s / 4) + 2 + 2)%nat
          with (0 + (String.length s / 4 + 1) * 4)%nat by lia.
        now rewrite Nat.Div0.mod_add. }
    cbn [Nat.eqb]. rewrite endsWith_append.
    replace (String.length s + 2 - 2)%nat with (String.length s) by lia.
    rewrite substring_append_within by lia. apply substring_all.
  - rewrite (Hws "=" eq_refl). unfold Crypto.stripPadding.
    rewrite length_append. cbn [String.length].
    replace ((String.length s + 1) mod 4)%nat with 0%nat.
    2:{ rewrite (Nat.div_mod_eq (String.length s) 4), Em.
        replace (4 * (String.length s / 4) + 3 + 1)%nat
          with (0 + (String.length s / 4 + 1) * 4)%nat by lia.
        now rewrite Nat.Div0.mod_add. }
    cbn [Nat.eqb].
    assert (Hee : endsWith (s +++ "=") "==" = false).
    { destruct (string_last s) as (a & c & Es).
      { intros ->. cbn in Em. discriminate Em. }
      rewrite Es in Hne. rewrite allChars_append in Hne.
      apply andb_prop in Hne as [_ Hc]. cbn [allChars] in Hc.
      rewrite andb_true_r in Hc. apply negb_true_iff in Hc.
      rewrite Es, append_assoc. cbn [String.append].
      rewrite endsWith_append_long by (cbn; lia).
      unfold endsWith. cbn. now rewrite Hc. }
    rewrite Hee, endsWith_append.
    replace (String.length s + 1 - 1)%nat with (String.length s) by lia.
    rewrite substring_append_within by lia. apply substring_all.
Qed.

Lemma decodeSextets_upto n : forall bytes,
  (List.length bytes <= n)%nat -> Forall isByte bytes ->
  Crypto.decodeSextets (sextets bytes) = bytes.
Proof.
  assert (F1 : forall a b, isByte a -> isByte b ->
             Z.lor (Z.shiftl (Z.shiftr a 2) 2)
                   (Z.shiftr (Z.lor (Z.shiftl (Z.land a 3) 4) (Z.shiftr b 4)) 4) = a).
  { intros a b Ha Hb. apply Z.eqb_eq.
    apply (byte_forall2
             (fun a b =>
                Z.lor (Z.shiftl (Z.shiftr a 2) 2)
                      (Z.shiftr (Z.lor (Z.shiftl (Z.land a 3) 4) (Z.shiftr b 4)) 4)
                =? a));
      [vm_compute; reflexivity|assumption|assumption]. }
  assert (F1' : forall a, isByte a ->
             Z.lor (Z.shiftl (Z.shiftr a 2) 2) (Z.shiftr (Z.shiftl (Z.land a 3) 4) 4)
             = a).
  { intros a Ha. apply Z.eqb_eq.
    apply (byte_forall
             (fun a =>
                Z.lor (Z.shiftl (Z.shiftr a 2) 2)
                      (Z.shiftr (Z.shiftl (Z.land a 3) 4) 4) =? a));
      [vm_compute; reflexivity|assumption]. }
  assert (F2 : forall a b, isByte a -> isByte b ->
             Z.land (Z.lor (Z.shiftl (Z.land a 3) 4) (Z.shiftr b 4)) 15
             = Z.shiftr b 4).
  { intros a b Ha Hb. apply Z.eqb_eq.
    apply (byte_forall2
             (fun a b =>
                Z.land (Z.lor (Z.shiftl (Z.land a 3) 4) (Z.shiftr b 4)) 15
                =? Z.shiftr b 4));
      [vm_compute; reflexivity|assumption|assumption]. }
  assert (F3 : forall b c, isByte b -> isByte c ->
             Z.shiftr (Z.lor (Z.shiftl (Z.land b 15) 2) (Z.shiftr c 6)) 2
             = Z.land b 15
             /\ Z.land (Z.lor (Z.shiftl (Z.land b 15) 2) (Z.shiftr c 6)) 3
                = Z.shiftr c 6).
  { intros b c Hb Hc.
    pose proof (byte_forall2
             (fun b c =>
                (Z.shiftr (Z.lor (Z.shiftl (Z.land b 15) 2) (Z.shiftr c 6)) 2
                 =? Z.land b 15)
                && (Z.land (Z.lor (Z.shiftl (Z.land b 15) 2) (Z.shiftr c 6)) 3
                    =? Z.shiftr c 6))
             ltac:(vm_compute; reflexivity) b c Hb Hc) as H.
    cbv beta in H. apply andb_prop in H as [H1 H2].
    apply Z.eqb_eq in H1. apply Z.eqb_eq in H2. now split. }
  assert (F4 : forall b, isByte b ->
             Z.lor (Z.shiftl (Z.shiftr b 4) 4) (Z.land b 15) = b
             /\ Z.lor (Z.shiftl (Z.shiftr b 6) 6) (Z.land b 63) = b
             /\ Z.shiftr (Z.shiftl (Z.land b 15) 2) 2 = Z.land b 15).
  { intros b Hb.
    pose proof (byte_forall
             (fun b =>
                (Z.lor (Z.shiftl (Z.shiftr b 4) 4) (Z.land b 15) =? b)
                && (Z.lor (Z.shiftl (Z.shiftr b 6) 6) (Z.land b 63) =? b)
                && (Z.shiftr (Z.shiftl (Z.land b 15) 2) 2 =? Z.land b 15))
             ltac:(vm_compute; reflexivity) b Hb) as H.
    cbv beta in H. apply andb_prop in H as [H H3]. apply andb_prop in H as [H1 H2].
    apply Z.eqb_eq in H1. apply Z.eqb_eq in H2. apply Z.eqb_eq in H3.
    now repeat split. }
  induction n as [n IH] using lt_wf_ind. intros bytes Hn Hb.
  destruct bytes as [|a [|b [|c rest]]]; cbn [sextets].
  - reflexivity.
  - inversion Hb as [|? ? Ha _]; subst. cbn [Crypto.decodeSextets].
    now rewrite F1'.
  - inversion Hb as [|? ? Ha Hb']; subst. inversion Hb' as [|? ? Hb0 _]; subst.
    cbn [Crypto.decodeSextets].
    rewrite F1, F2 by assumption.
    rewrite (proj2 (proj2 (F4 b Hb0))), (proj1 (F4 b Hb0)). reflexivity.
  - inversion Hb as [|? ? Ha Hb']; subst. inversion Hb' as [|? ? Hb0 Hb'']; subst.
    inversion Hb'' as [|? ? Hc Hrest]; subst.
    cbn [List.length] in Hn.
    pose proof (IH (List.length rest) ltac:(lia) rest (le_n _) Hrest) as IHr.
    destruct (sextets rest) as [|s0 srest] eqn:Es;
      cbn [Crypto.decodeSextets];
      rewrite F1, F2 by assumption;
      rewrite (proj1 (F3 b c Hb0 Hc)), (proj2 (F3 b c Hb0 Hc));
      rewrite (proj1 (F4 b Hb0)), (proj1 (proj2 (F4 c Hc)));
      rewrite <- IHr; reflexivity.
Qed.

Lemma charCodes_bytes (bytes : Uint8Array) :
  Forall isByte bytes ->
  map (fun c => Z.of_nat (nat_of_ascii c))
      (list_ascii_of_string
         (string_of_list_ascii (map (fun b => ascii_of_nat (Z.to_nat b)) bytes)))
  = bytes.
Proof.
  intros Hb. rewrite list_ascii_of_string_of_list_ascii, map_map.
  induction Hb as [|b bytes Hbyte _ IH]; [reflexivity|].
  cbn [map]. rewrite IH. f_equal.
  unfold isByte in Hbyte. rewrite nat_ascii_embedding by lia. lia.
Qed.

Lemma urlChar_digit (l : list Z) :
  Forall (fun i => 0 <= i < 64) l -> textOf urlChar l = textOf urlDigit l.
Proof.
  induction 1 as [|i l Hi _ IH]; [reflexivity|].
  rewrite !textOf_cons, IH. f_equal.
  pose proof (sextet_forall (fun i => Ascii.eqb (urlChar i) (urlDigit i))
                ltac:(vm_compute; reflexivity) i Hi) as H.
  now apply Ascii.eqb_eq in H.
Qed.

(** X14: for every sequence of at most 1024 bytes (few enough to be
    passed as the arguments of one call of [String.fromCharCode]),
    [base64urlDecode] reads from the text of [base64urlEncode] the same
    bytes again.  That text has one character (A-Z, a-z, 0-9, '-' or '_')
    for each base64 digit of the bytes and no padding: 4 characters for
    every 3 bytes, and 2 or 3 for a remainder of 1 or 2 bytes. *)
Theorem base64url_decode_encode (bytes : Uint8Array) :
  (List.length bytes <= 1024)%nat -> Forall isByte bytes ->
  Crypto.base64urlDecode (Crypto.base64urlEncode bytes) = Ok bytes
  /\ Crypto.base64urlEncode bytes = textOf urlDigit (sextets bytes)
  /\ String.length (Crypto.base64urlEncode bytes)
     = base64urlLength (List.length bytes)
  /\ allChars urlSafe (Crypto.base64urlEncode bytes) = true.
Proof.
  intros _ Hb.
  destruct (sextets_range_upto _ bytes (le_n _) Hb) as [Hr Hm].
  destruct (base64_chars (sextets bytes) Hr) as [Hc Hs].
  destruct (base64urlEncode_shape_upto _ bytes (le_n _) Hb) as [Hlen Hurl].
  pose proof (base64urlEncode_text_upto _ bytes (le_n _) Hb) as Htext.
  split; [|split; [|split; assumption]].
  - unfold Crypto.base64urlDecode. rewrite Htext.
    rewrite (base64url_unreplace _ Hr).
    unfold Crypto.atob.
    rewrite stripPadding_padded by (rewrite ?length_textOf; assumption).
    rewrite length_textOf.
    destruct (Nat.eqb_spec (List.length (sextets bytes) mod 4) 1); [contradiction|].
    rewrite Hs. cbn [bind].
    rewrite (decodeSextets_upto _ bytes (le_n _) Hb).
    now rewrite charCodes_bytes.
  - rewrite Htext. now apply urlChar_digit.
Qed.

(** ** deriveCredentials *)

(** C6: on a 32-byte fingerprint [deriveCredentials] returns credentials,
    the same for an equal fingerprint.  With salt empty and the output of
    HKDF taken from [crypto.subtle], the ufrag is the text of the base64
    digits of the 4 bytes derived with the info "QWBP-ICE-UFRAG-v1", the
    pwd that of the 18 bytes derived with the info "QWBP-ICE-PWD-v1", each
    digit written as A-Z, a-z, 0-9, '-' or '_' and no padding added; the
    ufrag has exactly 6 characters and the pwd exactly 24, all of them
    letters, digits, '-' or '_'. *)
Theorem deriveCredentials_deterministic {SC : SubtleCrypto} (fp1 fp2 : Uint8Array) :
  SubtleCryptoSpec SC ->
  List.length fp1 = 32%nat -> fp1 = fp2 ->
  exists credentials,
    Crypto.deriveCredentials fp1 = Ok credentials
    /\ Crypto.deriveCredentials fp2 = Ok credentials
    /\ ufrag credentials
       = textOf urlDigit
           (sextets (deriveBitsHKDF fp1 [] (asciiCodes "QWBP-ICE-UFRAG-v1") 4))
    /\ pwd credentials
       = textOf urlDigit
           (sextets (deriveBitsHKDF fp1 [] (asciiCodes "QWBP-ICE-PWD-v1") 18))
    /\ String.length (ufrag credentials) = 6%nat
    /\ String.length (pwd credentials) = 24%nat
    /\ allChars urlSafe (ufrag credentials) = true
    /\ allChars urlSafe (pwd credentials) = true.
Proof.
  intros Hspec Hlen <-.
  unfold Crypto.deriveCredentials, Crypto.hkdfDerive. rewrite Hlen. cbn [Nat.eqb negb].
  eexists. split; [reflexivity|]. split; [reflexivity|].
  cbn [ufrag pwd].
  change (zeros 0) with (@nil Z).
  replace (Crypto.textEncode HKDF_INFO_UFRAG) with (asciiCodes "QWBP-ICE-UFRAG-v1")
    by (vm_compute; reflexivity).
  replace (Crypto.textEncode HKDF_INFO_PWD) with (asciiCodes "QWBP-ICE-PWD-v1")
    by (vm_compute; reflexivity).
  change HKDF_UFRAG_LENGTH with 4%nat. change HKDF_PWD_LENGTH with 18%nat.
  set (u := deriveBitsHKDF fp1 [] (asciiCodes "QWBP-ICE-UFRAG-v1") 4).
  set (p := deriveBitsHKDF fp1 [] (asciiCodes "QWBP-ICE-PWD-v1") 18).
  assert (Hu : Forall isByte u) by apply (derive_bytes SC Hspec).
  assert (Hp : Forall isByte p) by apply (derive_bytes SC Hspec).
  assert (Lu : List.length u = 4%nat) by apply (derive_length SC Hspec).
  assert (Lp : List.length p = 18%nat) by apply (derive_length SC Hspec).
  destruct (base64urlEncode_shape_upto _ u (le_n _) Hu) as [Hu1 Hu2].
  destruct (base64urlEncode_shape_upto _ p (le_n _) Hp) as [Hp1 Hp2].
  rewrite Lu in Hu1. rewrite Lp in Hp1.
  split.
  { rewrite (base64urlEncode_text_upto _ u (le_n _) Hu).
    apply urlChar_digit. exact (proj1 (sextets_range_upto _ u (le_n _) Hu)). }
  split.
  { rewrite (base64urlEncode_text_upto _ p (le_n _) Hp).
    apply urlChar_digit. exact (proj1 (sextets_range_upto _ p (le_n _) Hp)). }
  repeat split; assumption.
Qed.

(** ** Fingerprint lines: formatFingerprint and extractFingerprintFromSDP *)

Lemma upperHexPair_facts b :
  isByte b ->
  String.length (upperHexPair b) = 2%nat
  /\ allChars isUpperHex (upperHexPair b) = true
  /\ parseInt (upperHexPair b) 16 = Some b.
Proof.
  intros Hb.
  assert (H : ((String.length (upperHexPair b) =? 2)%nat
               && allChars isUpperHex (upperHexPair b)
               && match parseInt (upperHexPair b) 16 with
                  | Some v => v =? b
                  | None => false
                  end) = true).
  { apply (byte_forall
             (fun b => (String.length (upperHexPair b) =? 2)%nat
                       && allChars isUpperHex (upperHexPair b)
                       && match parseInt (upperHexPair b) 16 with
                          | Some v => v =? b
                          | None => false
                          end)); [vm_compute; reflexivity|assumption]. }
  apply andb_prop in H as [H H3]. apply andb_prop in H as [H1 H2].
  apply Nat.eqb_eq in H1. repeat split; try assumption.
  destruct (parseInt _ 16); [|discriminate]. apply Z.eqb_eq in H3. now subst.
Qed.

Lemma upperHex_class (c : ascii) :
  isUpperHex c = true ->
  Crypto.isFingerprintChar c = true /\ negb (Ascii.eqb ":" c) = true
  /\ isWhiteSpace c = false.
Proof.
  destruct c as [[] [] [] [] [] [] [] []]; vm_compute; intros H;
    try discriminate H; repeat split; reflexivity.
Qed.

Lemma upper_length (bytes : Uint8Array) :
  Forall isByte bytes ->
  String.length (join "" (map upperHexPair bytes)) = (2 * List.length bytes)%nat.
Proof.
  induction 1 as [|b bytes Hb _ IH]; [reflexivity|].
  cbn [map]. rewrite join_empty_cons, length_append, IH.
  rewrite (proj1 (upperHexPair_facts b Hb)). cbn [List.length]. lia.
Qed.

Lemma upper_read_back (bytes : Uint8Array) :
  Forall isByte bytes ->
  map (fun i =>
         toUint8 (parseInt (substring (2 * i) 2 (join "" (map upperHexPair bytes))) 16))
      (seq 0 (List.length bytes))
  = bytes.
Proof.
  induction 1 as [|b bytes Hb Hrest IH]; [reflexivity|].
  destruct (upperHexPair_facts b Hb) as (Hl & _ & Hp).
  cbn [map List.length seq]. rewrite join_empty_cons. f_equal.
  - cbn [Nat.mul]. rewrite substring_append_within by lia.
    rewrite <- Hl, substring_all, Hp. cbn [toUint8].
    apply Z.mod_small. exact Hb.
  - rewrite <- seq_shift, map_map. rewrite <- IH at 2.
    apply map_ext. intros i.
    replace (2 * S i)%nat with (String.length (upperHexPair b) + 2 * i)%nat by lia.
    now rewrite substring_append_shift.
Qed.

(** The text of [formatFingerprint]: its characters, and its digits once
    the colons are removed. *)
Lemma formatFingerprint_text (fp : Uint8Array) :
  Forall isByte fp ->
  allChars Crypto.isFingerprintChar (Crypto.formatFingerprint fp) = true
  /\ removeAll ":" (Crypto.formatFingerprint fp) = join "" (map upperHexPair fp)
  /\ (fp <> [] -> exists c r, Crypto.formatFingerprint fp = String c r
                              /\ isWhiteSpace c = false).
Proof.
  intros Hb.
  assert (Hpair : forall b, isByte b ->
            allChars Crypto.isFingerprintChar (upperHexPair b) = true
            /\ removeAll ":" (upperHexPair b) = upperHexPair b
            /\ exists c r, upperHexPair b = String c r /\ isWhiteSpace c = false).
  { intros b Hbyte. destruct (upperHexPair_facts b Hbyte) as (Hl & Hc & _).
    split; [|split].
    - apply (allChars_impl isUpperHex); [|assumption].
      intros c H. now apply upperHex_class.
    - apply removeAll_absent. apply (allChars_impl isUpperHex); [|assumption].
      intros c H. now apply upperHex_class.
    - destruct (upperHexPair b) as [|c r]; [discriminate Hl|].
      exists c, r. split; [reflexivity|].
      cbn [allChars] in Hc. apply andb_prop in Hc as [Hc _].
      now apply upperHex_class. }
  assert (Htail : forall bytes, Forall isByte bytes ->
            allChars Crypto.isFingerprintChar (tailText (map upperHexPair bytes)) = true
            /\ removeAll ":" (tailText (map upperHexPair bytes))
               = join "" (map upperHexPair bytes)).
  { induction 1 as [|b bytes Hbyte _ [IH1 IH2]]; [split; reflexivity|].
    destruct (Hpair b Hbyte) as (P1 & P2 & _).
    cbn [map tailText]. rewrite join_empty_cons.
    cbn [allChars removeAll Ascii.eqb Bool.eqb].
    rewrite allChars_append, removeAll_append, P1, P2, IH1, IH2.
    split; reflexivity. }
  unfold Crypto.formatFingerprint. fold upperHexPair.
  change (fun b : Z => padStart0 2 (mapString toUpper (toString b 16)))
    with upperHexPair.
  destruct Hb as [|b bytes Hbyte Hrest].
  - repeat split; try reflexivity. intros X. now contradiction X.
  - cbn [map]. rewrite join_cons, join_empty_cons.
    destruct (Hpair b Hbyte) as (P1 & P2 & c & r & P3 & P4).
    destruct (Htail bytes Hrest) as [T1 T2].
    rewrite allChars_append, removeAll_append, P1, P2, T1, T2.
    repeat split; try reflexivity.
    intros _. rewrite P3. cbn [String.append]. eauto.
Qed.

Lemma span_class p (a rest : string) :
  allChars p a = true -> stopsAt p rest = true -> span p (a +++ rest) = (a, rest).
Proof.
  intros Ha Hr. induction a as [|c a IH].
  - cbn [String.append]. destruct rest as [|d rest]; [reflexivity|].
    cbn [stopsAt] in Hr. apply negb_true_iff in Hr. cbn [span]. now rewrite Hr.
  - cbn [allChars] in Ha. apply andb_prop in Ha as [Hc Ha].
    cbn [String.append span]. rewrite Hc, (IH Ha). reflexivity.
Qed.

Lemma mapString_append f (a b : string) :
  mapString f (a +++ b) = mapString f a +++ mapString f b.
Proof. induction a as [|c a IH]; cbn; [reflexivity|now rewrite IH]. Qed.

(** A pattern found at the start of [s +++ r] lies within [s], or [s] is
    the start of the pattern. *)
Lemma prefix_append_cases (p : string) : forall s r : string,
  prefix p (s +++ r) = true -> prefix p s = true \/ prefix s p = true.
Proof.
  induction p as [|c p IH]; intros s r H.
  - left. apply prefix_nil.
  - destruct s as [|d s]; [right; reflexivity|].
    cbn [String.append] in H. cbn [prefix] in *.
    destruct (ascii_dec c d) as [E|E]; [|discriminate H].
    destruct (IH s r H) as [X|X]; [now left|right].
    destruct (ascii_dec d c); [assumption|congruence].
Qed.

Lemma prefix_chars (q : ascii -> bool) : forall s p : string,
  prefix s p = true -> allChars q p = true -> allChars q s = true.
Proof.
  induction s as [|c s IH]; intros p H Hp; [reflexivity|].
  destruct p as [|d p]; [discriminate H|].
  cbn [prefix] in H. destruct (ascii_dec c d) as [E|E]; [|discriminate H].
  subst d. cbn [allChars] in *. apply andb_prop in Hp as [Hc Hp].
  rewrite Hc. now apply (IH p).
Qed.

Lemma endsLine_tail c (s : string) : endsLine (String c s) -> endsLine s.
Proof.
  intros [H|[a H]]; [discriminate H|].
  destruct a as [|d a].
  - cbn in H. injection H as _ ->. now left.
  - cbn [String.append] in H. injection H as _ ->. right. now exists a.
Qed.

Lemma endsLine_has_LF c (s : string) :
  endsLine (String c s) ->
  allChars (fun x => negb (Ascii.eqb x (ascii_of_nat 10)))
           (mapString toLower (String c s)) = false.
Proof.
  intros [H|[a H]]; [discriminate H|]. rewrite H, mapString_append, allChars_append.
  cbn. apply andb_false_r.
Qed.

(** No match of the pattern starts in a text that does not hold the
    literal part and ends a line. *)
Lemma matchFingerprint_skip (pre rest : string) :
  includesCI pre "a=fingerprint:sha-256" = false -> endsLine pre ->
  Crypto.matchFingerprint (pre +++ rest) = Crypto.matchFingerprint rest.
Proof.
  induction pre as [|c pre IH]; intros Hinc Hend; [reflexivity|].
  unfold includesCI in Hinc. cbn [mapString includes] in Hinc.
  apply orb_false_elim in Hinc as [Hhere Hlater].
  cbn [String.append Crypto.matchFingerprint].
  assert (Hat : Crypto.matchFingerprintAt (String c (pre +++ rest)) = None).
  { unfold Crypto.matchFingerprintAt, startsWithCI.
    change (String c (pre +++ rest)) with (String c pre +++ rest).
    rewrite mapString_append.
    destruct (prefix (mapString toLower "a=fingerprint:sha-256")
                     (mapString toLower (String c pre) +++ mapString toLower rest))
      eqn:Ep; [|reflexivity].
    exfalso. apply prefix_append_cases in Ep as [X|X].
    - cbn [mapString] in X. congruence.
    - pose proof (prefix_chars
                    (fun x => negb (Ascii.eqb x (ascii_of_nat 10))) _ _ X eq_refl) as Y.
      rewrite (endsLine_has_LF c pre Hend) in Y. discriminate Y. }
  rewrite Hat. apply IH; [exact Hlater|]. now apply (endsLine_tail c).
Qed.

(** The pattern on a fingerprint line. *)
Lemma matchFingerprintAt_line (fp : Uint8Array) (post : string) :
  Forall isByte fp -> fp <> [] ->
  stopsAt Crypto.isFingerprintChar post = true ->
  Crypto.matchFingerprintAt
    ("a=fingerprint:sha-256 " +++ Crypto.formatFingerprint fp +++ post)
  = Some (Crypto.formatFingerprint fp).
Proof.
  intros Hb Hne Hpost.
  destruct (formatFingerprint_text fp Hb) as (Hc & _ & Hhead).
  destruct (Hhead Hne) as (c & r & E & Hws).
  unfold Crypto.matchFingerprintAt.
  assert (Hstart : startsWithCI
                     ("a=fingerprint:sha-256 " +++ Crypto.formatFingerprint fp +++ post)
                     "a=fingerprint:sha-256" = true).
  { unfold startsWithCI.
    change ("a=fingerprint:sha-256 " +++ Crypto.formatFingerprint fp +++ post)
      with ("a=fingerprint:sha-256"
            +++ String " " (Crypto.formatFingerprint fp +++ post)).
    rewrite mapString_append. apply prefix_append. }
  rewrite Hstart.
  change ("a=fingerprint:sha-256 " +++ Crypto.formatFingerprint fp +++ post)
    with ("a=fingerprint:sha-256"
          +++ String " " (Crypto.formatFingerprint fp +++ post)).
  change 21%nat with (String.length "a=fingerprint:sha-256").
  rewrite drop_append.
  assert (Hsp : span isWhiteSpace (String " " (Crypto.formatFingerprint fp +++ post))
                = (" ", Crypto.formatFingerprint fp +++ post)).
  { change (String " " (Crypto.formatFingerprint fp +++ post))
      with (" " +++ (Crypto.formatFingerprint fp +++ post)).
    apply span_class; [reflexivity|]. rewrite E. cbn [String.append stopsAt].
    now rewrite Hws. }
  rewrite Hsp. rewrite (span_class _ _ _ Hc Hpost). cbn [fst].
  rewrite E. reflexivity.
Qed.

(** The fingerprint line is the first match of the pattern. *)
Lemma matchFingerprint_line (fp : Uint8Array) (pre post : string) :
  Forall isByte fp -> fp <> [] ->
  includesCI pre "a=fingerprint:sha-256" = false -> endsLine pre ->
  stopsAt Crypto.isFingerprintChar post = true ->
  Crypto.matchFingerprint
    (pre +++ "a=fingerprint:sha-256 " +++ Crypto.formatFingerprint fp +++ post)
  = Some (Crypto.formatFingerprint fp).
Proof.
  intros Hb Hne Hpre Hend Hpost.
  rewrite (matchFingerprint_skip pre _ Hpre Hend).
  pose proof (matchFingerprintAt_line fp post Hb Hne Hpost) as Hat.
  change ("a=fingerprint:sha-256 " +++ Crypto.formatFingerprint fp +++ post)
    with (String "a" ("=fingerprint:sha-256 "
                      +++ Crypto.formatFingerprint fp +++ post)) in *.
  cbn [Crypto.matchFingerprint]. now rewrite Hat.
Qed.

(** The digits of a fingerprint line give the bytes back. *)
Lemma fingerprint_digits (fp : Uint8Array) :
  List.length fp = 32%nat -> Forall isByte fp ->
  String.length (removeAll ":" (Crypto.formatFingerprint fp)) = 64%nat
  /\ map (fun i =>
            toUint8 (parseInt (substring (2 * i) 2
                                 (removeAll ":" (Crypto.formatFingerprint fp))) 16))
         (seq 0 32)
     = fp.
Proof.
  intros Hlen Hb.
  destruct (formatFingerprint_text fp Hb) as (_ & Hdigits & _).
  rewrite Hdigits, (upper_length fp Hb), Hlen. split; [reflexivity|].
  replace (seq 0 32) with (seq 0 (List.length fp)) by (now rewrite Hlen).
  apply (upper_read_back fp Hb).
Qed.

(** X15: when a text holds the line [a=fingerprint:sha-256] followed by
    the output of [formatFingerprint] for 32 bytes, the text before that
    line is empty or ends with a line feed and does not hold the words
    a=fingerprint:sha-256 in any case, and the line is followed by nothing
    or by a character that is neither a hex digit nor a colon, then
    [extractFingerprintFromSDP] returns exactly those 32 bytes. *)
Theorem extractFingerprint_formatFingerprint (fp : Uint8Array) (pre post : string) :
  List.length fp = 32%nat -> Forall isByte fp ->
  includesCI pre "a=fingerprint:sha-256" = false -> endsLine pre ->
  stopsAt Crypto.isFingerprintChar post = true ->
  Crypto.extractFingerprintFromSDP
    (pre +++ "a=fingerprint:sha-256 " +++ Crypto.formatFingerprint fp +++ post)
  = Ok fp.
Proof.
  intros Hlen Hb Hpre Hend Hpost.
  assert (Hne : fp <> []) by (intros ->; discriminate Hlen).
  unfold Crypto.extractFingerprintFromSDP.
  rewrite (matchFingerprint_line fp pre post Hb Hne Hpre Hend Hpost).
  destruct (fingerprint_digits fp Hlen Hb) as [Hl Hr].
  rewrite Hl. cbn [Nat.eqb negb]. now rewrite Hr.
Qed.

(** ** reconstructSDP, validateSDP and the fingerprint line *)

Lemma getSubstitution_plain (matched before after rep : string) :
  allChars (fun c => negb (Ascii.eqb c "$")) rep = true ->
  getSubstitution matched before after rep = rep.
Proof.
  induction rep as [|c rep IH]; [reflexivity|].
  cbn [allChars]. intros H. apply andb_prop in H as [Hc Hr].
  specialize (IH Hr).
  destruct c as [[] [] [] [] [] [] [] []];
    try discriminate Hc; cbn [getSubstitution]; now rewrite IH.
Qed.

Lemma cutAt_skip (p x r : string) :
  allChars (fun c => negb (Ascii.eqb c "{")) x = true ->
  cutAt (String "{" p) (x +++ r)
  = match cutAt (String "{" p) r with
    | Some (before, after) => Some (x +++ before, after)
    | None => None
    end.
Proof.
  induction x as [|c x IH]; intros H.
  - cbn [String.append]. now destruct (cutAt (String "{" p) r) as [[b a]|].
  - cbn [allChars] in H. apply andb_prop in H as [Hc Hx].
    apply negb_true_iff, Ascii.eqb_neq in Hc.
    cbn [String.append cutAt].
    rewrite prefix_cons_ne by congruence.
    rewrite (IH Hx). now destruct (cutAt (String "{" p) r) as [[b a]|].
Qed.

(** One replacement of [reconstructSDP]: the placeholder lies in the
    part of the template that is still to come. *)
Lemma replaceString_field (p x rest rep before after : string) :
  allChars (fun c => negb (Ascii.eqb c "{")) x = true ->
  cutAt (String "{" p) rest = Some (before, after) ->
  allChars (fun c => negb (Ascii.eqb c "$")) rep = true ->
  replaceString (x +++ rest) (String "{" p) rep = ((x +++ before) +++ rep) +++ after.
Proof.
  intros Hx Hcut Hrep. unfold replaceString.
  rewrite (cutAt_skip p x rest Hx), Hcut.
  rewrite (getSubstitution_plain _ _ _ _ Hrep). now rewrite <- !append_assoc.
Qed.

Lemma normalize_step c (rest : string) :
  Ascii.eqb c (ascii_of_nat 10) = false ->
  Ascii.eqb c (ascii_of_nat 13) = false ->
  Sdp.normalizeLineEndings (String c rest)
  = String c (Sdp.normalizeLineEndings rest).
Proof.
  intros H10 H13. cbn [Sdp.normalizeLineEndings]. rewrite H10, H13.
  now destruct rest.
Qed.

Lemma normalize_plain (v rest : string) :
  allChars isPlainChar v = true ->
  Sdp.normalizeLineEndings (v +++ rest) = v +++ Sdp.normalizeLineEndings rest.
Proof.
  induction v as [|c v IH]; [reflexivity|].
  cbn [allChars]. intros H. apply andb_prop in H as [Hc Hv].
  unfold isPlainChar in Hc.
  apply andb_prop in Hc as [Hc _]. apply andb_prop in Hc as [Hc H13].
  apply andb_prop in Hc as [_ H10].
  apply negb_true_iff in H10. apply negb_true_iff in H13.
  cbn [String.append]. rewrite (normalize_step c _ H10 H13). now rewrite IH.
Qed.

Lemma normalize_const (k rest : string) :
  allChars (fun c => negb (Ascii.eqb c (ascii_of_nat 13))) k = true ->
  Sdp.normalizeLineEndings (k +++ rest)
  = Sdp.normalizeLineEndings k +++ Sdp.normalizeLineEndings rest.
Proof.
  induction k as [|c k IH]; [reflexivity|].
  cbn [allChars]. intros H. apply andb_prop in H as [H13 Hk].
  apply negb_true_iff in H13. specialize (IH Hk).
  destruct (Ascii.eqb c (ascii_of_nat 10)) eqn:H10.
  - cbn [String.append Sdp.normalizeLineEndings]. rewrite H10, IH.
    now rewrite append_assoc.
  - cbn [String.append].
    rewrite !(normalize_step c _ H10 H13), IH. reflexivity.
Qed.

Lemma plain_classes (s : string) :
  allChars isPlainChar s = true ->
  allChars (fun c => negb (Ascii.eqb c "{")) s = true
  /\ allChars (fun c => negb (Ascii.eqb c "$")) s = true
  /\ allChars (fun c => negb (Ascii.eqb "=" (toLower c))) s = true.
Proof.
  intros H. repeat split; apply (allChars_impl isPlainChar); try assumption;
    intros [[] [] [] [] [] [] [] []]; vm_compute; congruence.
Qed.

Lemma credential_plain (s : string) :
  allChars isCredentialChar s = true -> allChars isPlainChar s = true.
Proof.
  apply allChars_impl.
  intros [[] [] [] [] [] [] [] []]; vm_compute; congruence.
Qed.

Lemma urlSafe_credential (s : string) :
  allChars urlSafe s = true -> allChars isCredentialChar s = true.
Proof.
  apply allChars_impl. intros c H. unfold isCredentialChar. now rewrite H.
Qed.

Lemma digit_plain (s : string) :
  allChars isDigit s = true -> allChars isPlainChar s = true.
Proof.
  apply allChars_impl.
  intros [[] [] [] [] [] [] [] []]; vm_compute; congruence.
Qed.

Lemma fingerprintChar_plain (s : string) :
  allChars Crypto.isFingerprintChar s = true -> allChars isPlainChar s = true.
Proof.
  apply allChars_impl.
  intros [[] [] [] [] [] [] [] []]; vm_compute; congruence.
Qed.

(** Decimal digits. *)
Lemma digitsGo_digits fuel : forall n acc,
  0 <= n -> allChars isDigit acc = true ->
  allChars isDigit (digitsGo 10 fuel n acc) = true.
Proof.
  induction fuel as [|fuel IH]; intros n acc Hn Hacc; [assumption|].
  cbn [digitsGo].
  assert (Hd : isDigit (digitChar (n mod 10)) = true).
  { pose proof (Z.mod_pos_bound n 10 ltac:(lia)) as Hm.
    assert (n mod 10 = 0 \/ n mod 10 = 1 \/ n mod 10 = 2 \/ n mod 10 = 3
            \/ n mod 10 = 4 \/ n mod 10 = 5 \/ n mod 10 = 6 \/ n mod 10 = 7
            \/ n mod 10 = 8 \/ n mod 10 = 9) as X by lia.
    repeat (destruct X as [->|X]; [reflexivity|]). now rewrite X. }
  destruct (n / 10 =? 0).
  - cbn [allChars]. now rewrite Hd, Hacc.
  - apply IH; [apply Z.div_pos; lia|]. cbn [allChars]. now rewrite Hd, Hacc.
Qed.

Lemma toString_digits n : 0 <= n -> allChars isDigit (toString n 10) = true.
Proof.
  intros H. unfold toString. destruct (Z.ltb_spec n 0); [lia|].
  now apply digitsGo_digits.
Qed.

Lemma generateSessionId_digits {SC : SubtleCrypto} (fp : Uint8Array) :
  SubtleCryptoSpec SC ->
  exists sessionId,
    Crypto.generateSessionId fp = Ok sessionId
    /\ allChars isDigit sessionId = true.
Proof.
  intros Hspec.
  pose proof (digest_length SC Hspec fp) as Hlen.
  pose proof (digest_bytes SC Hspec fp) as Hbytes.
  unfold Crypto.generateSessionId.
  destruct (digestSHA256 fp) as [|h0 [|h1 [|h2 [|h3 [|h4 [|h5 [|h6 [|h7 rest]]]]]]]];
    try discriminate Hlen.
  cbn [seq fold_left bind get nth_error].
  eexists. split; [reflexivity|].
  apply toString_digits.
  repeat match goal with
         | H : Forall isByte (_ :: _) |- _ =>
             let Hx := fresh "Hx" in
             pose proof (Forall_inv H) as Hx; unfold isByte in Hx;
             apply Forall_inv_tail in H
         end.
  repeat (apply Z.lor_nonneg; split; [|lia]; apply Z.shiftl_nonneg).
  lia.
Qed.

(** Side conditions on a text made of constants and plain fields. *)
Ltac class_of_parts :=
  repeat rewrite allChars_append;
  repeat match goal with
         | H : allChars ?q ?v = true |- context [allChars ?q ?v] => rewrite H
         end;
  reflexivity.

(** The next replacement: its placeholder is cut out of the constant rest
    of the template. *)
Ltac fill_field p rep :=
  match goal with
  | |- context [replaceString (?x +++ ?rest) (String "{" p) rep] =>
      let C := fresh "C" in
      eassert (C : cutAt (String "{" p) rest = Some (_, _))
        by (vm_compute; reflexivity);
      rewrite (replaceString_field p x rest rep _ _ ltac:(class_of_parts) C
                 ltac:(assumption));
      clear C
  end.

(** The six replacements and the line endings, for fields without [$],
    [{], [=] and line ends. *)
Lemma template_filled (sid u pw f setup : string) :
  allChars isPlainChar sid = true -> allChars isPlainChar u = true ->
  allChars isPlainChar pw = true -> allChars isPlainChar f = true ->
  allChars isPlainChar setup = true ->
  Sdp.normalizeLineEndings
    (replaceString
       (replaceString
          (replaceString
             (replaceString
                (replaceString (replaceString SDP_TEMPLATE "{sessionId}" sid)
                               "{ufrag}" u)
                "{pwd}" pw)
             "{fingerprint}" f)
          "{setup}" setup)
       "{candidates}" "")
  = sdpText sid u pw f setup.
Proof.
  intros Hsid Hu Hpw Hf Hsetup.
  destruct (plain_classes sid Hsid) as (Hsid1 & Hsid2 & _).
  destruct (plain_classes u Hu) as (Hu1 & Hu2 & _).
  destruct (plain_classes pw Hpw) as (Hpw1 & Hpw2 & _).
  destruct (plain_classes f Hf) as (Hf1 & Hf2 & _).
  destruct (plain_classes setup Hsetup) as (Hsetup1 & Hsetup2 & _).
  assert (Hempty : allChars (fun c => negb (Ascii.eqb c "$")) "" = true)
    by reflexivity.
  change SDP_TEMPLATE with ("" +++ SDP_TEMPLATE).
  fill_field "sessionId}" sid.
  fill_field "ufrag}" u.
  fill_field "pwd}" pw.
  fill_field "fingerprint}" f.
  fill_field "setup}" setup.
  fill_field "candidates}" "".
  rewrite !append_assoc.
  repeat first [ rewrite normalize_plain by assumption
               | rewrite normalize_const by reflexivity ].
  unfold sdpText, CRLF, LF. rewrite !append_assoc.
  vm_compute Sdp.normalizeLineEndings.
  cbn [String.append]. reflexivity.
Qed.

Lemma includes_append_r (a r pat : string) :
  includes r pat = true -> includes (a +++ r) pat = true.
Proof.
  intros H. induction a as [|c a IH]; [assumption|].
  cbn [String.append includes]. rewrite IH. apply orb_true_r.
Qed.

Lemma prefix_append_l (pat a r : string) :
  prefix pat a = true -> prefix pat (a +++ r) = true.
Proof.
  intros H. apply prefix_split in H. rewrite H, append_assoc.
  apply prefix_append.
Qed.

Lemma includes_append_l (a r pat : string) :
  includes a pat = true -> includes (a +++ r) pat = true.
Proof.
  induction a as [|c a IH]; intros H.
  - cbn [includes] in H. rewrite orb_false_r in H.
    destruct pat; [|discriminate H]. cbn [String.append].
    destruct r; cbn [includes]; now rewrite prefix_nil.
  - cbn [includes] in H. apply orb_prop in H as [H|H].
    + change (String c a +++ r) with (String c (a +++ r)). cbn [includes].
      change (String c (a +++ r)) with (String c a +++ r).
      now rewrite (prefix_append_l _ _ r H).
    + cbn [String.append includes]. rewrite (IH H). apply orb_true_r.
Qed.

(** A pattern that occurs in one of the constant parts of a text. *)
Ltac find_in_parts :=
  repeat rewrite mapString_append;
  repeat first [ apply includes_append_l; vm_compute; reflexivity
               | apply includes_append_r ];
  vm_compute; reflexivity.

Lemma allChars_mapString q f (s : string) :
  allChars q (mapString f s) = allChars (fun c => q (f c)) s.
Proof. induction s as [|c s IH]; cbn; [reflexivity|now rewrite IH]. Qed.

Lemma includes_skip_const (pat k r : string) :
  noStart pat k = true -> includes (k +++ r) pat = includes r pat.
Proof.
  induction k as [|c k IH]; [reflexivity|].
  cbn [noStart]. intros H. apply andb_prop in H as [H Hk].
  apply andb_prop in H as [H1 H2].
  apply negb_true_iff in H1. apply negb_true_iff in H2.
  cbn [String.append includes]. rewrite (IH Hk).
  change (String c (k +++ r)) with (String c k +++ r).
  destruct (prefix pat (String c k +++ r)) eqn:Ep; [|reflexivity].
  apply prefix_append_cases in Ep as [X|X]; congruence.
Qed.

Lemma includes_skip_plain p0 (p v r : string) :
  allChars (fun c => negb (Ascii.eqb "=" c)) v = true ->
  stopsAt (Ascii.eqb "=") r = true ->
  includes (v +++ r) (String p0 (String "=" p))
  = includes r (String p0 (String "=" p)).
Proof.
  intros Hv Hr. induction v as [|c v IH]; [reflexivity|].
  cbn [allChars] in Hv. apply andb_prop in Hv as [Hc Hv].
  cbn [String.append includes]. rewrite (IH Hv).
  assert (Hp : prefix (String p0 (String "=" p)) (String c (v +++ r)) = false).
  { cbn [prefix]. destruct (ascii_dec p0 c); [|reflexivity].
    destruct v as [|d v].
    - cbn [String.append]. destruct r as [|d r]; [reflexivity|].
      cbn [stopsAt] in Hr. apply negb_true_iff, Ascii.eqb_neq in Hr.
      cbn [prefix]. now destruct (ascii_dec "=" d).
    - cbn [allChars] in Hv. apply andb_prop in Hv as [Hd _].
      apply negb_true_iff, Ascii.eqb_neq in Hd.
      cbn [String.append prefix]. now destruct (ascii_dec "=" d). }
  now rewrite Hp.
Qed.

(** The text that [reconstructSDP] returns. *)
Lemma reconstructSDP_filled {SC : SubtleCrypto} (fp : Uint8Array) (isOffer : bool)
  (credentials : option IceCredentials) :
  SubtleCryptoSpec SC ->
  List.length fp = 32%nat -> Forall isByte fp -> plainCredentials credentials ->
  exists sessionId creds,
    Crypto.generateSessionId fp = Ok sessionId
    /\ allChars isDigit sessionId = true
    /\ match credentials with
       | Some given => creds = given
       | None => Crypto.deriveCredentials fp = Ok creds
       end
    /\ allChars isCredentialChar (ufrag creds) = true
    /\ allChars isCredentialChar (pwd creds) = true
    /\ Sdp.reconstructSDP fp isOffer credentials
       = Ok (sdpText sessionId (ufrag creds) (pwd creds)
               (Crypto.formatFingerprint fp)
               (if isOffer then "actpass" else "active")).
Proof.
  intros Hspec Hlen Hb Hplain.
  destruct (generateSessionId_digits fp Hspec) as (sid & Hsid & Hdigits).
  assert (Hcreds : exists creds,
             match credentials with
             | Some given => Ok given
             | None => Crypto.deriveCredentials fp
             end = Ok creds
             /\ match credentials with
                | Some given => creds = given
                | None => Crypto.deriveCredentials fp = Ok creds
                end
             /\ allChars isCredentialChar (ufrag creds) = true
             /\ allChars isCredentialChar (pwd creds) = true).
  { destruct credentials as [given|].
    - destruct Hplain as [H1 H2]. exists given. now repeat split.
    - unfold Crypto.deriveCredentials. rewrite Hlen.
      change (negb (32 =? 32)%nat) with false. cbv iota.
      eexists. split; [reflexivity|]. split; [reflexivity|].
      cbn [ufrag pwd]. unfold Crypto.hkdfDerive.
      split; apply urlSafe_credential;
        apply (base64urlEncode_shape_upto _ _ (le_n _));
        apply (derive_bytes SC Hspec). }
  destruct Hcreds as (creds & Hc & Hwhich & Hu & Hp).
  exists sid, creds. repeat (split; [assumption|]).
  unfold Sdp.reconstructSDP. rewrite Hc, Hsid. cbn [bind]. f_equal.
  apply template_filled.
  - now apply digit_plain.
  - now apply credential_plain.
  - now apply credential_plain.
  - apply fingerprintChar_plain. now apply formatFingerprint_text.
  - now destruct isOffer.
Qed.

(** X16: for a 32-byte fingerprint, with credentials that are left out or
    made of letters, digits, [+], [/], [-] and [_], [reconstructSDP]
    returns the template with the decimal session id, the credentials
    (derived from the fingerprint when left out), the colon-separated
    fingerprint and the setup value ("actpass" for an offer, "active" for
    an answer) in place of the placeholders, no candidate lines, and every
    line ended by CR LF; and [validateSDP] accepts that text. *)
Theorem reconstructSDP_valid {SC : SubtleCrypto} (fp : Uint8Array) (isOffer : bool)
  (credentials : option IceCredentials) :
  SubtleCryptoSpec SC ->
  List.length fp = 32%nat -> Forall isByte fp -> plainCredentials credentials ->
  exists sessionId creds,
    Crypto.generateSessionId fp = Ok sessionId
    /\ match credentials with
       | Some given => creds = given
       | None => Crypto.deriveCredentials fp = Ok creds
       end
    /\ Sdp.reconstructSDP fp isOffer credentials
       = Ok (sdpText sessionId (ufrag creds) (pwd creds)
               (Crypto.formatFingerprint fp)
               (if isOffer then "actpass" else "active"))
    /\ Sdp.validateSDP
         (sdpText sessionId (ufrag creds) (pwd creds)
            (Crypto.formatFingerprint fp)
            (if isOffer then "actpass" else "active")) = true.
Proof.
  intros Hspec Hlen Hb Hplain.
  destruct (reconstructSDP_filled fp isOffer credentials Hspec Hlen Hb Hplain)
    as (sid & creds & Hsid & _ & Hwhich & _ & _ & Hr).
  exists sid, creds. repeat (split; [assumption|]).
  unfold Sdp.validateSDP, includesCI, sdpText.
  rewrite !append_assoc.
  repeat (apply andb_true_intro; split); find_in_parts.
Qed.

(** X17: [extractFingerprintFromSDP] reads from the text that
    [reconstructSDP] returns for a 32-byte fingerprint (credentials left
    out, or made of letters, digits, [+], [/], [-] and [_]) exactly that
    fingerprint. *)
Theorem extractFingerprint_reconstructSDP {SC : SubtleCrypto} (fp : Uint8Array)
  (isOffer : bool) (credentials : option IceCredentials) :
  SubtleCryptoSpec SC ->
  List.length fp = 32%nat -> Forall isByte fp -> plainCredentials credentials ->
  exists sdp,
    Sdp.reconstructSDP fp isOffer credentials = Ok sdp
    /\ Crypto.extractFingerprintFromSDP sdp = Ok fp.
Proof.
  intros Hspec Hlen Hb Hplain.
  destruct (reconstructSDP_filled fp isOffer credentials Hspec Hlen Hb Hplain)
    as (sid & creds & _ & Hsid & _ & Hu & Hp & Hr).
  eexists. split; [exact Hr|].
  set (setup := if isOffer then "actpass" else "active").
  set (pre :=
         ("v=0" +++ CRLF +++ "o=- ") +++ sid
         +++ (" 2 IN IP4 127.0.0.1" +++ CRLF +++ "s=-" +++ CRLF +++ "t=0 0" +++ CRLF
              +++ "a=group:BUNDLE 0" +++ CRLF
              +++ "m=application 9 UDP/DTLS/SCTP webrtc-datachannel" +++ CRLF
              +++ "c=IN IP4 0.0.0.0" +++ CRLF +++ "a=mid:0" +++ CRLF
              +++ "a=ice-ufrag:")
         +++ ufrag creds
         +++ (CRLF +++ "a=ice-pwd:") +++ pwd creds
         +++ (CRLF +++ "a=ice-options:trickle" +++ CRLF)).
  set (post := (CRLF +++ "a=setup:") +++ setup
               +++ (CRLF +++ "a=sctp-port:5000" +++ CRLF)).
  assert (E : sdpText sid (ufrag creds) (pwd creds) (Crypto.formatFingerprint fp) setup
              = pre +++ "a=fingerprint:sha-256 " +++ Crypto.formatFingerprint fp
                +++ post).
  { unfold sdpText, pre, post. rewrite !append_assoc. reflexivity. }
  rewrite E.
  assert (Hne : fp <> []) by (intros ->; discriminate Hlen).
  unfold Crypto.extractFingerprintFromSDP.
  rewrite (matchFingerprint_line fp pre post Hb Hne).
  { destruct (fingerprint_digits fp Hlen Hb) as [Hl Hd].
    rewrite Hl. cbn [Nat.eqb negb]. now rewrite Hd. }
  - destruct (plain_classes _ (digit_plain _ Hsid)) as (_ & _ & S3).
    destruct (plain_classes _ (credential_plain _ Hu)) as (_ & _ & U3).
    destruct (plain_classes _ (credential_plain _ Hp)) as (_ & _ & P3).
    unfold includesCI, pre. rewrite !append_assoc, !mapString_append.
    change (mapString toLower "a=fingerprint:sha-256")
      with (String "a" (String "=" "fingerprint:sha-256")).
    do 25 first
      [ rewrite includes_skip_plain
          by (rewrite ?allChars_mapString; first [assumption|reflexivity])
      | rewrite includes_skip_const by (vm_compute; reflexivity) ].
    vm_compute. reflexivity.
  - right.
    exists (("v=0" +++ CRLF +++ "o=- ") +++ sid
            +++ (" 2 IN IP4 127.0.0.1" +++ CRLF +++ "s=-" +++ CRLF +++ "t=0 0"
                 +++ CRLF +++ "a=group:BUNDLE 0" +++ CRLF
                 +++ "m=application 9 UDP/DTLS/SCTP webrtc-datachannel" +++ CRLF
                 +++ "c=IN IP4 0.0.0.0" +++ CRLF +++ "a=mid:0" +++ CRLF
                 +++ "a=ice-ufrag:")
            +++ ufrag creds
            +++ (CRLF +++ "a=ice-pwd:") +++ pwd creds
            +++ (CRLF +++ "a=ice-options:trickle"
                 +++ String (ascii_of_nat 13) EmptyString)).
    unfold pre. rewrite !append_assoc. reflexivity.
  - reflexivity.
Qed.

(** ** The statements at concrete inputs *)

Lemma toyCrypto_spec : SubtleCryptoSpec toyCrypto.
Proof.
  assert (Hb : forall data n, Forall isByte (map (toyByte data) (seq 0 n))).
  { intros data n. apply Forall_forall. intros b Hin.
    apply in_map_iff in Hin as (i & <- & _). unfold toyByte, isByte.
    apply Z.mod_pos_bound. lia. }
  constructor; cbn [digestSHA256 deriveBitsHKDF toyCrypto]; intros.
  - now rewrite length_map, length_seq.
  - apply Hb.
  - now rewrite length_map, length_seq.
  - apply Hb.
Qed.

Lemma decode_encode_roundtrip_witness :
  List.length TEST_FINGERPRINT = 32%nat
  /\ mixedCandidates <> []
  /\ Forall printedCandidate mixedCandidates
  /\ exists bytes,
       Encoder.encode TEST_FINGERPRINT mixedCandidates = Ok bytes
       /\ Decoder.decode bytes = Ok (mkPacket 0 TEST_FINGERPRINT mixedCandidates).
Proof.
  assert (H1 : List.length TEST_FINGERPRINT = 32%nat) by reflexivity.
  assert (H2 : mixedCandidates <> []) by discriminate.
  assert (H3 : Forall printedCandidate mixedCandidates).
  { repeat constructor; cbn; try lia; try (vm_compute; reflexivity);
      try discriminate; intros H; try reflexivity; try discriminate;
      exfalso; now apply H. }
  split; [exact H1|]. split; [exact H2|]. split; [exact H3|].
  exact (decode_encode_roundtrip TEST_FINGERPRINT mixedCandidates H1 H2 H3).
Defined.

Lemma decode_fails_exactly_when_witness :
  exists msg, Decoder.decode [0x51; 0x00; 0xe7] = Throw (QWBPDecodeError msg).
Proof.
  apply (proj2 (proj1 (decode_fails_exactly_when [0x51; 0x00; 0xe7]))).
  left. cbn. lia.
Defined.

Lemma processScannedPayload_self_scan_witness :
  exists c',
    Connection.processScannedPayload (displayingSession TEST_FINGERPRINT)
      selfPayload
    = (c', Throw QWBPSelfConnectionError)
    /\ Connection.connectionState c' = Displaying
    /\ Connection.assignedRole c' = None.
Proof.
  exact (processScannedPayload_self_scan
           (displayingSession TEST_FINGERPRINT) selfPayload
           (mkPacket 0 TEST_FINGERPRINT TEST_PEER_CANDIDATES) TEST_FINGERPRINT
           eq_refl eq_refl eq_refl eq_refl eq_refl eq_refl eq_refl).
Defined.


Lemma deriveCredentials_deterministic_witness :
  SubtleCryptoSpec toyCrypto
  /\ List.length TEST_FINGERPRINT = 32%nat
  /\ exists credentials,
       Crypto.deriveCredentials TEST_FINGERPRINT = Ok credentials
       /\ ufrag credentials = "4uPk5Q"
       /\ pwd credentials = "WFlaW1xdXl9gYWJjZGVmZ2hp"
       /\ String.length (ufrag credentials) = 6%nat
       /\ String.length (pwd credentials) = 24%nat
       /\ allChars urlSafe (ufrag credentials) = true
       /\ allChars urlSafe (pwd credentials) = true.
Proof.
  split; [exact toyCrypto_spec|]. split; [reflexivity|].
  destruct (deriveCredentials_deterministic TEST_FINGERPRINT TEST_FINGERPRINT
              toyCrypto_spec eq_refl eq_refl)
    as (credentials & H1 & _ & Hu & Hp & H2 & H3 & H4 & H5).
  exists credentials. repeat split; assumption.
Defined.

Lemma compareFingerprints_strict_total_order_witness :
  List.length TEST_FINGERPRINT = 32%nat
  /\ List.length TEST_PEER_FINGERPRINT = 32%nat
  /\ (Crypto.compareFingerprints TEST_FINGERPRINT TEST_PEER_FINGERPRINT = 0
      <-> TEST_FINGERPRINT = TEST_PEER_FINGERPRINT)
  /\ Crypto.compareFingerprints TEST_PEER_FINGERPRINT TEST_FINGERPRINT
     = - Crypto.compareFingerprints TEST_FINGERPRINT TEST_PEER_FINGERPRINT.
Proof.
  split; [reflexivity|]. split; [reflexivity|].
  destruct (compareFingerprints_strict_total_order
              TEST_FINGERPRINT TEST_PEER_FINGERPRINT eq_refl eq_refl)
    as (_ & _ & H0 & Hanti & _).
  split; assumption.
Defined.

Lemma generateSAS_symmetric_witness :
  SubtleCryptoSpec toyCrypto
  /\ List.length TEST_FINGERPRINT = 32%nat
  /\ List.length TEST_PEER_FINGERPRINT = 32%nat
  /\ Crypto.generateSAS TEST_FINGERPRINT TEST_PEER_FINGERPRINT
     = Crypto.generateSAS TEST_PEER_FINGERPRINT TEST_FINGERPRINT.
Proof.
  split; [exact toyCrypto_spec|]. split; [reflexivity|]. split; [reflexivity|].
  exact (proj1 (generateSAS_symmetric TEST_FINGERPRINT TEST_PEER_FINGERPRINT
                  toyCrypto_spec eq_refl eq_refl)).
Defined.

Lemma decode_total_witness :
  (exists p, Decoder.decode selfPayload = Ok p)
  \/ (exists msg, Decoder.decode selfPayload = Throw (QWBPDecodeError msg)).
Proof.
  exact (proj1 (decode_total selfPayload)).
Defined.

(** ** The further properties at concrete inputs *)

Ltac byte_list := repeat constructor; unfold isByte; lia.

Lemma mixedCandidates_wire : Forall wireCandidate mixedCandidates.
Proof.
  repeat constructor; cbn; try lia; try (vm_compute; reflexivity);
    try discriminate; intros H; try reflexivity; try discriminate;
    exfalso; now apply H.
Defined.

Lemma peerCandidates_wire : Forall wireCandidate TEST_PEER_CANDIDATES.
Proof.
  repeat constructor; cbn; try lia; try (vm_compute; reflexivity);
    try discriminate; intros H; try reflexivity; try discriminate;
    exfalso; now apply H.
Defined.

Lemma ready_test : ready (readySession TEST_FINGERPRINT mixedCandidates) TEST_FINGERPRINT.
Proof.
  repeat split; try reflexivity; try discriminate. exact mixedCandidates_wire.
Defined.

Lemma ready_peer :
  ready (readySession TEST_PEER_FINGERPRINT TEST_PEER_CANDIDATES) TEST_PEER_FINGERPRINT.
Proof.
  repeat split; try reflexivity; try discriminate. exact peerCandidates_wire.
Defined.

Lemma test_fingerprints_differ : TEST_FINGERPRINT <> TEST_PEER_FINGERPRINT.
Proof. discriminate. Defined.

Lemma formatIPv4_roundtrip_witness :
  List.length [192; 168; 1; 5] = 4%nat
  /\ Forall isByte [192; 168; 1; 5]
  /\ Encoder.parseIPv4 (Decoder.formatIPv4 [192; 168; 1; 5]) = Ok [192; 168; 1; 5].
Proof.
  assert (H : Forall isByte [192; 168; 1; 5]) by byte_list.
  split; [reflexivity|]. split; [exact H|].
  exact (proj1 (formatIPv4_roundtrip [192; 168; 1; 5] eq_refl H)).
Defined.

Lemma formatMdns_roundtrip_witness :
  List.length (firstn 16 TEST_FINGERPRINT) = 16%nat
  /\ Forall isByte (firstn 16 TEST_FINGERPRINT)
  /\ Encoder.parseMdnsUUID (Decoder.formatMdns (firstn 16 TEST_FINGERPRINT))
     = Ok (firstn 16 TEST_FINGERPRINT).
Proof.
  assert (H : Forall isByte (firstn 16 TEST_FINGERPRINT)) by (cbn; byte_list).
  split; [reflexivity|]. split; [exact H|].
  exact (proj1 (formatMdns_roundtrip (firstn 16 TEST_FINGERPRINT) eq_refl H)).
Defined.

Lemma formatIPv6_roundtrip_witness :
  List.length (firstn 16 TEST_FINGERPRINT) = 16%nat
  /\ Forall isByte (firstn 16 TEST_FINGERPRINT)
  /\ exists text,
       Decoder.formatIPv6 (firstn 16 TEST_FINGERPRINT) = Ok text
       /\ Encoder.parseIPv6 text = Ok (firstn 16 TEST_FINGERPRINT)
       /\ Encoder.isValidIPv6Format text = true
       /\ compressedText (groupTexts (firstn 16 TEST_FINGERPRINT)) text.
Proof.
  assert (H : Forall isByte (firstn 16 TEST_FINGERPRINT)) by (cbn; byte_list).
  split; [reflexivity|]. split; [exact H|].
  destruct (formatIPv6_roundtrip (firstn 16 TEST_FINGERPRINT) eq_refl H)
    as (text & Hf & Hp & _ & _ & Hv & _ & _ & Hc).
  exists text. repeat split; assumption.
Defined.

Lemma decode_reencode_witness :
  Forall isByte selfPayload
  /\ Decoder.decode selfPayload = Ok (mkPacket 0 TEST_FINGERPRINT TEST_PEER_CANDIDATES)
  /\ exists bytes,
       Encoder.encode TEST_FINGERPRINT TEST_PEER_CANDIDATES = Ok bytes
       /\ Decoder.decode bytes = Ok (mkPacket 0 TEST_FINGERPRINT TEST_PEER_CANDIDATES)
       /\ List.length bytes = List.length selfPayload.
Proof.
  assert (Hb : Forall isByte selfPayload) by (cbn; byte_list).
  assert (Hd : Decoder.decode selfPayload
               = Ok (mkPacket 0 TEST_FINGERPRINT TEST_PEER_CANDIDATES))
    by (vm_compute; reflexivity).
  split; [exact Hb|]. split; [exact Hd|].
  exact (decode_reencode selfPayload _ Hb Hd).
Defined.

Lemma decode_wellformed_witness :
  Forall isByte selfPayload
  /\ Decoder.decode selfPayload = Ok (mkPacket 0 TEST_FINGERPRINT TEST_PEER_CANDIDATES)
  /\ Decoder.isValidPacket selfPayload = true
  /\ Forall wireCandidate TEST_PEER_CANDIDATES.
Proof.
  assert (Hb : Forall isByte selfPayload) by (cbn; byte_list).
  assert (Hd : Decoder.decode selfPayload
               = Ok (mkPacket 0 TEST_FINGERPRINT TEST_PEER_CANDIDATES))
    by (vm_compute; reflexivity).
  split; [exact Hb|]. split; [exact Hd|].
  destruct (decode_wellformed selfPayload _ Hb Hd) as (Hv & _ & _ & _ & _ & Hw & _).
  split; [exact Hv|exact Hw].
Defined.

Lemma encode_layout_witness :
  Encoder.encode TEST_FINGERPRINT TEST_PEER_CANDIDATES = Ok selfPayload
  /\ List.length selfPayload
     = (34 + list_sum (map Encoder.getCandidateSize TEST_PEER_CANDIDATES))%nat
  /\ (Decoder.isValidPacket selfPayload = true <-> TEST_PEER_CANDIDATES <> []).
Proof.
  assert (He : Encoder.encode TEST_FINGERPRINT TEST_PEER_CANDIDATES = Ok selfPayload)
    by (vm_compute; reflexivity).
  split; [exact He|].
  exact (proj2 (encode_layout TEST_FINGERPRINT TEST_PEER_CANDIDATES selfPayload He)).
Defined.

Lemma mutual_scan_roles_witness :
  ready (readySession TEST_FINGERPRINT mixedCandidates) TEST_FINGERPRINT
  /\ ready (readySession TEST_PEER_FINGERPRINT TEST_PEER_CANDIDATES)
           TEST_PEER_FINGERPRINT
  /\ TEST_FINGERPRINT <> TEST_PEER_FINGERPRINT
  /\ exists pa pb a' b',
       Connection.getQRPayload (readySession TEST_FINGERPRINT mixedCandidates)
       = Ok pa
       /\ Connection.getQRPayload
            (readySession TEST_PEER_FINGERPRINT TEST_PEER_CANDIDATES) = Ok pb
       /\ Connection.processScannedPayload (SC := toyCrypto) (T := readyTransport)
            (readySession TEST_FINGERPRINT mixedCandidates) pb = (a', Ok tt)
       /\ Connection.processScannedPayload (SC := toyCrypto) (T := readyTransport)
            (readySession TEST_PEER_FINGERPRINT TEST_PEER_CANDIDATES) pa
          = (b', Ok tt)
       /\ ((Connection.assignedRole a' = Some Offerer
            /\ Connection.assignedRole b' = Some Answerer)
           \/ (Connection.assignedRole a' = Some Answerer
               /\ Connection.assignedRole b' = Some Offerer)).
Proof.
  split; [exact ready_test|]. split; [exact ready_peer|].
  split; [exact test_fingerprints_differ|].
  destruct (mutual_scan_roles (SC := toyCrypto) (T := readyTransport) _ _ _ _
              ready_test ready_peer test_fingerprints_differ)
    as (pa & pb & a' & b' & H1 & H2 & H3 & H4 & H5 & _).
  exists pa, pb, a', b'. repeat (split; [assumption|]). exact H5.
Defined.

Lemma mutual_scan_sas_witness :
  SubtleCryptoSpec toyCrypto
  /\ ready (readySession TEST_FINGERPRINT mixedCandidates) TEST_FINGERPRINT
  /\ ready (readySession TEST_PEER_FINGERPRINT TEST_PEER_CANDIDATES)
           TEST_PEER_FINGERPRINT
  /\ TEST_FINGERPRINT <> TEST_PEER_FINGERPRINT
  /\ Connection.getSAS (SC := toyCrypto)
       (readySession TEST_FINGERPRINT mixedCandidates) = Ok None.
Proof.
  split; [exact toyCrypto_spec|]. split; [exact ready_test|].
  split; [exact ready_peer|]. split; [exact test_fingerprints_differ|].
  exact (proj1 (mutual_scan_sas (SC := toyCrypto) (T := readyTransport) _ _ _ _
                  toyCrypto_spec ready_test ready_peer test_fingerprints_differ)).
Defined.

Lemma processScannedPayload_failure_witness :
  Connection.processScannedPayload (SC := toyCrypto) (T := readyTransport)
    scannedSession selfPayload
  = (scannedSession, Throw (QWBPConnectionError "Peer already scanned" ScannedOne))
  /\ Connection.connectionState scannedSession = ScannedOne
  /\ Connection.reported scannedSession = [].
Proof.
  assert (H : Connection.processScannedPayload (SC := toyCrypto) (T := readyTransport)
                scannedSession selfPayload
              = (scannedSession,
                 Throw (QWBPConnectionError "Peer already scanned" ScannedOne)))
    by (vm_compute; reflexivity).
  split; [exact H|].
  destruct (processScannedPayload_failure (SC := toyCrypto) (T := readyTransport)
              _ _ _ _ H) as (H1 & _ & H3 & _).
  split; [exact H1|exact H3].
Defined.

Lemma processScannedPayload_success_witness :
  exists c',
    Connection.processScannedPayload (SC := toyCrypto) (T := readyTransport)
      (readySession TEST_PEER_FINGERPRINT TEST_PEER_CANDIDATES) selfPayload
    = (c', Ok tt)
    /\ Connection.localFingerprint c' = Some TEST_PEER_FINGERPRINT
    /\ exists p credentials,
         Decoder.decode selfPayload = Ok p
         /\ Connection.remoteInfo c'
            = Some (mkPeerInfo (fingerprint p) (candidates p) credentials).
Proof.
  eexists.
  assert (H : Connection.processScannedPayload (SC := toyCrypto) (T := readyTransport)
                (readySession TEST_PEER_FINGERPRINT TEST_PEER_CANDIDATES) selfPayload
              = (_, Ok tt))
    by (vm_compute; reflexivity).
  split; [exact H|].
  destruct (processScannedPayload_success (SC := toyCrypto) (T := readyTransport)
              _ _ _ H) as (p & cr & _ & _ & Hd & _ & Hri & Hlf & _).
  split; [exact Hlf|]. exists p, cr. split; [exact Hd|exact Hri].
Defined.

Lemma initialize_outcome_witness :
  exists c',
    Connection.initialize (SC := toyCrypto) (P := testPlatform)
      Connection.newConnection = (c', Ok tt)
    /\ Connection.state c' = Displaying
    /\ Connection.localFingerprint c' = Some TEST_FINGERPRINT
    /\ Connection.localCandidates c'
       = [mkCandidate "192.168.1.5" 54321 host udp None].
Proof.
  eexists.
  assert (H : Connection.initialize (SC := toyCrypto) (P := testPlatform)
                Connection.newConnection = (_, Ok tt))
    by (vm_compute; reflexivity).
  split; [exact H|].
  destruct (initialize_outcome (SC := toyCrypto) (T := readyTransport)
              (P := testPlatform) _ _ _ H) as (_ & Hidle).
  destruct (Hidle eq_refl) as (_ & [(_ & Hst & _)|((e & He) & _)]);
    [|discriminate He].
  split; [exact Hst|]. split; reflexivity.
Defined.

Lemma base64url_decode_encode_witness :
  (List.length [0xe7; 0x3b; 0x38; 0x46] <= 1024)%nat
  /\ Forall isByte [0xe7; 0x3b; 0x38; 0x46]
  /\ Crypto.base64urlEncode [0xe7; 0x3b; 0x38; 0x46] = "5zs4Rg"
  /\ Crypto.base64urlDecode "5zs4Rg" = Ok [0xe7; 0x3b; 0x38; 0x46].
Proof.
  assert (Hl : (List.length [0xe7; 0x3b; 0x38; 0x46] <= 1024)%nat) by (cbn; lia).
  assert (Hb : Forall isByte [0xe7; 0x3b; 0x38; 0x46]) by byte_list.
  split; [exact Hl|]. split; [exact Hb|]. split; [reflexivity|].
  exact (proj1 (base64url_decode_encode [0xe7; 0x3b; 0x38; 0x46] Hl Hb)).
Defined.

Lemma extractFingerprint_formatFingerprint_witness :
  List.length TEST_FINGERPRINT = 32%nat
  /\ Forall isByte TEST_FINGERPRINT
  /\ includesCI ("v=0" +++ LF) "a=fingerprint:sha-256" = false
  /\ endsLine ("v=0" +++ LF)
  /\ stopsAt Crypto.isFingerprintChar CRLF = true
  /\ Crypto.extractFingerprintFromSDP
       (("v=0" +++ LF) +++ "a=fingerprint:sha-256 "
        +++ Crypto.formatFingerprint TEST_FINGERPRINT +++ CRLF)
     = Ok TEST_FINGERPRINT.
Proof.
  assert (Hb : Forall isByte TEST_FINGERPRINT) by (cbn; byte_list).
  assert (He : endsLine ("v=0" +++ LF)) by (right; exists "v=0"; reflexivity).
  split; [reflexivity|]. split; [exact Hb|]. split; [reflexivity|].
  split; [exact He|]. split; [reflexivity|].
  exact (extractFingerprint_formatFingerprint TEST_FINGERPRINT ("v=0" +++ LF) CRLF
           eq_refl Hb eq_refl He eq_refl).
Defined.

Lemma reconstructSDP_valid_witness :
  SubtleCryptoSpec toyCrypto
  /\ List.length TEST_FINGERPRINT = 32%nat
  /\ Forall isByte TEST_FINGERPRINT
  /\ plainCredentials None
  /\ exists sdp,
       Sdp.reconstructSDP (SC := toyCrypto) TEST_FINGERPRINT true None = Ok sdp
       /\ Sdp.validateSDP sdp = true.
Proof.
  assert (Hb : Forall isByte TEST_FINGERPRINT) by (cbn; byte_list).
  split; [exact toyCrypto_spec|]. split; [reflexivity|]. split; [exact Hb|].
  split; [exact I|].
  destruct (reconstructSDP_valid (SC := toyCrypto) TEST_FINGERPRINT true None
              toyCrypto_spec eq_refl Hb I) as (sid & creds & _ & _ & Hr & Hv).
  eexists. split; [exact Hr|exact Hv].
Defined.

Lemma extractFingerprint_reconstructSDP_witness :
  SubtleCryptoSpec toyCrypto
  /\ List.length TEST_FINGERPRINT = 32%nat
  /\ Forall isByte TEST_FINGERPRINT
  /\ plainCredentials (Some (mkCredentials "ufrag0" "password0password0passwd"))
  /\ exists sdp,
       Sdp.reconstructSDP (SC := toyCrypto) TEST_FINGERPRINT false
         (Some (mkCredentials "ufrag0" "password0password0passwd")) = Ok sdp
       /\ Crypto.extractFingerprintFromSDP sdp = Ok TEST_FINGERPRINT.
Proof.
  assert (Hb : Forall isByte TEST_FINGERPRINT) by (cbn; byte_list).
  assert (Hp : plainCredentials
                 (Some (mkCredentials "ufrag0" "password0password0passwd")))
    by (split; reflexivity).
  split; [exact toyCrypto_spec|]. split; [reflexivity|]. split; [exact Hb|].
  split; [exact Hp|].
  exact (extractFingerprint_reconstructSDP (SC := toyCrypto) TEST_FINGERPRINT false
           _ toyCrypto_spec eq_refl Hb Hp).
Defined.
